(** * jupyterlab_git/git.py: the Git facade, its output parsers and the
      credential channel, embedded as executable definitions.

    Text is modelled by [string]: the decoded output of the child process,
    one [ascii] per code point, so code points are taken below 256.  The
    character classes of Python's [str] methods are written out for that
    range.  Python values that end up in a response dictionary are [pyval]s,
    dictionaries are [gmap]s keyed by strings. *)

From Stdlib Require Import ZArith String Ascii List Lia Bool DecimalString.
From stdpp Require Import base option list gmap strings.

Local Open Scope string_scope.
Local Open Scope Z_scope.

(** ** Python's [str] methods *)

Module PyStr.

Definition chr (n : nat) : ascii := ascii_of_nat n.
Definition ord (c : ascii) : nat := nat_of_ascii c.

Definition LF : ascii := chr 10.
Definition CR : ascii := chr 13.
Definition DQUOTE : ascii := chr 34.

(** [str.isspace] on one character (Unicode whitespace below 256). *)
Definition isspace (c : ascii) : bool :=
  let n := ord c in
  ((9 <=? n) && (n <=? 13) || (28 <=? n) && (n <=? 32)
   || (n =? 133) || (n =? 160))%nat.

(** The line boundaries of [str.splitlines] below 256; CR LF is handled
    by [splitlines] itself. *)
Definition is_linebreak (c : ascii) : bool :=
  let n := ord c in
  ((10 <=? n) && (n <=? 13) || (28 <=? n) && (n <=? 30) || (n =? 133))%nat.

(** [str.isdigit] on one character: 0-9 and the superscripts 2, 3, 1. *)
Definition isdigit_char (c : ascii) : bool :=
  let n := ord c in
  ((48 <=? n) && (n <=? 57) || (n =? 178) || (n =? 179) || (n =? 185))%nat.

Fixpoint all_chars (p : ascii -> bool) (s : string) : bool :=
  match s with
  | EmptyString => true
  | String c s' => p c && all_chars p s'
  end.

(** [s.isdigit()]: every character is a digit and there is at least one. *)
Definition isdigit (s : string) : bool :=
  match s with
  | EmptyString => false
  | _ => all_chars isdigit_char s
  end.

(** [str.lower] on one character: A-Z and the Latin-1 capitals. *)
Definition lower_char (c : ascii) : ascii :=
  let n := ord c in
  if ((65 <=? n) && (n <=? 90)
      || (192 <=? n) && (n <=? 222) && negb (n =? 215))%nat
  then chr (n + 32) else c.

Fixpoint lower (s : string) : string :=
  match s with
  | EmptyString => EmptyString
  | String c s' => String (lower_char c) (lower s')
  end.

(** [s.startswith(p)] *)
Definition startswith (p s : string) : bool := String.prefix p s.

(** [sub in s] *)
Fixpoint contains (sub s : string) : bool :=
  String.prefix sub s ||
  match s with
  | EmptyString => false
  | String _ s' => contains sub s'
  end.

(** [s[n:]] *)
Fixpoint drop (n : nat) (s : string) : string :=
  match n, s with
  | O, _ => s
  | S _, EmptyString => EmptyString
  | S n', String _ s' => drop n' s'
  end.

(** [s[i]], [None] standing for IndexError. *)
Definition index (s : string) (i : nat) : option ascii := String.get i s.

(** [s[:-1]] *)
Fixpoint drop_last (s : string) : string :=
  match s with
  | EmptyString => EmptyString
  | String c EmptyString => EmptyString
  | String c s' => String c (drop_last s')
  end.

(** [s.endswith(c)] for a one-character [c]. *)
Fixpoint endswith_char (c : ascii) (s : string) : bool :=
  match s with
  | EmptyString => false
  | String d EmptyString => Ascii.eqb c d
  | String _ s' => endswith_char c s'
  end.

(** [s.lstrip()] *)
Fixpoint lstrip (s : string) : string :=
  match s with
  | EmptyString => EmptyString
  | String c s' => if isspace c then lstrip s' else s
  end.

(** [s.rstrip()] *)
Fixpoint rstrip (s : string) : string :=
  match s with
  | EmptyString => EmptyString
  | String c s' =>
      match rstrip s' with
      | EmptyString => if isspace c then EmptyString else String c EmptyString
      | r => String c r
      end
  end.

(** [s.strip()] *)
Definition strip (s : string) : string := rstrip (lstrip s).

Fixpoint mem_char (c : ascii) (set : string) : bool :=
  match set with
  | EmptyString => false
  | String d set' => Ascii.eqb c d || mem_char c set'
  end.

(** [s.lstrip(chars)] *)
Fixpoint lstrip_chars (set : string) (s : string) : string :=
  match s with
  | EmptyString => EmptyString
  | String c s' => if mem_char c set then lstrip_chars set s' else s
  end.

(** [sep.join(l)] *)
Fixpoint join (sep : string) (l : list string) : string :=
  match l with
  | [] => EmptyString
  | [x] => x
  | x :: l' => x ++ sep ++ join sep l'
  end.

(** [s.splitlines()] *)
Fixpoint splitlines (s : string) : list string :=
  match s with
  | EmptyString => []
  | String c s' =>
      if is_linebreak c then
        EmptyString ::
          (if Ascii.eqb c CR then
             match s' with
             | String d s'' => if Ascii.eqb d LF then splitlines s''
                               else splitlines s'
             | EmptyString => splitlines s'
             end
           else splitlines s')
      else
        match splitlines s' with
        | [] => [String c EmptyString]
        | l :: ls => String c l :: ls
        end
  end.

Definition cons_head (c : ascii) (l : list string) : list string :=
  match l with
  | [] => [String c EmptyString]
  | x :: xs => String c x :: xs
  end.

Definition budget_left (maxsplit : option nat) : bool :=
  match maxsplit with
  | Some O => false
  | _ => true
  end.

Definition budget_pred (maxsplit : option nat) : option nat :=
  match maxsplit with
  | Some n => Some (Nat.pred n)
  | None => None
  end.

(** [s.split(sep, maxsplit)] for a non-empty [sep]; [maxsplit = None] is
    Python's default of -1.  [skip] counts the characters of a separator
    just matched that are still to be passed over.  The head of the result
    is the piece under construction. *)
Fixpoint split_go (sep : string) (maxsplit : option nat) (skip : nat)
    (s : string) : list string :=
  match s with
  | EmptyString => [EmptyString]
  | String c s' =>
      match skip with
      | S n => split_go sep maxsplit n s'
      | O =>
          if budget_left maxsplit && String.prefix sep s
          then EmptyString ::
                 split_go sep (budget_pred maxsplit)
                   (Nat.pred (String.length sep)) s'
          else cons_head c (split_go sep maxsplit 0 s')
      end
  end.

Definition split (sep : string) (maxsplit : option nat) (s : string)
  : list string :=
  split_go sep maxsplit 0 s.

(** [s.split(None, maxsplit)]: runs of whitespace separate, empty pieces
    are dropped, and once [maxsplit] pieces are out the rest of the text
    (leading whitespace skipped, trailing whitespace kept) is the last
    piece.  [in_tok] says that the head of the result continues the piece
    being read. *)
Fixpoint split_ws_go (maxsplit : option nat) (in_tok : bool) (s : string)
  : list string :=
  match s with
  | EmptyString => if in_tok then [EmptyString] else []
  | String c s' =>
      if in_tok then
        if isspace c then EmptyString :: split_ws_go maxsplit false s'
        else cons_head c (split_ws_go maxsplit true s')
      else
        if isspace c then split_ws_go maxsplit false s'
        else if budget_left maxsplit
             then cons_head c (split_ws_go (budget_pred maxsplit) true s')
             else [s]
  end.

Definition split_ws (maxsplit : option nat) (s : string) : list string :=
  split_ws_go maxsplit false s.

End PyStr.

Import PyStr.

(** ** Python values, exceptions and the effects of a call *)

#[local] Set Warnings "-register-all".

(** The values stored in a response dictionary. *)
Inductive pyval :=
| VNone
| VBool (b : bool)
| VInt (n : Z)
| VStr (s : string)
| VList (l : list pyval)
| VDict (d : gmap string pyval).

Abbreviation dict := (gmap string pyval).

(** The exceptions the module raises or lets through. *)
Inductive exn :=
| HTTPError (status_code : Z) (log_message : string)
| IndexError
| KeyError (key : string)
| ValueError (msg : string)
| CalledProcessError (returncode : Z) (output : string)
| TypeError
| PyException (msg : string)
| PexpectEOF
| PexpectTIMEOUT.

(** [str(e)] for the exceptions that reach an [except Exception] of the
    module; the text of the others is never asked for. *)
Definition exn_str (e : exn) : string :=
  match e with
  | ValueError msg | PyException msg => msg
  | IndexError => "list index out of range"
  | _ => EmptyString
  end.

(** How a piece of code ends.  [OutOfFuel] belongs to the model only: a
    [while] loop is run with a bound on its turns. *)
Inductive outcome (A : Type) :=
| Return (a : A)
| Raise (e : exn)
| OutOfFuel.
Arguments Return {A} a.
Arguments Raise {A} e.
Arguments OutOfFuel {A}.

(** A child process launched by the module. *)
Inductive call :=
| Popen (argv : list string) (cwd : string)
    (* subprocess.Popen(argv, stdout=PIPE, stderr=PIPE, cwd=cwd) *)
| PopenEnv (argv : list string) (cwd : string) (terminal_prompt : string)
    (* the same with env["GIT_TERMINAL_PROMPT"] set *)
| CheckOutput (argv : list string) (cwd : string)
    (* subprocess.check_output(argv, cwd=cwd, stderr=subprocess.STDOUT) *)
| Spawn (command : string) (cwd : string) (terminal_prompt : string).
    (* pexpect.spawn(command, cwd=cwd, env=env) *)

(** What the module does to the outside, in order. *)
Inductive io :=
| Launch (c : call)
| Sendline (line : string).

Abbreviation trace := (list io).

(** What [communicate] hands back once the child has exited; with
    [CheckOutput], [stdout] is the merged stream. *)
Record Completed := {
  returncode : Z;
  stdout : string;
  stderr : string;
}.

(** A child on a pseudo-terminal: it emits text and reads lines, then exits.
    [exitstatus_at_eof] is what [p.exitstatus] holds when end of stream is
    met before the child has been waited for. *)
Inductive event :=
| Emit (text : string)
| ReadLine.

Record Child := {
  script : list event;
  exit_status : Z;
  exitstatus_at_eof : option Z;
}.

(** The outside: the executable's answer to each launch, given what has
    been done so far, and [urllib.parse.unquote]. *)
Record World := {
  run : trace -> call -> Completed;
  spawn : trace -> call -> Child;
  unquote : string -> string;
}.

(** Computations: read the world, extend the trace, return or raise. *)
Definition M (A : Type) : Type := World -> trace -> outcome A * trace.

Definition ret {A} (a : A) : M A := fun _ tr => (Return a, tr).
Definition raise {A} (e : exn) : M A := fun _ tr => (Raise e, tr).
Definition bind {A B} (m : M A) (k : A -> M B) : M B :=
  fun w tr =>
    match m w tr with
    | (Return a, tr') => k a w tr'
    | (Raise e, tr') => (Raise e, tr')
    | (OutOfFuel, tr') => (OutOfFuel, tr')
    end.
Definition lift {A} (o : outcome A) : M A := fun _ tr => (o, tr).

(** [try: m except Exception as e: h e] *)
Definition try_except {A} (m : M A) (h : exn -> M A) : M A :=
  fun w tr =>
    match m w tr with
    | (Raise e, tr') => h e w tr'
    | r => r
    end.

Notation "'let*' x ':=' m 'in' k" := (bind m (fun x => k))
  (at level 10, x pattern, m at level 100, k at level 200).

(** The pure part: [outcome] alone. *)
Definition obind {A B} (o : outcome A) (k : A -> outcome B) : outcome B :=
  match o with
  | Return a => k a
  | Raise e => Raise e
  | OutOfFuel => OutOfFuel
  end.

Notation "'let+' x ':=' o 'in' k" := (obind o (fun x => k))
  (at level 10, x pattern, o at level 100, k at level 200).

(** [l[i]] on a list, raising IndexError out of range. *)
Definition at_index {A} (l : list A) (i : nat) : outcome A :=
  match l !! i with
  | Some x => Return x
  | None => Raise IndexError
  end.

(** [s[i]] on text. *)
Definition char_at (s : string) (i : nat) : outcome ascii :=
  match index s i with
  | Some c => Return c
  | None => Raise IndexError
  end.

(** [d[k]] on a dictionary, raising KeyError. *)
Definition dict_get (d : dict) (k : string) : outcome pyval :=
  match d !! k with
  | Some v => Return v
  | None => Raise (KeyError k)
  end.

(** A value used as a list, as [+] on lists needs it. *)
Definition as_list (v : pyval) : outcome (list pyval) :=
  match v with
  | VList l => Return l
  | _ => Raise TypeError
  end.

Definition ask : M World := fun w tr => (Return w, tr).

(** [subprocess.Popen(...)] followed by [p.communicate()]. *)
Definition popen (c : call) : M Completed :=
  fun w tr => (Return (run w tr c), (tr ++ [Launch c])%list).

(** [subprocess.check_output(cmd, cwd=..., stderr=subprocess.STDOUT)] *)
Definition check_output (argv : list string) (cwd : string) : M string :=
  let* p := popen (CheckOutput argv cwd) in
  if returncode p =? 0 then ret (stdout p)
  else raise (CalledProcessError (returncode p) (stdout p)).

(** [os.path.join(a, b)] on POSIX paths. *)
Definition path_join (a b : string) : string :=
  if startswith "/" b then b
  else if (String.eqb a "" || endswith_char "/" a)%bool then a ++ b
  else a ++ "/" ++ b.

(** The facade is rooted at a directory; the contents manager is read by
    [get_content] only. *)
Record Git := { root_dir : string }.

Definition ALLOWED_OPTIONS : list string := ["user.name"; "user.email"].

Definition allowed (k : string) : bool := bool_decide (k ∈ ALLOWED_OPTIONS).

(** ** [Git.config] *)

(** The body of [for k, v in filter(...)] when keyword arguments are given;
    the statement after the loop is the empty-list case. *)
Fixpoint config_set_loop (top_repo_path : string)
    (kvs : list (string * string)) (output : list string) (response : dict)
  : M dict :=
  match kvs with
  | [] => ret (<["message" := VStr (strip (join (String LF "") output))]>
                 response)
  | (k, v) :: rest =>
      let cmd := ["git"; "config"; "--add"; k; v] in
      let* p := popen (Popen cmd top_repo_path) in
      let output := (output ++ [strip (stdout p)])%list in
      let response := <["code" := VInt (returncode p)]> response in
      if negb (returncode p =? 0)
      then ret (<["message" := VStr (strip (stderr p))]>
                  (<["command" := VStr (join " " cmd)]> response))
      else config_set_loop top_repo_path rest output response
  end.

(** The first test of the loop, [l] starting with a double quote and
    [previous_key in ALLOWED_OPTIONS]: the key the line continues, if any. *)
Definition continued_key (l : string) (previous_key : option string)
  : option string :=
  match previous_key with
  | Some k => if startswith (String DQUOTE "") l && allowed k then Some k
              else None
  | None => None
  end.

(** The body of [for l in raw.split("\n")] when no keyword argument is
    given: the state is the options dictionary and [previous_key]. *)
Fixpoint config_parse (lines : list string) (options : gmap string string)
    (previous_key : option string) : outcome (gmap string string) :=
  match lines with
  | [] => Return options
  | l :: rest =>
      match continued_key l previous_key with
      | Some k =>
          match options !! k with
          | Some old => config_parse rest (<[k := old ++ l]> options)
                          previous_key
          | None => Raise (KeyError k)
          end
      | None =>
          if contains "=" l then
            match split "=" (Some 1%nat) l with
            | [key; v] =>
                config_parse rest
                  (if allowed key then <[key := v]> options else options)
                  (Some key)
            | _ => Raise (ValueError "unpack")
            end
          else config_parse rest options previous_key
      end
  end.

Definition config_list_cmd : list string := ["git"; "config"; "--list"].

Definition config (top_repo_path : string) (kwargs : list (string * string))
  : M dict :=
  let response : dict := {["code" := VInt 1]} in
  if negb (length kwargs =? 0)%nat then
    config_set_loop top_repo_path
      (List.filter (fun t => allowed (fst t)) kwargs) [] response
  else
    let cmd := config_list_cmd in
    let* p := popen (Popen cmd top_repo_path) in
    let response : dict := {["code" := VInt (returncode p)]} in
    if negb (returncode p =? 0) then
      ret (<["message" := VStr (strip (stderr p))]>
             (<["command" := VStr (join " " cmd)]> response))
    else
      let raw := strip (stdout p) in
      let* options :=
        lift (config_parse (split (String LF "") None raw) ∅ None) in
      ret (<["options" := VDict (VStr <$> options)]> response).

(** ** [Git.changed_files] *)

(** An optional text argument that counts as true: [None] and the empty
    text do not. *)
Definition truthy (o : option string) : option string :=
  match o with
  | Some s => if String.eqb s "" then None else Some s
  | None => None
  end.

Definition changed_files_cmd (base remote single_commit : option string)
  : outcome (list string) :=
  match truthy single_commit with
  | Some sc => Return ["git"; "diff"; sc ++ "^!"; "--name-only"]
  | None =>
      match truthy base, truthy remote with
      | Some b, Some r =>
          if String.eqb b "WORKING" then
            Return ["git"; "diff"; r; "--name-only"]
          else if String.eqb b "INDEX" then
            Return ["git"; "diff"; "--staged"; r; "--name-only"]
          else
            Return ["git"; "diff"; b; r; "--name-only"]
      | _, _ =>
          Raise (HTTPError 400
                   "Either single_commit or (base and remote) must be provided")
      end
  end.

Definition changed_files (g : Git) (base remote single_commit : option string)
  : M dict :=
  let* cmd := lift (changed_files_cmd base remote single_commit) in
  let response : dict := ∅ in
  try_except
    (let* out := check_output cmd (root_dir g) in
     let response :=
       <["files" :=
           VList (VStr <$> split (String LF "") None (strip out))]>
         response in
     ret (<["code" := VInt 0]> response))
    (fun e =>
       match e with
       | CalledProcessError rc out =>
           ret (<["code" := VInt rc]> (<["message" := VStr out]> response))
       | _ => raise e
       end).

(** ** [Git.status] *)

Definition strip_quotes (to1 : string) : string :=
  let to1 := if startswith (String DQUOTE "") to1 then drop 1 to1 else to1 in
  if endswith_char DQUOTE to1 then drop_last to1 else to1.

Definition status_record (x y : ascii) (to1 from_path : string) : pyval :=
  VDict (<["x" := VStr (String x "")]>
           (<["y" := VStr (String y "")]>
              (<["to" := VStr to1]> {["from" := VStr from_path]}))).

(** One turn of [for line in line_array]. *)
Definition status_entry (line : string) : outcome pyval :=
  let from_path := drop 3 line in
  let+ x := char_at line 0 in
  let+ to1 :=
    if Ascii.eqb x "R" then
      let to0 := split " -> " None (drop 3 line) in
      at_index to0 (length to0 - 1)
    else Return (drop 3 line) in
  let to1 := strip_quotes to1 in
  let+ y := char_at line 1 in
  Return (status_record x y to1 from_path).

Fixpoint status_loop (line_array : list string) (result : list pyval)
  : outcome (list pyval) :=
  match line_array with
  | [] => Return result
  | line :: rest =>
      let+ e := status_entry line in
      status_loop rest (result ++ [e])%list
  end.

Definition status (g : Git) (current_path : string) : M dict :=
  let* p := popen (Popen ["git"; "status"; "--porcelain"]
                     (path_join (root_dir g) current_path)) in
  if returncode p =? 0 then
    let* result := lift (status_loop (splitlines (stdout p)) []) in
    ret (<["code" := VInt (returncode p)]> {["files" := VList result]})
  else
    ret (<["code" := VInt (returncode p)]>
           (<["command" := VStr "git status --porcelain"]>
              {["message" := VStr (stderr p)]})).

(** ** [Git.log] *)

Definition PREVIOUS_COMMIT_OFFSET : nat := 4.

Definition log_record (commit author date commit_msg pre_commit : string)
  : pyval :=
  VDict (<["commit" := VStr commit]>
           (<["author" := VStr author]>
              (<["date" := VStr date]>
                 (<["commit_msg" := VStr commit_msg]>
                    {["pre_commit" := VStr pre_commit]})))).

(** The body of the [while] loop, at index [i]. *)
Definition log_entry (line_array : list string) (i : nat) : outcome pyval :=
  if (i + PREVIOUS_COMMIT_OFFSET <? length line_array)%nat then
    let+ commit := at_index line_array i in
    let+ author := at_index line_array (i + 1) in
    let+ date := at_index line_array (i + 2) in
    let+ commit_msg := at_index line_array (i + 3) in
    let+ pre_commit := at_index line_array (i + PREVIOUS_COMMIT_OFFSET) in
    Return (log_record commit author date commit_msg pre_commit)
  else
    let+ commit := at_index line_array i in
    let+ author := at_index line_array (i + 1) in
    let+ date := at_index line_array (i + 2) in
    let+ commit_msg := at_index line_array (i + 3) in
    Return (log_record commit author date commit_msg "").

(** [while i < len(line_array): ...; i += PREVIOUS_COMMIT_OFFSET] *)
Fixpoint log_loop (fuel : nat) (line_array : list string) (i : nat)
    (result : list pyval) : outcome (list pyval) :=
  if (i <? length line_array)%nat then
    match fuel with
    | O => OutOfFuel
    | S fuel' =>
        let+ e := log_entry line_array i in
        log_loop fuel' line_array (i + PREVIOUS_COMMIT_OFFSET)
          (result ++ [e])%list
    end
  else Return result.

(** ["%d" % n] *)
Definition format_d (n : Z) : string := NilZero.string_of_int (Z.to_int n).

Definition log_cmd (history_count : Z) : list string :=
  ["git"; "log"; "--pretty=format:%H%n%an%n%ar%n%s";
   "-" ++ format_d history_count].

Definition log (g : Git) (current_path : string) (history_count : Z)
  : M dict :=
  let* p := popen (Popen (log_cmd history_count)
                     (path_join (root_dir g) current_path)) in
  if returncode p =? 0 then
    let line_array := splitlines (stdout p) in
    let* result := lift (log_loop (length line_array) line_array 0 []) in
    ret (<["code" := VInt (returncode p)]> {["commits" := VList result]})
  else
    ret (<["code" := VInt (returncode p)]>
           {["message" := VStr (stderr p)]}).

(** ** [Git.detailed_log] *)

(** [v == n] for an integer [n]: text never equals a number. *)
Definition eq_int (v : pyval) (n : Z) : bool :=
  match v with
  | VInt m => m =? n
  | VBool b => (if b then 1 else 0) =? n
  | _ => false
  end.

(** [for i in range(0, len(words)): if words[i].isdigit(): ...] *)
Fixpoint note_digits (words : list string) (note : list pyval) (count : nat)
  : outcome (list pyval * nat) :=
  match words with
  | [] => Return (note, count)
  | w :: rest =>
      if isdigit w then
        if (count <? length note)%nat
        then note_digits rest (<[count := VStr w]> note) (S count)
        else Raise IndexError
      else note_digits rest note count
  end.

Definition modified_file (path name insertion deletion : string) : pyval :=
  VDict (<["modified_file_path" := VStr path]>
           (<["modified_file_name" := VStr name]>
              (<["insertion" := VStr insertion]>
                 {["deletion" := VStr deletion]}))).

(** [for num in range(1, int(length / 2))]: the state is [result] and the
    variable [length], which the body assigns. *)
Fixpoint detailed_log_loop (line_array : list string) (nums : list nat)
    (result : list pyval) (length : nat) : outcome (list pyval * nat) :=
  match nums with
  | [] => Return (result, length)
  | num :: rest =>
      let+ line := at_index line_array num in
      let line_info := split_ws (Some 2%nat) line in
      let+ path := at_index line_info 2 in
      let words := split "/" None path in
      let length := List.length words in
      let+ name := at_index words (length - 1) in
      let+ insertion := at_index line_info 0 in
      let+ deletion := at_index line_info 1 in
      detailed_log_loop line_array rest
        (result ++ [modified_file path name insertion deletion])%list
        length
  end.

Definition detailed_log_parse (line_array : list string)
  : outcome (string * list pyval * list pyval) :=
  let note := [VInt 0; VInt 0; VInt 0] in
  let length := List.length line_array in
  let+ (temp, note, result, length) :=
    if (1 <? length)%nat then
      let+ temp := at_index line_array (length - 1) in
      let+ (note, _) := note_digits (split_ws None temp) note 0 in
      let+ (result, length) :=
        detailed_log_loop line_array (seq 1 (length / 2 - 1)) [] length in
      Return (temp, note, result, length)
    else Return ("", note, [], length) in
  let+ note2 := at_index note 2 in
  let+ note :=
    if eq_int note2 0 && (1 <? length)%nat && contains "-" temp then
      let+ exchange := at_index note 1 in
      Return (<[2%nat := exchange]> (<[1%nat := note2]> note))
    else Return note in
  Return (temp, note, result).

Definition detailed_response (code : Z) (temp : string)
    (count insertions deletions : pyval) (result : list pyval) : dict :=
  <["code" := VInt code]>
    (<["modified_file_note" := VStr temp]>
       (<["modified_files_count" := count]>
          (<["number_of_insertions" := insertions]>
             (<["number_of_deletions" := deletions]>
                {["modified_files" := VList result]})))).

Definition detailed_log (g : Git) (selected_hash current_path : string)
  : M dict :=
  let* p := popen (Popen ["git"; "log"; "-1"; "--stat"; "--numstat";
                          "--oneline"; selected_hash]
                     (path_join (root_dir g) current_path)) in
  if returncode p =? 0 then
    let* (temp, note, result) :=
      lift (detailed_log_parse (splitlines (stdout p))) in
    let* count := lift (at_index note 0) in
    let* insertions := lift (at_index note 1) in
    let* deletions := lift (at_index note 2) in
    ret (detailed_response (returncode p) temp count insertions deletions
           result)
  else
    ret (<["code" := VInt (returncode p)]>
           (<["command" := VStr "git log_1"]>
              {["message" := VStr (stderr p)]})).

(** ** [Git.get_current_branch] and the branch listings *)

Definition TAB : string := String (chr 9) "".

(** [l[-1]] *)
Definition last_item {A} (l : list A) : outcome A :=
  match l with
  | [] => Raise IndexError
  | _ => at_index l (length l - 1)
  end.

Definition get_current_branch_detached (g : Git) (current_path : string)
  : M pyval :=
  let command := ["git"; "branch"; "-a"] in
  let* p := popen (Popen command (path_join (root_dir g) current_path)) in
  if returncode p =? 0 then
    ret (default VNone
           (VStr <$>
              (lstrip_chars "* " <$>
                 List.find (startswith "*")
                   (strip <$> splitlines (stdout p)))))
  else
    raise (PyException
             ("Error [" ++ stderr p ++ "] occurred while executing ["
              ++ join " " command
              ++ "] command to get detached HEAD name.")).

Definition get_current_branch (g : Git) (current_path : string) : M pyval :=
  let command := ["git"; "symbolic-ref"; "HEAD"] in
  let* p := popen (Popen command (path_join (root_dir g) current_path)) in
  if returncode p =? 0 then
    let* name := lift (last_item (split "/" None (stdout p))) in
    ret (VStr (strip name))
  else if contains "not a symbolic ref" (lower (stderr p)) then
    get_current_branch_detached g current_path
  else
    raise (PyException
             ("Error [" ++ stderr p ++ "] occurred while executing ["
              ++ join " " command
              ++ "] command to get current branch.")).

Definition branch_record (is_current is_remote : bool) (name upstream
    top_commit : pyval) : pyval :=
  VDict (<["is_current_branch" := VBool is_current]>
           (<["is_remote_branch" := VBool is_remote]>
              (<["name" := name]>
                 (<["upstream" := upstream]>
                    (<["top_commit" := top_commit]>
                       {["tag" := VNone]}))))).

Definition decimal (n : nat) : string :=
  NilEmpty.string_of_uint (Nat.to_uint n).

(** The ValueError of a tuple assignment with the wrong number of values,
    worded as CPython 3 does. *)
Definition unpack_error (expected got : nat) : exn :=
  ValueError
    (if (got <? expected)%nat
     then "not enough values to unpack (expected " ++ decimal expected
          ++ ", got " ++ decimal got ++ ")"
     else "too many values to unpack (expected " ++ decimal expected ++ ")").

(** [for name, commit_sha, upstream_name, is_current_branch in ...] over
    the lines split at tabs: the state is [results] and [current_branch]. *)
Fixpoint branch_heads_loop (line_array : list string) (results : list pyval)
    (current_branch : option pyval) : outcome (list pyval * option pyval) :=
  match line_array with
  | [] => Return (results, current_branch)
  | line :: rest =>
      match split TAB None line with
      | [name; commit_sha; upstream_name; is_current_branch] =>
          let is_current_branch :=
            negb (String.eqb (strip is_current_branch) "") in
          let branch :=
            branch_record is_current_branch false (VStr name)
              (if String.eqb upstream_name "" then VNone
               else VStr upstream_name)
              (VStr commit_sha) in
          branch_heads_loop rest (results ++ [branch])%list
            (if is_current_branch then Some branch else current_branch)
      | fields => Raise (unpack_error 4 (length fields))
      end
  end.

Definition for_each_ref_cmd (formats : list string) (refs : string)
  : list string :=
  ["git"; "for-each-ref";
   "--format=" ++ join "%09" ((fun f => "%(" ++ f ++ ")") <$> formats);
   refs].

Definition failure (code : Z) (command message : string) : dict :=
  <["code" := VInt code]>
    (<["command" := VStr command]> {["message" := VStr message]}).

Definition branch_heads (g : Git) (current_path : string) : M dict :=
  let formats := ["refname:short"; "objectname"; "upstream:short"; "HEAD"] in
  let cmd := for_each_ref_cmd formats "refs/heads/" in
  let* p := popen (Popen cmd (path_join (root_dir g) current_path)) in
  if returncode p =? 0 then
    try_except
      (let* (results, current_branch) :=
         lift (branch_heads_loop (splitlines (stdout p)) [] None) in
       let* (results, current_branch) :=
         match current_branch with
         | Some b => ret (results, b)
         | None =>
             let* name := get_current_branch g current_path in
             let branch := branch_record true false name VNone VNone in
             ret ((results ++ [branch])%list, branch)
         end in
       ret (<["code" := VInt (returncode p)]>
              (<["branches" := VList results]>
                 {["current_branch" := current_branch]})))
      (fun downstream_error =>
         ret (failure (-1) (join " " cmd) (exn_str downstream_error)))
  else
    ret (failure (returncode p) (join " " cmd) (stderr p)).

Fixpoint branch_remotes_loop (line_array : list string)
    (results : list pyval) : outcome (list pyval) :=
  match line_array with
  | [] => Return results
  | line :: rest =>
      match split TAB None line with
      | [name; commit_sha] =>
          branch_remotes_loop rest
            (results ++
               [branch_record false true (VStr name) VNone
                  (VStr commit_sha)])%list
      | fields => Raise (unpack_error 2 (length fields))
      end
  end.

Definition branch_remotes (g : Git) (current_path : string) : M dict :=
  let formats := ["refname:short"; "objectname"] in
  let cmd := for_each_ref_cmd formats "refs/remotes/" in
  let* p := popen (Popen cmd (path_join (root_dir g) current_path)) in
  if returncode p =? 0 then
    try_except
      (let* results :=
         lift (branch_remotes_loop (splitlines (stdout p)) []) in
       ret (<["code" := VInt (returncode p)]>
              {["branches" := VList results]}))
      (fun downstream_error =>
         ret (failure (-1) (join " " cmd) (exn_str downstream_error)))
  else
    ret (failure (returncode p) (join " " cmd) (stderr p)).

Definition branch (g : Git) (current_path : string) : M dict :=
  let* heads := branch_heads g current_path in
  let* code := lift (dict_get heads "code") in
  if negb (eq_int code 0) then ret heads
  else
    let* remotes := branch_remotes g current_path in
    let* code := lift (dict_get remotes "code") in
    if negb (eq_int code 0) then ret remotes
    else
      let* hb := lift (let+ v := dict_get heads "branches" in as_list v) in
      let* rb := lift (let+ v := dict_get remotes "branches" in as_list v) in
      let* current := lift (dict_get heads "current_branch") in
      ret (<["code" := VInt 0]>
             (<["branches" := VList (hb ++ rb)%list]>
                {["current_branch" := current]})).

(** ** The credential channel: [pexpect] and [GitAuthInputWrapper] *)

(** The patterns [communicate] waits for: a regular expression made of a
    literal, [.*] and a literal (pexpect compiles with DOTALL, so [.]
    matches every character), or end of stream. *)
Inductive pattern :=
| Re (before_any after_any : string)
| EOF.

(** Index of the first occurrence of [lit] in [s]. *)
Fixpoint find_first (lit s : string) : option nat :=
  if String.prefix lit s then Some O
  else match s with
       | EmptyString => None
       | String _ s' => S <$> find_first lit s'
       end.

(** Index of the last occurrence of [lit] in [s]. *)
Fixpoint find_last (lit s : string) : option nat :=
  match s with
  | EmptyString => if String.prefix lit s then Some O else None
  | String _ s' =>
      match find_last lit s' with
      | Some n => Some (S n)
      | None => if String.prefix lit s then Some O else None
      end
  end.

(** [re.search] for [before_any .* after_any]: the leftmost start, and from
    there the longest match.  The result is the span [(start, stop)]. *)
Definition re_search (before_any after_any buffer : string)
  : option (nat * nat) :=
  start ← find_first before_any buffer;
  let from := (start + String.length before_any)%nat in
  n ← find_last after_any (drop from buffer);
  Some (start, (from + n + String.length after_any)%nat).

(** pexpect's search over a pattern list: the match that starts first wins,
    the earlier pattern on a tie.  [i] is the index of the head of [pats]. *)
Fixpoint search_from (i : nat) (pats : list pattern) (buffer : string)
    (best : option (nat * nat * nat)) : option (nat * nat * nat) :=
  match pats with
  | [] => best
  | pat :: rest =>
      let found :=
        match pat with
        | Re b a => re_search b a buffer
        | EOF => None
        end in
      let best :=
        match found, best with
        | Some (start, stop), None => Some (i, start, stop)
        | Some (start, stop), Some (_, first_match, _) =>
            if (start <? first_match)%nat then Some (i, start, stop)
            else best
        | None, _ => best
        end in
      search_from (S i) rest buffer best
  end.

Fixpoint eof_index (i : nat) (pats : list pattern) : option nat :=
  match pats with
  | [] => None
  | EOF :: _ => Some i
  | _ :: rest => eof_index (S i) rest
  end.

(** The spawned child as the module sees it: what the child has still to
    do, the text read and not yet matched, [p.before], and the lines sent
    that the child has not read yet. *)
Record Pty := {
  pending : list event;
  buffer : string;
  before : string;
  unread : nat;
}.

(** [p.expect(pats)]: match what is buffered, else read on.  End of stream
    returns the index of [EOF] when it is among the patterns and raises
    otherwise; a child that waits for input while the module waits for
    output ends in pexpect's TIMEOUT. *)
Fixpoint expect_loop (pats : list pattern) (pending : list event)
    (buffer : string) (unread : nat) : outcome nat * Pty :=
  match search_from 0 pats buffer None with
  | Some (i, start, stop) =>
      (Return i,
       {| pending := pending; buffer := drop stop buffer;
          before := String.substring 0 start buffer; unread := unread |})
  | None =>
      match pending with
      | [] =>
          let p := {| pending := []; buffer := ""; before := buffer;
                      unread := unread |} in
          match eof_index 0 pats with
          | Some i => (Return i, p)
          | None => (Raise PexpectEOF, p)
          end
      | Emit text :: rest => expect_loop pats rest (buffer ++ text) unread
      | ReadLine :: rest =>
          match unread with
          | S n => expect_loop pats rest buffer n
          | O =>
              (Raise PexpectTIMEOUT,
               {| pending := pending; buffer := buffer; before := buffer;
                  unread := unread |})
          end
      end
  end.

(** Steps of one session: they read and update the [Pty], which keeps its
    state when a step raises, and extend the trace. *)
Definition P (A : Type) : Type := Pty -> trace -> outcome A * Pty * trace.

Definition pret {A} (a : A) : P A := fun p tr => (Return a, p, tr).
Definition pbind {A B} (m : P A) (k : A -> P B) : P B :=
  fun p tr =>
    match m p tr with
    | (Return a, p', tr') => k a p' tr'
    | (Raise e, p', tr') => (Raise e, p', tr')
    | (OutOfFuel, p', tr') => (OutOfFuel, p', tr')
    end.

Notation "'let^' x ':=' m 'in' k" := (pbind m (fun x => k))
  (at level 10, x pattern, m at level 100, k at level 200).

Definition expect (pats : list pattern) : P nat :=
  fun p tr =>
    let (r, p') := expect_loop pats (pending p) (buffer p) (unread p) in
    (r, p', tr).

(** [p.sendline(line)] *)
Definition sendline (line : string) : P unit :=
  fun p tr =>
    (Return tt,
     {| pending := pending p; buffer := buffer p; before := before p;
        unread := S (unread p) |},
     (tr ++ [Sendline line])%list).

Definition get_before : P string := fun p tr => (Return (before p), p, tr).

Record GitAuthInputWrapper := {
  command : string;
  cwd : string;
  env_terminal_prompt : string;
  username : string;
  password : string;
}.

Definition username_prompt : pattern := Re "Username for " ": ".
Definition password_prompt : pattern := Re "Password for " ":".

(** The [try] block of [communicate], from the first [expect] to
    [response = p.before]. *)
Definition communicate_try (self : GitAuthInputWrapper) : P string :=
  let^ i := expect [username_prompt; password_prompt] in
  let^ _ :=
    if (i =? 0)%nat then
      let^ _ := sendline (username self) in
      let^ _ := expect [password_prompt] in
      sendline (password self)
    else if (i =? 1)%nat then sendline (password self)
    else pret tt in
  let^ _ := expect [EOF] in
  get_before.

(** [communicate] returns the transcript and sets [self.returncode], which
    is returned next to it. *)
Definition communicate (self : GitAuthInputWrapper)
  : M (string * option Z) :=
  fun w tr =>
    let c := Spawn (command self) (cwd self) (env_terminal_prompt self) in
    let child := spawn w tr c in
    let p := {| pending := script child; buffer := ""; before := "";
                unread := 0 |} in
    match communicate_try self p (tr ++ [Launch c])%list with
    | (Return response, _, tr') =>
        (Return (response, Some (exit_status child)), tr')
    | (Raise PexpectEOF, p', tr') =>
        (Return (before p', exitstatus_at_eof child), tr')
    | (Raise e, _, tr') => (Raise e, tr')
    | (OutOfFuel, _, tr') => (OutOfFuel, tr')
    end.

(** ** [Git.clone] *)

Record Credentials := {
  auth_username : string;
  auth_password : string;
}.

Definition opt_int (o : option Z) : pyval :=
  match o with
  | Some n => VInt n
  | None => VNone
  end.

Definition clone (g : Git) (current_path repo_url : string)
    (auth : option Credentials) : M dict :=
  let* w := ask in
  let* (error, rc) :=
    match auth with
    | Some a =>
        communicate
          {| command := "git clone " ++ unquote w repo_url ++ " -q";
             cwd := path_join (root_dir g) current_path;
             env_terminal_prompt := "1";
             username := auth_username a;
             password := auth_password a |}
    | None =>
        let* p := popen (PopenEnv ["git"; "clone"; unquote w repo_url]
                           (path_join (root_dir g) current_path) "0") in
        ret (stderr p, Some (returncode p))
    end in
  let response : dict := {["code" := opt_int rc]} in
  if negb (eq_int (opt_int rc) 0)
  then ret (<["message" := VStr (strip error)]> response)
  else ret response.

(** ** [Git.show] *)

Definition show_error_messages (filename ref : string) : list string :=
  lower <$>
    ["fatal: Path '" ++ filename ++ "' exists on disk, but not in '"
       ++ ref ++ "'";
     "fatal: Path '" ++ filename
       ++ "' does not exist (neither on disk nor in the index)"].

Definition show (filename ref top_repo_path : string) : M string :=
  let command := ["git"; "show"; ref ++ ":" ++ filename] in
  let* p := popen (Popen command top_repo_path) in
  let error_messages := show_error_messages filename ref in
  let lower_error := lower (stderr p) in
  if returncode p =? 0 then ret (stdout p)
  else if existsb (fun msg => contains msg lower_error) error_messages
  then ret ""
  else
    raise (HTTPError 500
             ("Error [" ++ stderr p ++ "] occurred while executing ["
              ++ join " " command
              ++ "] command to retrieve plaintext diff.")).

(** * The rest of the facade

    The operations the statements above do not reach, embedded the same
    way.  The operations that call [subprocess.check_output] or
    [subprocess.call] without capturing stderr ([add], [reset], [commit],
    [init] and the like) launch a kind of child the trace does not
    describe and are left out. *)

(** [s.rstrip(chars)] *)
Fixpoint rstrip_chars (set : string) (s : string) : string :=
  match s with
  | EmptyString => EmptyString
  | String c s' =>
      match rstrip_chars set s' with
      | EmptyString => if mem_char c set then EmptyString
                       else String c EmptyString
      | r => String c r
      end
  end.

(** [s.strip(chars)] *)
Definition strip_chars (set : string) (s : string) : string :=
  rstrip_chars set (lstrip_chars set s).

(** ** [Git.diff] *)

Definition diff_record (insertions deletions filename : string) : pyval :=
  VDict (<["insertions" := VStr insertions]>
           (<["deletions" := VStr deletions]>
              {["filename" := VStr filename]})).

(** [for line in line_array] of [diff]. *)
Fixpoint diff_loop (line_array : list string) (result : list pyval)
  : outcome (list pyval) :=
  match line_array with
  | [] => Return result
  | line :: rest =>
      let linesplit := split_ws None line in
      let+ insertions := at_index linesplit 0 in
      let+ deletions := at_index linesplit 1 in
      let+ filename := at_index linesplit 2 in
      diff_loop rest (result ++ [diff_record insertions deletions filename])%list
  end.

Definition diff (top_repo_path : string) : M dict :=
  let* p := popen (Popen ["git"; "diff"; "--numstat"] top_repo_path) in
  if returncode p =? 0 then
    let* result := lift (diff_loop (splitlines (stdout p)) []) in
    ret (<["code" := VInt (returncode p)]> {["result" := VList result]})
  else
    ret (<["code" := VInt (returncode p)]> {["message" := VStr (stderr p)]}).

(** ** [Git.show_top_level] and [Git.show_prefix] *)

Definition show_top_level (g : Git) (current_path : string) : M dict :=
  let* p := popen (Popen ["git"; "rev-parse"; "--show-toplevel"]
                     (path_join (root_dir g) current_path)) in
  if returncode p =? 0 then
    ret (<["code" := VInt (returncode p)]>
           {["top_repo_path" :=
               VStr (strip_chars (String LF "") (stdout p))]})
  else
    ret (failure (returncode p) "git rev-parse --show-toplevel" (stderr p)).

Definition show_prefix (g : Git) (current_path : string) : M dict :=
  let* p := popen (Popen ["git"; "rev-parse"; "--show-prefix"]
                     (path_join (root_dir g) current_path)) in
  if returncode p =? 0 then
    ret (<["code" := VInt (returncode p)]>
           {["under_repo_path" :=
               VStr (strip_chars (String LF "") (stdout p))]})
  else
    ret (failure (returncode p) "git rev-parse --show-prefix" (stderr p)).

(** ** Checking out branches *)

Definition checkout_new_branch (g : Git) (branchname current_path : string)
  : M dict :=
  let* p := popen (Popen ["git"; "checkout"; "-b"; branchname]
                     (path_join (root_dir g) current_path)) in
  if returncode p =? 0 then
    ret (<["code" := VInt (returncode p)]> {["message" := VStr (stdout p)]})
  else
    ret (failure (returncode p) ("git checkout " ++ "-b" ++ branchname)
           (stderr p)).



(** [_get_branch_name]; the ValueError is built from two arguments, the
    first of which is kept. *)
Definition get_branch_name (branch_reference : string) : outcome string :=
  if startswith "refs/heads/" branch_reference then
    at_index (split "refs/heads/" None branch_reference) 1
  else if startswith "refs/remotes/" branch_reference then
    at_index (split "refs/remotes/" None branch_reference) 1
  else Raise (ValueError "Reference [{}] is not a valid branch.").


(** ** [Git.pull] and [Git.push] *)

(** Like [clone], [pull] and [push] run their command with or without
    credentials and report the exit status. *)
Definition pull (g : Git) (curr_fb_path : string) (auth : option Credentials)
  : M dict :=
  let* (error, rc) :=
    match auth with
    | Some a =>
        communicate
          {| command := "git pull --no-commit";
             cwd := path_join (root_dir g) curr_fb_path;
             env_terminal_prompt := "1";
             username := auth_username a;
             password := auth_password a |}
    | None =>
        let* p := popen (PopenEnv ["git"; "pull"; "--no-commit"]
                           (path_join (root_dir g) curr_fb_path) "0") in
        ret (stderr p, Some (returncode p))
    end in
  let response : dict := {["code" := opt_int rc]} in
  if negb (eq_int (opt_int rc) 0)
  then ret (<["message" := VStr (strip error)]> response)
  else ret response.

Definition push (g : Git) (remote branch curr_fb_path : string)
    (auth : option Credentials) : M dict :=
  let* (error, rc) :=
    match auth with
    | Some a =>
        communicate
          {| command := "git push " ++ remote ++ " " ++ branch;
             cwd := path_join (root_dir g) curr_fb_path;
             env_terminal_prompt := "1";
             username := auth_username a;
             password := auth_password a |}
    | None =>
        let* p := popen (PopenEnv ["git"; "push"; remote; branch]
                           (path_join (root_dir g) curr_fb_path) "0") in
        ret (stderr p, Some (returncode p))
    end in
  let response : dict := {["code" := opt_int rc]} in
  if negb (eq_int (opt_int rc) 0)
  then ret (<["message" := VStr (strip error)]> response)
  else ret response.

(** ** [Git.get_upstream_branch] and [Git._get_tag] *)

Definition upstream_cmd (branch_name : string) : list string :=
  ["git"; "rev-parse"; "--abbrev-ref"; branch_name ++ "@{upstream}"].

Definition get_upstream_branch (g : Git) (current_path branch_name : string)
  : M pyval :=
  let command := upstream_cmd branch_name in
  let* p := popen (Popen command (path_join (root_dir g) current_path)) in
  if returncode p =? 0 then ret (VStr (strip (stdout p)))
  else if contains "fatal: no upstream configured for branch"
            (lower (stderr p)) then ret VNone
  else if contains "unknown revision or path not in the working tree"
            (lower (stderr p)) then ret VNone
  else
    raise (PyException
             ("Error [" ++ stderr p ++ "] occurred while executing ["
              ++ join " " command
              ++ "] command to get upstream branch.")).

Definition describe_cmd (commit_sha : string) : list string :=
  ["git"; "describe"; "--tags"; commit_sha].

(** [_get_tag] *)
Definition get_tag (g : Git) (current_path commit_sha : string) : M pyval :=
  let command := describe_cmd commit_sha in
  let* p := popen (Popen command (path_join (root_dir g) current_path)) in
  if returncode p =? 0 then ret (VStr (strip (stdout p)))
  else if contains ("fatal: no tags can describe '" ++ commit_sha ++ "'.")
            (lower (stderr p)) then ret VNone
  else if contains "fatal: no names found" (lower (stderr p)) then ret VNone
  else
    raise (PyException
             ("Error [" ++ stderr p ++ "] occurred while executing ["
              ++ join " " command
              ++ "] command to get nearest tag associated with branch.")).

(** ** [Git.get_content] and [Git.diff_content] *)

(** The contents manager and [os.path.relpath], which the facade only
    calls. *)
Record Contents := {
  relpath : string -> string -> string;
  contents_get : string -> outcome dict;
}.

Definition get_content (cm : Contents) (g : Git)
    (filename top_repo_path : string) : M pyval :=
  let relative_repo := relpath cm top_repo_path (root_dir g) in
  let* model := lift (contents_get cm (path_join relative_repo filename)) in
  lift (dict_get model "content").

(** [ref[k]] on a ref given as a dictionary of texts. *)
Definition ref_get (ref : gmap string string) (k : string) : outcome string :=
  match ref !! k with
  | Some v => Return v
  | None => Raise (KeyError k)
  end.

Definition diff_content (cm : Contents) (g : Git) (filename : string)
    (prev_ref curr_ref : gmap string string) (top_repo_path : string)
  : M dict :=
  let* prev_git := lift (ref_get prev_ref "git") in
  let* prev_content := show filename prev_git top_repo_path in
  let* curr_content :=
    match curr_ref !! "special" with
    | Some special =>
        if String.eqb special "WORKING" then
          get_content cm g filename top_repo_path
        else if String.eqb special "INDEX" then
          let* c := show filename "" top_repo_path in ret (VStr c)
        else
          raise (HTTPError 500
                   ("Error while retrieving plaintext diff, unknown special ref '"
                    ++ special ++ "'."))
    | None =>
        let* curr_git := lift (ref_get curr_ref "git") in
        let* c := show filename curr_git top_repo_path in ret (VStr c)
    end in
  ret (<["prev_content" := VStr prev_content]>
         {["curr_content" := curr_content]}).

(** * Vocabulary of the statements

    The launches each operation makes, the shapes of its responses, and
    the sample worlds the statements are tried on. *)

(** A world whose executable answers every launch the same way. *)
Definition fixed_world (p : Completed) : World :=
  {| run := fun _ _ => p;
     spawn := fun _ _ =>
       {| script := []; exit_status := 0; exitstatus_at_eof := None |};
     unquote := fun s => s |}.

(** The executable prints [output] and exits with status 0. *)
Definition printing (output : string) : World :=
  fixed_world {| returncode := 0; stdout := output; stderr := "" |}.

(** The executable fails with [code] and the diagnostic [error]. *)
Definition failing (code : Z) (error : string) : World :=
  fixed_world {| returncode := code; stdout := ""; stderr := error |}.

Definition quoted (s : string) : string :=
  String DQUOTE s ++ String DQUOTE "".

Definition sample_git : Git := {| root_dir := "/srv" |}.

(** ** [changed_files] *)

Definition changed_files_call (g : Git) (cmd : list string) : io :=
  Launch (CheckOutput cmd (root_dir g)).

Definition changed_files_error : exn :=
  HTTPError 400 "Either single_commit or (base and remote) must be provided".

(** The response to a finished [git diff --name-only]. *)
Definition changed_files_response (p : Completed) : dict :=
  if returncode p =? 0 then
    <["code" := VInt 0]>
      {["files" :=
          VList (VStr <$> split (String LF "") None (strip (stdout p)))]}
  else
    <["code" := VInt (returncode p)]> {["message" := VStr (stdout p)]}.

(** ** [clone] with credentials *)

Definition username_text (host : string) : string :=
  "Username for " ++ host ++ ": ".

Definition password_text (host : string) : string :=
  "Password for " ++ host ++ ": ".

(** The child that asks for a user name, then for a password, prints
    [tail] and exits with status 0. *)
Definition prompting_child (host tail : string) (at_eof : option Z) : Child :=
  {| script := [Emit (username_text host); ReadLine;
                Emit (password_text host); ReadLine; Emit tail];
     exit_status := 0;
     exitstatus_at_eof := at_eof |}.

Definition clone_spawn (g : Git) (w : World) (current_path repo_url : string)
  : call :=
  Spawn ("git clone " ++ unquote w repo_url ++ " -q")
    (path_join (root_dir g) current_path) "1".

Definition fresh_pty (c : Child) : Pty :=
  {| pending := script c; buffer := ""; before := ""; unread := 0 |}.

Definition prompting_world : World :=
  {| run := fun _ _ => {| returncode := 0; stdout := ""; stderr := "" |};
     spawn := fun _ _ => prompting_child "x" "" (Some 0);
     unquote := fun s => s |}.

(** ** [log] *)

(** A commit as [git log] prints it with the format of [log]. *)
Record Commit := {
  c_id : string;
  c_author : string;
  c_date : string;
  c_subject : string;
}.

Definition commit_lines (c : Commit) : list string :=
  [c_id c; c_author c; c_date c; c_subject c].

(** The commit id the entry at [i] is to carry as its parent: that of the
    next commit, nothing after the last. *)
Definition next_id (cs : list Commit) (i : nat) : string :=
  match cs !! S i with
  | Some c' => c_id c'
  | None => ""
  end.

Fixpoint log_entries (cs : list Commit) : list pyval :=
  match cs with
  | [] => []
  | c :: rest =>
      log_record (c_id c) (c_author c) (c_date c) (c_subject c)
        (next_id cs 0) :: log_entries rest
  end.

Definition log_call (g : Git) (current_path : string) (history_count : Z)
  : call :=
  Popen (log_cmd history_count) (path_join (root_dir g) current_path).

(** A text without line boundary. *)
Definition one_line (s : string) : bool :=
  all_chars (fun c => negb (is_linebreak c)) s.

Definition two_commits : list Commit :=
  [{| c_id := "9f2c1e7"; c_author := "Ada"; c_date := "2 hours ago";
      c_subject := "Fix the parser" |};
   {| c_id := "41b07aa"; c_author := "Grace"; c_date := "3 days ago";
      c_subject := "Initial commit" |}].

Definition two_commits_output : string :=
  join (String LF "") (concat (commit_lines <$> two_commits)).

(** The same history when the older commit was made with an empty
    message. *)
Definition empty_subject_commits : list Commit :=
  [{| c_id := "9f2c1e7"; c_author := "Ada"; c_date := "2 hours ago";
      c_subject := "Fix the parser" |};
   {| c_id := "41b07aa"; c_author := "Grace"; c_date := "3 days ago";
      c_subject := "" |}].

Definition empty_subject_output : string :=
  join (String LF "") (concat (commit_lines <$> empty_subject_commits)).

(** ** [detailed_log] *)

Definition detailed_log_call (g : Git) (selected_hash current_path : string)
  : call :=
  Popen ["git"; "log"; "-1"; "--stat"; "--numstat"; "--oneline";
         selected_hash]
    (path_join (root_dir g) current_path).

Definition numstat_line (insertions deletions path : string) : string :=
  insertions ++ TAB ++ deletions ++ TAB ++ path.

Definition both_counts_footer : string :=
  "3 files changed, 5 insertions(+), 2 deletions(-)".

Definition deletions_only_footer : string :=
  "3 files changed, 2 deletions(-)".

(** A commit that removes a line from each of two files and changes the
    mode of a third; the last file listed is at the top of the tree.
    [indent] is the blank git puts before the footer. *)
Definition deletions_only_output (indent : string) : string :=
  join (String LF "")
    ["f29660a Remove stale lines";
     numstat_line "0" "1" "docs/a.txt";
     numstat_line "0" "1" "docs/b.txt";
     numstat_line "0" "0" "run.sh";
     " docs/a.txt | 1 -";
     " docs/b.txt | 1 -";
     " run.sh     | 0";
     indent ++ deletions_only_footer].

(** The same commit with the files in another order: the last file listed
    is in a directory. *)
Definition deletions_only_output_nested_last : string :=
  join (String LF "")
    ["f29660a Remove stale lines";
     numstat_line "0" "0" "run.sh";
     numstat_line "0" "1" "docs/a.txt";
     numstat_line "0" "1" "docs/b.txt";
     " run.sh     | 0";
     " docs/a.txt | 1 -";
     " docs/b.txt | 1 -";
     " " ++ deletions_only_footer].

(** ** [status] *)

Definition status_call (g : Git) (current_path : string) : call :=
  Popen ["git"; "status"; "--porcelain"] (path_join (root_dir g) current_path).

(** The path [status] reports for a line. *)
Definition status_to (line : string) : string :=
  strip_quotes
    (if startswith "R" line
     then default "" (last (split " -> " None (drop 3 line)))
     else drop 3 line).

Definition status_entry_of (line : string) : pyval :=
  status_record (default " "%char (index line 0))
    (default " "%char (index line 1)) (status_to line) (drop 3 line).

(** An untracked file whose name holds an arrow, as porcelain prints it. *)
Definition untracked_arrow_line : string := "?? " ++ quoted "a -> b".

Definition rename_and_edit_output : string :=
  "R  old.txt -> " ++ quoted "new name.txt" ++ String LF " M README.md".

(** ** [config] without arguments *)

Definition config_list_call (top_repo_path : string) : call :=
  Popen config_list_cmd top_repo_path.

(** The lines the loop of [config] reads. *)
Definition config_lines (output : string) : list string :=
  split (String LF "") None (strip output).

(** The key of a [key=value] line. *)
Definition line_key (l : string) : string :=
  default "" (head (split "=" (Some 1%nat) l)).

(** The lines the parser attributes to an allowed key: the [key=value]
    line of an allowed key, and the lines it takes as its continuation. *)
Fixpoint attributed_lines (lines : list string) (previous_key : option string)
  : list string :=
  match lines with
  | [] => []
  | l :: rest =>
      match continued_key l previous_key with
      | Some _ => l :: attributed_lines rest previous_key
      | None =>
          if contains "=" l then
            if allowed (line_key l)
            then l :: attributed_lines rest (Some (line_key l))
            else attributed_lines rest (Some (line_key l))
          else attributed_lines rest previous_key
      end
  end.

(** The state of the loop is sound: the dictionary holds allowed keys only,
    and an allowed [previous_key] has an entry. *)
Definition parse_inv (options : gmap string string)
    (previous_key : option string) : Prop :=
  (forall k, is_Some (options !! k) -> allowed k = true)
  /\ (forall k, previous_key = Some k -> allowed k = true ->
      is_Some (options !! k)).

(** Two loop states that agree as far as allowed keys go. *)
Definition same_allowed_key (pk pk' : option string) : Prop :=
  pk = pk' \/ from_option allowed false pk = false.

Definition options_response (options : gmap string string) : dict :=
  <["options" := VDict (VStr <$> options)]> {["code" := VInt 0]}.

(** A [key=value] line whose key is outside the allow-list. *)
Definition nonallowed_key_line (l : string) : bool :=
  contains "=" l && negb (allowed (line_key l)).

(** Two listings that differ only in lines for non-allowed keys: without
    those lines they are the same. *)
Definition differ_only_in_nonallowed (output1 output2 : string) : Prop :=
  List.filter (fun l => negb (nonallowed_key_line l)) (config_lines output1) =
  List.filter (fun l => negb (nonallowed_key_line l)) (config_lines output2).

Definition quoted_tail : string := String DQUOTE "Lovelace".

Definition listing_name_only : string :=
  "user.name=Ada" ++ String LF quoted_tail.

Definition listing_name_and_editor : string :=
  "user.name=Ada" ++ String LF ("core.editor=vim" ++ String LF quoted_tail).

Definition listing_editor_first : string :=
  "core.editor=vim" ++ String LF ("user.name=Ada" ++ String LF quoted_tail).

(** ** [config] with arguments *)

Definition config_add_call (top_repo_path : string) (kv : string * string)
  : call :=
  Popen ["git"; "config"; "--add"; kv.1; kv.2] top_repo_path.

(** The launches of [git config --add], one per option, in order. *)
Definition config_add_launches (top_repo_path : string)
    (kvs : list (string * string)) : trace :=
  (fun kv => Launch (config_add_call top_repo_path kv)) <$> kvs.

(** The config file refuses every change to [key]. *)
Definition refusing (key : string) : World :=
  {| run := fun _ c =>
       match c with
       | Popen [_; _; _; k; _] _ =>
           if String.eqb k key
           then {| returncode := 255; stdout := "";
                   stderr := "error: could not lock config file" |}
           else {| returncode := 0; stdout := ""; stderr := "" |}
       | _ => {| returncode := 0; stdout := ""; stderr := "" |}
       end;
     spawn := fun _ _ =>
       {| script := []; exit_status := 0; exitstatus_at_eof := None |};
     unquote := fun s => s |}.

Definition identity_kwargs : list (string * string) :=
  [("user.name", "Ada"); ("core.editor", "vim");
   ("user.email", "ada@example.org")].

(** ** [show] *)

Definition show_call (filename ref top_repo_path : string) : call :=
  Popen ["git"; "show"; ref ++ ":" ++ filename] top_repo_path.





(** ** [branch] *)

Definition heads_call (g : Git) (current_path : string) : call :=
  Popen (for_each_ref_cmd
           ["refname:short"; "objectname"; "upstream:short"; "HEAD"]
           "refs/heads/")
    (path_join (root_dir g) current_path).

Definition remotes_call (g : Git) (current_path : string) : call :=
  Popen (for_each_ref_cmd ["refname:short"; "objectname"] "refs/remotes/")
    (path_join (root_dir g) current_path).

Definition flag (d : dict) (k : string) : option bool :=
  match d !! k with
  | Some (VBool b) => Some b
  | _ => None
  end.

(** A branch entry that is not remote. *)
Definition is_local (v : pyval) : bool :=
  match v with
  | VDict d => bool_decide (flag d "is_remote_branch" = Some false)
  | _ => false
  end.

(** A local entry with [is_current_branch] true. *)
Definition is_local_current (v : pyval) : bool :=
  match v with
  | VDict d => bool_decide (flag d "is_current_branch" = Some true)
               && is_local v
  | _ => false
  end.

Definition count_current (l : list pyval) : nat :=
  length (List.filter is_local_current l).

(** An entry with [is_current_branch] true, local or not. *)
Definition is_current (v : pyval) : bool :=
  match v with
  | VDict d => bool_decide (flag d "is_current_branch" = Some true)
  | _ => false
  end.

(** A line of the local listing whose HEAD field is not blank. *)
Definition head_marked (line : string) : bool :=
  match split TAB None line with
  | [_; _; _; h] => negb (String.eqb (strip h) "")
  | _ => false
  end.

Definition heads_ok (results : list pyval) (current : pyval) : dict :=
  <["code" := VInt 0]>
    (<["branches" := VList results]> {["current_branch" := current]}).

Definition remotes_ok (results : list pyval) : dict :=
  <["code" := VInt 0]> {["branches" := VList results]}.

Definition argv_of (c : call) : list string :=
  match c with
  | Popen argv _ | PopenEnv argv _ _ | CheckOutput argv _ => argv
  | Spawn _ _ _ => []
  end.

(** The executable answers by the last word of the command line. *)
Definition answering (answer : string -> Completed) : World :=
  {| run := fun _ c => answer (default "" (last (argv_of c)));
     spawn := fun _ _ =>
       {| script := []; exit_status := 0; exitstatus_at_eof := None |};
     unquote := fun s => s |}.

Definition prints (output : string) : Completed :=
  {| returncode := 0; stdout := output; stderr := "" |}.

(** A repository just initialised: no ref yet, HEAD names [master]. *)
Definition empty_repository : World :=
  answering (fun word =>
    if String.eqb word "HEAD" then prints ("refs/heads/master" ++ String LF "")
    else prints "").

Definition head_line (name sha upstream mark : string) : string :=
  name ++ TAB ++ sha ++ TAB ++ upstream ++ TAB ++ mark.

(** A local listing that marks two refs as HEAD. *)
Definition two_marked_heads : World :=
  answering (fun word =>
    if String.eqb word "refs/heads/"
    then prints (head_line "main" "9f2c1e7" "origin/main" "*"
                 ++ String LF (head_line "dev" "41b07aa" "" "*"))
    else prints "").

Definition master_entry : pyval :=
  branch_record true false (VStr "master") VNone VNone.

Definition symbolic_ref_call (g : Git) (current_path : string) : call :=
  Popen ["git"; "symbolic-ref"; "HEAD"] (path_join (root_dir g) current_path).

Definition main_entry : pyval :=
  branch_record true false (VStr "main") (VStr "origin/main")
    (VStr "9f2c1e7").

Definition dev_entry : pyval :=
  branch_record true false (VStr "dev") VNone (VStr "41b07aa").

(** ** Vocabulary of the further statements *)

Definition nonspace (c : ascii) : bool := negb (isspace c).

(** A word: a non-empty text without whitespace. *)
Definition is_word (s : string) : bool :=
  match s with
  | EmptyString => false
  | _ => all_chars nonspace s
  end.

(** The text up to the first whitespace, and the text from there on. *)
Fixpoint take_word (s : string) : string :=
  match s with
  | EmptyString => EmptyString
  | String c s' => if isspace c then EmptyString else String c (take_word s')
  end.

Fixpoint drop_word (s : string) : string :=
  match s with
  | EmptyString => EmptyString
  | String c s' => if isspace c then s else drop_word s'
  end.

(** A file as [--numstat] prints it. *)
Record FileStat := {
  f_insertions : string;
  f_deletions : string;
  f_path : string;
}.

Definition stat_line (f : FileStat) : string :=
  numstat_line (f_insertions f) (f_deletions f) (f_path f).

(** The counts are words and the path starts with a visible character. *)
Definition stat_wellformed (f : FileStat) : Prop :=
  is_word (f_insertions f) = true
  /\ is_word (f_deletions f) = true
  /\ is_word (take_word (f_path f)) = true.

Definition diff_call (top_repo_path : string) : call :=
  Popen ["git"; "diff"; "--numstat"] top_repo_path.

(** The last component of a path, as [detailed_log] takes it. *)
Definition basename (path : string) : string :=
  default "" (last (split "/" None path)).

Definition modified_file_of (f : FileStat) : pyval :=
  modified_file (f_path f) (basename (f_path f)) (f_insertions f)
    (f_deletions f).




Definition toplevel_call (g : Git) (current_path : string) : call :=
  Popen ["git"; "rev-parse"; "--show-toplevel"]
    (path_join (root_dir g) current_path).

Definition upstream_call (g : Git) (current_path branch_name : string)
  : call :=
  Popen (upstream_cmd branch_name) (path_join (root_dir g) current_path).

(** The diagnostic says, in any letter case, that the branch tracks
    nothing or is not known. *)
Definition no_upstream (error : string) : Prop :=
  exists msg pre post,
    In msg ["fatal: no upstream configured for branch";
            "unknown revision or path not in the working tree"]
    /\ lower error = pre ++ msg ++ post.

Definition upstream_failure (branch_name error : string) : exn :=
  PyException
    ("Error [" ++ error
     ++ "] occurred while executing [git rev-parse --abbrev-ref "
     ++ (branch_name ++ "@{upstream}")
     ++ "] command to get upstream branch.").

Definition describe_call (g : Git) (current_path commit_sha : string)
  : call :=
  Popen (describe_cmd commit_sha) (path_join (root_dir g) current_path).

Definition describe_failure (commit_sha error : string) : exn :=
  PyException
    ("Error [" ++ error ++ "] occurred while executing [git describe --tags "
     ++ commit_sha
     ++ "] command to get nearest tag associated with branch.").

(** A capital letter A-Z. *)
Definition is_capital (c : ascii) : bool :=
  ((65 <=? ord c) && (ord c <=? 90))%nat.

Definition no_capital (s : string) : bool :=
  all_chars (fun c => negb (is_capital c)) s.

Definition branch_all_call (g : Git) (current_path : string) : call :=
  Popen ["git"; "branch"; "-a"] (path_join (root_dir g) current_path).

(** A line of [git branch -a] that marks the current branch. *)
Definition starred (line : string) : bool := startswith "*" (strip line).

Definition symbolic_ref_failure (error : string) : exn :=
  PyException
    ("Error [" ++ error
     ++ "] occurred while executing [git symbolic-ref HEAD] command to get current branch.").

Definition spawn_of (self : GitAuthInputWrapper) : call :=
  Spawn (command self) (cwd self) (env_terminal_prompt self).

(** The child that asks for the password only (the user name is in the
    URL), prints [tail] and exits with [status]. *)
Definition password_only_child (host tail : string) (status : Z)
    (at_eof : option Z) : Child :=
  {| script := [Emit (password_text host); ReadLine; Emit tail];
     exit_status := status;
     exitstatus_at_eof := at_eof |}.

(** The child that prints [text] and ends without asking anything. *)
Definition silent_child (text : string) (status : Z) (at_eof : option Z)
  : Child :=
  {| script := [Emit text]; exit_status := status;
     exitstatus_at_eof := at_eof |}.

Definition pull_spawn (g : Git) (curr_fb_path : string) : call :=
  Spawn "git pull --no-commit" (path_join (root_dir g) curr_fb_path) "1".

Definition push_spawn (g : Git) (remote branch curr_fb_path : string)
  : call :=
  Spawn ("git push " ++ remote ++ " " ++ branch)
    (path_join (root_dir g) curr_fb_path) "1".

Definition heads_command : string :=
  "git for-each-ref "
  ++ "--format=%(refname:short)%09%(objectname)%09%(upstream:short)%09%(HEAD)"
  ++ " refs/heads/".

(** The number of fields of a line of a listing. *)
Definition fields (line : string) : nat := length (split TAB None line).

(** The child that prints [text] and then waits for a line. *)
Definition waiting_child (text : string) : Child :=
  {| script := [Emit text; ReadLine]; exit_status := 0;
     exitstatus_at_eof := None |}.

Definition new_branch_call (g : Git) (branchname current_path : string)
  : call :=
  Popen ["git"; "checkout"; "-b"; branchname]
    (path_join (root_dir g) current_path).

(** ** Sample worlds of the further statements *)

Definition fails (code : Z) (error : string) : Completed :=
  {| returncode := code; stdout := ""; stderr := error |}.

(** The executable gives its answers in the order of the launches. *)
Definition scripted (answers : list Completed) : World :=
  {| run := fun tr _ => default (prints "") (answers !! length tr);
     spawn := fun _ _ =>
       {| script := []; exit_status := 0; exitstatus_at_eof := None |};
     unquote := fun s => s |}.

(** Every spawned command behaves as [c]. *)
Definition spawning (c : Child) : World :=
  {| run := fun _ _ => prints "";
     spawn := fun _ _ => c;
     unquote := fun s => s |}.

Definition sample_files : list FileStat :=
  [{| f_insertions := "3"; f_deletions := "1"; f_path := "src/a.py" |};
   {| f_insertions := "0"; f_deletions := "2"; f_path := "my file.txt" |}].

Definition sample_numstat : string :=
  join (String LF "") (stat_line <$> sample_files).

Definition sample_stats : list string :=
  [" src/a.py    | 4 +++-"; " my file.txt | 2 --"].

Definition sample_footer : string :=
  " 2 files changed, 3 insertions(+), 3 deletions(-)".

Definition sample_detailed_output : string :=
  join (String LF "")
    ("4c1d2aa Tidy up"
       :: (stat_line <$> sample_files) ++ sample_stats ++ [sample_footer])%list.

Definition sample_wrapper : GitAuthInputWrapper :=
  {| command := "git pull --no-commit"; cwd := "/srv/repo";
     env_terminal_prompt := "1"; username := "ada"; password := "s3cret" |}.

Definition sample_credentials : Credentials :=
  {| auth_username := "ada"; auth_password := "s3cret" |}.

Definition host_key_question : string :=
  "Are you sure you want to continue connecting (yes/no)? ".

Definition layered_listing : string :=
  join (String LF "")
    ["user.name=Ada"; "core.editor=vim"; "user.name=Grace";
     "core.pager=less"].

Definition detached_listing : string :=
  join (String LF "") ["* (HEAD detached at 41b07aa)"; "  main"; ""].

Definition not_symbolic_error : string :=
  "fatal: ref HEAD is not a symbolic ref" ++ String LF "".

Definition no_tags_error : string :=
  "fatal: No tags can describe 'abc123'." ++ String LF "".


(** A contents manager that knows no file. *)
Definition empty_contents : Contents :=
  {| relpath := fun path _ => path;
     contents_get := fun path => Raise (KeyError path) |}.

(** * Proofs *)

Ltac unfold_m :=
  cbv beta iota delta
    [bind lift try_except check_output popen ret raise ask obind].

Ltac unfold_m_in H :=
  cbv beta iota delta
    [bind lift try_except check_output popen ret raise ask obind] in H.

(** ** Facts about the text primitives *)

Lemma append_cons (c : ascii) (a b : string) :
  String c a ++ b = String c (a ++ b).
Proof. reflexivity. Qed.

Lemma prefix_cons (c d : ascii) (p s : string) :
  String.prefix (String c p) (String d s) =
  (if ascii_dec c d then String.prefix p s else false).
Proof. reflexivity. Qed.

Lemma prefix_spec (p s : string) :
  String.prefix p s = true <-> exists post, s = p ++ post.
Proof.
  revert s. induction p as [|c p IH]; intros s.
  - split; [intros _; exists s; reflexivity
           | intros _; destruct s; reflexivity].
  - destruct s as [|d s].
    + split; [discriminate | intros [post H]; discriminate].
    + rewrite prefix_cons. destruct (ascii_dec c d) as [->|Hne].
      * rewrite IH. split; intros [post H]; exists post;
          rewrite append_cons in *; congruence.
      * split; [discriminate|].
        intros [post H]. rewrite append_cons in H. congruence.
Qed.

Lemma contains_nil (sub : string) :
  contains sub "" = String.prefix sub "" || false.
Proof. reflexivity. Qed.

Lemma contains_cons (sub : string) (c : ascii) (s : string) :
  contains sub (String c s) =
  String.prefix sub (String c s) || contains sub s.
Proof. reflexivity. Qed.

(** [sub in s] holds exactly when [s] is some text, [sub], some text. *)
Lemma contains_spec (sub s : string) :
  contains sub s = true <-> exists pre post, s = pre ++ sub ++ post.
Proof.
  induction s as [|c s IH]; [rewrite contains_nil | rewrite contains_cons].
  - rewrite orb_false_r, prefix_spec. split.
    + intros [post H]. exists "", post. exact H.
    + intros (pre & post & H).
      destruct pre; [exists post; exact H | discriminate].
  - rewrite orb_true_iff, prefix_spec, IH. split.
    + intros [[post H] | (pre & post & H)].
      * exists "", post. exact H.
      * exists (String c pre), post. rewrite append_cons. congruence.
    + intros (pre & post & H). destruct pre as [|d pre].
      * left. exists post. exact H.
      * right. exists pre, post. rewrite append_cons in H. congruence.
Qed.

Lemma split_go_nonempty sep m skip s : split_go sep m skip s <> [].
Proof.
  revert m skip. induction s as [|c s IH]; intros m skip; [discriminate|].
  cbn [split_go]. destruct skip; [|apply IH].
  destruct (_ && _); [discriminate|].
  specialize (IH m 0%nat). destruct (split_go sep m 0 s); [congruence|].
  discriminate.
Qed.

Lemma split_go_skip (sep : string) (m : option nat) (pre s : string) :
  split_go sep m (String.length pre) (pre ++ s) = split_go sep m 0 s.
Proof.
  induction pre as [|c pre IH]; [reflexivity|].
  rewrite append_cons. cbn [String.length split_go]. exact IH.
Qed.

Lemma split_go_no_budget (sep s : string) :
  split_go sep (Some 0%nat) 0 s = [s].
Proof.
  induction s as [|c s IH]; [reflexivity|].
  cbn [split_go budget_left andb]. rewrite IH. reflexivity.
Qed.

(** Without a separator in it, a text is its only piece. *)
Lemma split_no_separator (sep : string) (m : option nat) (s : string) :
  contains sep s = false -> split sep m s = [s].
Proof.
  unfold split. induction s as [|c s IH]; intros Hc; [reflexivity|].
  rewrite contains_cons in Hc. apply orb_false_iff in Hc as [Hp Hc].
  cbn [split_go]. rewrite Hp, andb_false_r, (IH Hc). reflexivity.
Qed.

Lemma find_first_cons (lit : string) (c : ascii) (s : string) :
  find_first lit (String c s) =
  if String.prefix lit (String c s) then Some 0%nat
  else S <$> find_first lit s.
Proof. reflexivity. Qed.

(** Splitting at the first separator: the text before it is the first
    piece, and the rest is split on. *)
Lemma split_first_separator (sep old new : string) :
  sep <> "" ->
  find_first sep (old ++ sep ++ new) = Some (String.length old) ->
  split sep None (old ++ sep ++ new) = old :: split sep None new.
Proof.
  intros Hsep. unfold split. induction old as [|c old IH]; intros Hfind.
  - destruct sep as [|d sep]; [congruence|].
    change ("" ++ String d sep ++ new) with (String d (sep ++ new)).
    cbn [split_go budget_left andb].
    replace (String.prefix (String d sep) (String d (sep ++ new))) with true
      by (symmetry; apply prefix_spec; exists new; reflexivity).
    cbn [budget_pred String.length Nat.pred]. rewrite split_go_skip.
    reflexivity.
  - rewrite append_cons in *. rewrite find_first_cons in Hfind.
    cbn [split_go budget_left andb].
    destruct (String.prefix sep _); [discriminate|].
    destruct (find_first sep (old ++ sep ++ new)) as [n|] eqn:Hn;
      [|discriminate].
    injection Hfind as ->. rewrite (IH eq_refl). reflexivity.
Qed.

(** [split("=", maxsplit=1)] on a line with an equals sign: two pieces,
    the text before the first sign and the text after it. *)
Lemma split_once (l : string) :
  contains "=" l = true ->
  exists key v, split "=" (Some 1%nat) l = [key; v] /\ l = key ++ "=" ++ v.
Proof.
  unfold split. induction l as [|c l IH]; intros Hc; [discriminate|].
  rewrite contains_cons in Hc. cbn [split_go budget_left andb].
  destruct (String.prefix "=" (String c l)) eqn:Hp.
  - exists "", l. split.
    + cbn [budget_pred String.length Nat.pred].
      rewrite split_go_no_budget. reflexivity.
    + apply prefix_spec in Hp as [post Hp].
      change ("=" ++ post) with (String "=" post) in Hp.
      injection Hp as -> ->. reflexivity.
  - destruct (IH Hc) as (key & v & Hs & Hl).
    exists (String c key), v. rewrite Hs. split; [reflexivity|].
    rewrite append_cons. congruence.
Qed.

Lemma splitlines_line_break (l rest : string) :
  one_line l = true ->
  splitlines (l ++ String LF rest) = l :: splitlines rest.
Proof.
  induction l as [|c l IH]; intros Hl.
  - reflexivity.
  - simpl in Hl. apply andb_true_iff in Hl as [Hc Hl].
    rewrite append_cons. cbn [splitlines].
    destruct (is_linebreak c); [discriminate|].
    rewrite (IH Hl). reflexivity.
Qed.

Lemma splitlines_one_line (l : string) :
  one_line l = true -> l <> "" -> splitlines l = [l].
Proof.
  induction l as [|c l IH]; intros Hl Hne; [congruence|].
  simpl in Hl. apply andb_true_iff in Hl as [Hc Hl].
  cbn [splitlines]. destruct (is_linebreak c); [discriminate|].
  destruct l as [|d l]; [reflexivity|].
  rewrite IH by (auto; discriminate). reflexivity.
Qed.

(** Lines joined by line feeds are read back by [splitlines], provided no
    line holds a boundary and the last one is not empty. *)
Lemma splitlines_join (ls : list string) :
  Forall (fun l => one_line l = true) ls ->
  last ls <> Some "" ->
  splitlines (join (String LF "") ls) = ls.
Proof.
  induction ls as [|l ls IH]; intros Hall Hlast; [reflexivity|].
  inversion Hall as [|? ? Hl Hls]; subst.
  destruct ls as [|l' ls].
  - simpl. apply splitlines_one_line; [exact Hl|].
    intros ->. apply Hlast. reflexivity.
  - change (join (String LF "") (l :: l' :: ls))
      with (l ++ String LF (join (String LF "") (l' :: ls))).
    rewrite splitlines_line_break by exact Hl.
    rewrite IH; [reflexivity | exact Hls | exact Hlast].
Qed.

(** ** Facts about list indexing *)

Lemma lookup_app_plus {A} (l1 l2 : list A) (k : nat) :
  (l1 ++ l2)%list !! (length l1 + k)%nat = l2 !! k.
Proof. rewrite lookup_app_r by lia. f_equal. lia. Qed.

Lemma at_index_app_plus {A} (l1 l2 : list A) (k : nat) (x : A) :
  l2 !! k = Some x -> at_index (l1 ++ l2)%list (length l1 + k) = Return x.
Proof.
  intros H. unfold at_index. rewrite lookup_app_plus, H. reflexivity.
Qed.

Lemma at_index_middle {A} (l1 l2 : list A) (x : A) :
  at_index (l1 ++ x :: l2)%list (length l1) = Return x.
Proof. unfold at_index. rewrite list_lookup_middle; reflexivity. Qed.

Lemma at_index_last {A} (l : list A) (d : A) :
  l <> [] -> at_index l (length l - 1) = Return (default d (last l)).
Proof.
  intros Hne. unfold at_index. rewrite Nat.sub_1_r, <- last_lookup.
  destruct (last l) eqn:Hlast; [reflexivity|].
  apply last_None in Hlast. congruence.
Qed.

(** ** [changed_files] *)

Lemma changed_files_neither g base remote sc w tr :
  truthy sc = None -> truthy base = None \/ truthy remote = None ->
  changed_files g base remote sc w tr = (Raise changed_files_error, tr).
Proof.
  intros Hsc Hbr. unfold changed_files, changed_files_cmd. rewrite Hsc.
  unfold_m. destruct Hbr as [-> | ->]; [reflexivity|].
  destruct (truthy base); reflexivity.
Qed.

(** Once the command is built, it is run once and its result reported. *)
Lemma changed_files_runs g base remote sc cmd w tr :
  changed_files_cmd base remote sc = Return cmd ->
  changed_files g base remote sc w tr =
  (Return (changed_files_response (run w tr (CheckOutput cmd (root_dir g)))),
   app tr [changed_files_call g cmd]).
Proof.
  intros Hcmd. unfold changed_files, changed_files_response.
  rewrite Hcmd. unfold_m.
  destruct (returncode _ =? 0); reflexivity.
Qed.

(** C1, as amended: without [single_commit], and with [base] or [remote]
    missing (None or empty), [changed_files] raises HTTPError 400 and
    launches nothing; with [single_commit] given, whatever [base] and
    [remote] are, it runs [git diff <single_commit>^! --name-only] once and
    reports its result. *)
Theorem changed_files_contract g base remote sc w tr :
  (truthy sc = None -> truthy base = None \/ truthy remote = None ->
   changed_files g base remote sc w tr = (Raise changed_files_error, tr))
  /\ (forall c, truthy sc = Some c ->
      changed_files g base remote sc w tr =
        (Return (changed_files_response
                   (run w tr (CheckOutput
                                ["git"; "diff"; c ++ "^!"; "--name-only"]
                                (root_dir g)))),
         app tr [changed_files_call g
                   ["git"; "diff"; c ++ "^!"; "--name-only"]])).
Proof.
  split; [apply changed_files_neither|].
  intros c Hc. apply changed_files_runs.
  unfold changed_files_cmd. rewrite Hc. reflexivity.
Qed.

Lemma changed_files_contract_witness :
  changed_files sample_git (Some "main") None None (printing "") [] =
    (Raise changed_files_error, [])
  /\ changed_files sample_git (Some "main") (Some "dev") (Some "9f2c1e7")
       (printing "") [] =
     (Return (<["code" := VInt 0]> {["files" := VList [VStr ""]]}),
      [changed_files_call sample_git
         ["git"; "diff"; "9f2c1e7^!"; "--name-only"]]).
Proof.
  split.
  - apply (proj1 (changed_files_contract sample_git (Some "main") None None
                    (printing "") [])); [reflexivity | right; reflexivity].
  - apply (proj2 (changed_files_contract sample_git (Some "main")
                    (Some "dev") (Some "9f2c1e7") (printing "") [])
             "9f2c1e7").
    reflexivity.
Defined.

(** C1, as stated, fails: with [single_commit] and the pair [base],
    [remote] all supplied, nothing is raised and a subprocess is run. *)
Lemma changed_files_both_supplied_runs :
  changed_files sample_git (Some "main") (Some "origin/main")
    (Some "9f2c1e7") (printing ("README.md" ++ String LF "")) [] =
  (Return (<["code" := VInt 0]> {["files" := VList [VStr "README.md"]]}),
   [Launch (CheckOutput ["git"; "diff"; "9f2c1e7^!"; "--name-only"] "/srv")])
  /\ (forall e,
        changed_files sample_git (Some "main") (Some "origin/main")
          (Some "9f2c1e7") (printing ("README.md" ++ String LF "")) [] <>
        (Raise e, [])).
Proof.
  split; [vm_compute; reflexivity|].
  intros e H. vm_compute in H. discriminate H.
Qed.

(** C10: when the subprocess succeeds and prints nothing but blanks, the
    response has code 0 and [files] is the one-element list holding the
    empty text. *)
Theorem changed_files_no_paths g base remote sc cmd w tr :
  changed_files_cmd base remote sc = Return cmd ->
  returncode (run w tr (CheckOutput cmd (root_dir g))) = 0 ->
  strip (stdout (run w tr (CheckOutput cmd (root_dir g)))) = "" ->
  changed_files g base remote sc w tr =
    (Return (<["code" := VInt 0]> {["files" := VList [VStr ""]]}),
     app tr [changed_files_call g cmd])
  /\ VList [VStr ""] <> VList [].
Proof.
  intros Hcmd Hrc Hout. split; [|discriminate].
  rewrite (changed_files_runs g base remote sc cmd w tr Hcmd).
  unfold changed_files_response. rewrite Hrc, Hout. reflexivity.
Qed.

Lemma changed_files_no_paths_witness :
  changed_files sample_git (Some "WORKING") (Some "HEAD") None
    (printing "") [] =
    (Return (<["code" := VInt 0]> {["files" := VList [VStr ""]]}),
     [changed_files_call sample_git ["git"; "diff"; "HEAD"; "--name-only"]])
  /\ VList [VStr ""] <> VList [].
Proof.
  apply (changed_files_no_paths sample_git (Some "WORKING") (Some "HEAD")
           None ["git"; "diff"; "HEAD"; "--name-only"] (printing "") []);
    reflexivity.
Defined.

(** ** The credential channel and [clone] *)

Lemma find_first_unfold (lit s : string) :
  find_first lit s =
  if String.prefix lit s then Some 0%nat
  else match s with
       | EmptyString => None
       | String _ s' => S <$> find_first lit s'
       end.
Proof. destruct s; reflexivity. Qed.

Lemma find_first_prefix (lit s : string) :
  find_first lit (lit ++ s) = Some 0%nat.
Proof.
  rewrite find_first_unfold.
  replace (String.prefix lit (lit ++ s)) with true; [reflexivity|].
  symmetry. apply prefix_spec. eauto.
Qed.

Lemma drop_append (a b : string) (k : nat) :
  drop (String.length a + k) (a ++ b) = drop k b.
Proof.
  induction a as [|c a IH]; [reflexivity|].
  rewrite append_cons. cbn [String.length Nat.add drop]. exact IH.
Qed.

Lemma substring_none (s : string) : String.substring 0 0 s = "".
Proof. destruct s; reflexivity. Qed.

Lemma find_last_colon_blank (host : string) :
  find_last ": " (host ++ ": ") = Some (String.length host).
Proof.
  induction host as [|c host IH]; [reflexivity|].
  rewrite append_cons. cbn [find_last String.length]. rewrite IH.
  reflexivity.
Qed.

Lemma find_last_colon (host : string) :
  find_last ":" (host ++ ": ") = Some (String.length host).
Proof.
  induction host as [|c host IH]; [reflexivity|].
  rewrite append_cons. cbn [find_last String.length]. rewrite IH.
  reflexivity.
Qed.

(** The user name prompt is matched whole: [.*] runs to the last colon
    and blank. *)
Lemma re_search_username (host : string) :
  re_search "Username for " ": " (username_text host) =
  Some (0%nat, (13 + String.length host + 2)%nat).
Proof.
  unfold re_search, username_text. rewrite find_first_prefix.
  cbn [mbind option_bind Nat.add String.length].
  change (drop 13 ("Username for " ++ host ++ ": ")) with (host ++ ": ").
  rewrite find_last_colon_blank. reflexivity.
Qed.

(** The password prompt is matched up to its last colon: the blank after
    it stays in the buffer. *)
Lemma re_search_password (host : string) :
  re_search "Password for " ":" (password_text host) =
  Some (0%nat, (13 + String.length host + 1)%nat).
Proof.
  unfold re_search, password_text. rewrite find_first_prefix.
  cbn [mbind option_bind Nat.add String.length].
  change (drop 13 ("Password for " ++ host ++ ": ")) with (host ++ ": ").
  rewrite find_last_colon. reflexivity.
Qed.

(** A pattern found in what is buffered ends the wait at once. *)
Lemma expect_loop_found pats pending buffer unread i start stop :
  search_from 0 pats buffer None = Some (i, start, stop) ->
  expect_loop pats pending buffer unread =
  (Return i,
   {| pending := pending; buffer := drop stop buffer;
      before := String.substring 0 start buffer; unread := unread |}).
Proof.
  intros H. destruct pending as [|[text|] pending]; cbn [expect_loop];
    rewrite H; reflexivity.
Qed.

Lemma expect_username (host : string) (rest : list event) :
  expect_loop [username_prompt; password_prompt]
    (Emit (username_text host) :: rest) "" 0 =
  (Return 0%nat,
   {| pending := rest; buffer := ""; before := ""; unread := 0 |}).
Proof.
  cbn [expect_loop].
  replace (search_from 0 [username_prompt; password_prompt] "" None)
    with (@None (nat * nat * nat)) by reflexivity.
  change ("" ++ username_text host) with (username_text host).
  rewrite (expect_loop_found _ _ _ _ 0%nat 0%nat
             (13 + String.length host + 2)%nat).
  - rewrite substring_none. unfold username_text.
    change (drop (13 + String.length host + 2)
              ("Username for " ++ host ++ ": "))
      with (drop (String.length host + 2) (host ++ ": ")).
    rewrite drop_append. reflexivity.
  - cbn [search_from username_prompt password_prompt].
    rewrite re_search_username.
    destruct (re_search "Password for " ":" (username_text host))
      as [[start stop]|]; reflexivity.
Qed.

Lemma expect_password (host : string) (rest : list event) :
  expect_loop [password_prompt]
    (ReadLine :: Emit (password_text host) :: rest) "" 1 =
  (Return 0%nat,
   {| pending := rest; buffer := " "; before := ""; unread := 0 |}).
Proof.
  cbn [expect_loop].
  replace (search_from 0 [password_prompt] "" None)
    with (@None (nat * nat * nat)) by reflexivity.
  change ("" ++ password_text host) with (password_text host).
  rewrite (expect_loop_found _ _ _ _ 0%nat 0%nat
             (13 + String.length host + 1)%nat).
  - rewrite substring_none. unfold password_text.
    change (drop (13 + String.length host + 1)
              ("Password for " ++ host ++ ": "))
      with (drop (String.length host + 1) (host ++ ": ")).
    rewrite drop_append. reflexivity.
  - cbn [search_from password_prompt]. rewrite re_search_password.
    reflexivity.
Qed.

Lemma expect_end_of_stream (tail : string) :
  expect_loop [EOF] [ReadLine; Emit tail] " " 1 =
  (Return 0%nat,
   {| pending := []; buffer := ""; before := " " ++ tail; unread := 0 |}).
Proof. reflexivity. Qed.

(** The session with the prompting child: the user name is sent at the
    first prompt, the password at the second, and the rest is drained. *)
Lemma communicate_try_prompts self host tail at_eof tr :
  communicate_try self (fresh_pty (prompting_child host tail at_eof)) tr =
  (Return (" " ++ tail),
   {| pending := []; buffer := ""; before := " " ++ tail; unread := 0 |},
   app tr [Sendline (username self); Sendline (password self)]).
Proof.
  unfold communicate_try, pbind, expect, sendline, get_before, pret.
  cbn [fresh_pty prompting_child script pending buffer unread before].
  rewrite expect_username.
  cbn [Nat.eqb pending buffer unread before].
  rewrite expect_password.
  cbn [pending buffer unread before].
  rewrite expect_end_of_stream.
  rewrite <- app_assoc. reflexivity.
Qed.

Lemma communicate_prompts self host tail at_eof w tr :
  spawn w tr (Spawn (command self) (cwd self) (env_terminal_prompt self)) =
    prompting_child host tail at_eof ->
  communicate self w tr =
  (Return (" " ++ tail, Some 0),
   app tr [Launch (Spawn (command self) (cwd self)
                     (env_terminal_prompt self));
           Sendline (username self); Sendline (password self)]).
Proof.
  intros Hchild. unfold communicate. rewrite Hchild.
  fold (fresh_pty (prompting_child host tail at_eof)).
  rewrite communicate_try_prompts. cbn. rewrite <- app_assoc. reflexivity.
Qed.

(** C2: a clone with credentials [u], [p] whose child asks for the user
    name and then for the password (of any host, [x] in the claim) sends
    exactly two lines, [u] and then [p], and, the child exiting with status
    0, returns code 0. *)
Theorem clone_answers_prompts g current_path repo_url u p host tail at_eof
    w tr :
  spawn w tr (clone_spawn g w current_path repo_url) =
    prompting_child host tail at_eof ->
  clone g current_path repo_url
    (Some {| auth_username := u; auth_password := p |}) w tr =
  (Return {["code" := VInt 0]},
   app tr [Launch (clone_spawn g w current_path repo_url);
           Sendline u; Sendline p]).
Proof.
  intros Hchild. unfold clone. unfold_m.
  erewrite communicate_prompts by exact Hchild. reflexivity.
Qed.

Lemma clone_answers_prompts_witness :
  clone sample_git "work" "https://example.org/r.git"
    (Some {| auth_username := "u"; auth_password := "p" |})
    prompting_world [] =
  (Return {["code" := VInt 0]},
   [Launch (Spawn "git clone https://example.org/r.git -q" "/srv/work" "1");
    Sendline "u"; Sendline "p"]).
Proof.
  apply (clone_answers_prompts sample_git "work" "https://example.org/r.git"
           "u" "p" "x" "" (Some 0) prompting_world []).
  reflexivity.
Defined.

(** ** [log] *)

Lemma log_entry_at (pre : list string) (c : Commit) (rest : list Commit) :
  log_entry (pre ++ concat (commit_lines <$> c :: rest))%list (length pre) =
  Return (log_record (c_id c) (c_author c) (c_date c) (c_subject c)
            (next_id (c :: rest) 0)).
Proof.
  unfold log_entry, PREVIOUS_COMMIT_OFFSET.
  rewrite fmap_cons, concat_cons. cbn [commit_lines app].
  rewrite !at_index_middle.
  rewrite !at_index_app_plus with (k := 1%nat) (x := c_author c)
    by reflexivity.
  rewrite !at_index_app_plus with (k := 2%nat) (x := c_date c)
    by reflexivity.
  rewrite !at_index_app_plus with (k := 3%nat) (x := c_subject c)
    by reflexivity.
  destruct rest as [|c' rest].
  - replace (_ <? _)%nat with false; [reflexivity|].
    symmetry. apply Nat.ltb_ge. rewrite length_app. simpl. lia.
  - replace (_ <? _)%nat with true.
    + rewrite at_index_app_plus with (k := 4%nat) (x := c_id c')
        by reflexivity.
      reflexivity.
    + symmetry. apply Nat.ltb_lt. rewrite length_app. simpl. lia.
Qed.

(** The loop, entered at the first line of a commit with enough fuel for
    the commits that remain, appends their entries. *)
Lemma log_loop_commits (cs : list Commit) :
  forall (pre : list string) (acc : list pyval) (fuel : nat),
    (length cs <= fuel)%nat ->
    log_loop fuel (pre ++ concat (commit_lines <$> cs))%list (length pre)
      acc =
    Return (acc ++ log_entries cs)%list.
Proof.
  induction cs as [|c rest IH]; intros pre acc fuel Hfuel.
  - simpl. rewrite !app_nil_r.
    destruct fuel; simpl; rewrite Nat.ltb_irrefl; reflexivity.
  - destruct fuel as [|fuel]; [simpl in Hfuel; lia|].
    cbn [log_loop].
    replace (_ <? _)%nat with true
      by (symmetry; apply Nat.ltb_lt; rewrite length_app; simpl; lia).
    rewrite log_entry_at. cbn [obind].
    rewrite fmap_cons, concat_cons.
    change (commit_lines c ++ concat (commit_lines <$> rest))%list
      with ([c_id c; c_author c; c_date c; c_subject c]
              ++ concat (commit_lines <$> rest))%list.
    rewrite (app_assoc pre).
    replace (length pre + PREVIOUS_COMMIT_OFFSET)%nat
      with (length (pre ++ [c_id c; c_author c; c_date c; c_subject c])%list)
      by (rewrite length_app; reflexivity).
    rewrite IH by (simpl in Hfuel; lia).
    rewrite <- app_assoc. reflexivity.
Qed.

Lemma log_entries_length cs : length (log_entries cs) = length cs.
Proof. induction cs; simpl; congruence. Qed.

Lemma log_entries_lookup cs : forall i c,
  cs !! i = Some c ->
  log_entries cs !! i =
    Some (log_record (c_id c) (c_author c) (c_date c) (c_subject c)
            (next_id cs i)).
Proof.
  induction cs as [|c0 rest IH]; intros i c H; [discriminate|].
  destruct i as [|i].
  - injection H as ->. reflexivity.
  - simpl in H. simpl. rewrite (IH i c H). reflexivity.
Qed.

Lemma lines_bound cs :
  (length cs <= length (concat (commit_lines <$> cs)))%nat.
Proof.
  induction cs as [|c cs IH]; [reflexivity|].
  rewrite fmap_cons, concat_cons, length_app. simpl. lia.
Qed.

Lemma log_entry_ends (line_array : list string) (i : nat) :
  log_entry line_array i <> OutOfFuel.
Proof.
  unfold log_entry, at_index.
  repeat (case_match; cbn [obind]); discriminate.
Qed.

(** The bound [log] gives its loop is never met: the loop always ends by
    itself, in a result or in an exception. *)
Lemma log_loop_fuel (line_array : list string) :
  forall fuel i result,
    (length line_array <= fuel + i)%nat ->
    log_loop fuel line_array i result <> OutOfFuel.
Proof.
  induction fuel as [|fuel IH]; intros i result Hfuel; cbn [log_loop].
  - replace (_ <? _)%nat with false by (symmetry; apply Nat.ltb_ge; lia).
    discriminate.
  - destruct (_ <? _)%nat; [|discriminate].
    pose proof (log_entry_ends line_array i) as Hentry.
    destruct (log_entry line_array i); cbn [obind];
      [|discriminate|congruence].
    apply IH. unfold PREVIOUS_COMMIT_OFFSET. lia.
Qed.

(** Commits printed four lines each, no field holding a line boundary and
    the last subject not empty, are read back line by line. *)
Lemma splitlines_commits (cs : list Commit) :
  Forall (fun l => one_line l = true) (concat (commit_lines <$> cs)) ->
  last (concat (commit_lines <$> cs)) <> Some "" ->
  splitlines (join (String LF "") (concat (commit_lines <$> cs))) =
  concat (commit_lines <$> cs).
Proof. apply splitlines_join. Qed.

Lemma at_index_within {A} (l : list A) (i : nat) :
  (i < length l)%nat -> exists x, at_index l i = Return x.
Proof.
  intros H. destruct (lookup_lt_is_Some_2 l i H) as [x Hx].
  exists x. unfold at_index. rewrite Hx. reflexivity.
Qed.

Lemma at_index_beyond {A} (l : list A) (i : nat) :
  (length l <= i)%nat -> at_index l i = Raise IndexError.
Proof.
  intros H. unfold at_index. rewrite (lookup_ge_None_2 l i H). reflexivity.
Qed.

(** The loop takes four lines at a time: with one, two or three lines
    left over it reads past the end. *)
Lemma log_loop_incomplete (r : nat) (lines : list string) :
  (0 < r < 4)%nat ->
  forall n i fuel acc,
    length lines = (i + 4 * n + r)%nat ->
    (n < fuel)%nat ->
    log_loop fuel lines i acc = Raise IndexError.
Proof.
  intros Hr. induction n as [|n IH]; intros i fuel acc Hlen Hfuel;
    (destruct fuel as [|fuel]; [lia|]); cbn [log_loop];
    (replace (i <? length lines)%nat with true
       by (symmetry; apply Nat.ltb_lt; lia));
    unfold log_entry, PREVIOUS_COMMIT_OFFSET.
  - replace (i + 4 <? length lines)%nat with false
      by (symmetry; apply Nat.ltb_ge; lia).
    rewrite (at_index_beyond lines (i + 3)) by lia.
    destruct (at_index_within lines i) as [x0 ->]; [lia|].
    destruct (Nat.lt_ge_cases (i + 1) (length lines)) as [H1|H1];
      [|rewrite (at_index_beyond lines (i + 1) H1); reflexivity].
    destruct (at_index_within lines (i + 1) H1) as [x1 ->].
    destruct (Nat.lt_ge_cases (i + 2) (length lines)) as [H2|H2];
      [|rewrite (at_index_beyond lines (i + 2) H2); reflexivity].
    destruct (at_index_within lines (i + 2) H2) as [x2 ->].
    reflexivity.
  - replace (i + 4 <? length lines)%nat with true
      by (symmetry; apply Nat.ltb_lt; lia).
    destruct (at_index_within lines i) as [x0 ->]; [lia|].
    destruct (at_index_within lines (i + 1)) as [x1 ->]; [lia|].
    destruct (at_index_within lines (i + 2)) as [x2 ->]; [lia|].
    destruct (at_index_within lines (i + 3)) as [x3 ->]; [lia|].
    destruct (at_index_within lines (i + 4)) as [x4 ->]; [lia|].
    cbn [obind]. apply IH; lia.
Qed.

(** Lines that are each ended by a line feed are read back as they are:
    the empty text after the last line feed is no line. *)
Lemma splitlines_join_ended (ls : list string) :
  Forall (fun l => one_line l = true) ls ->
  splitlines (join (String LF "") (app ls [""])) = ls.
Proof.
  induction ls as [|l ls IH]; intros Hall; [reflexivity|].
  inversion Hall as [|? ? Hl Hls]; subst.
  replace (join (String LF "") (app (l :: ls) [""]))
    with (l ++ String LF (join (String LF "") (app ls [""])))
    by (destruct ls; reflexivity).
  rewrite (splitlines_line_break _ _ Hl), (IH Hls). reflexivity.
Qed.

Lemma commit_lines_snoc (cs : list Commit) (c : Commit) :
  concat (commit_lines <$> app cs [c]) =
  ((concat (commit_lines <$> cs) ++ [c_id c; c_author c; c_date c])
     ++ [c_subject c])%list.
Proof.
  rewrite fmap_app, concat_app. cbn [fmap list_fmap concat commit_lines app].
  rewrite <- app_assoc. reflexivity.
Qed.

Lemma commit_lines_length (cs : list Commit) :
  length (concat (commit_lines <$> cs)) = (4 * length cs)%nat.
Proof.
  induction cs as [|c cs IH]; [reflexivity|].
  rewrite fmap_cons, concat_cons, length_app, IH. cbn [commit_lines length].
  lia.
Qed.

Lemma last_snoc_inv {A} (l : list A) (x : A) :
  last l = Some x -> exists l', l = (l' ++ [x])%list.
Proof.
  intros H. destruct (decide (l = [])) as [->|Hne]; [discriminate|].
  destruct (exists_last Hne) as (l' & y & ->).
  rewrite last_snoc in H. injection H as ->. eauto.
Qed.

Lemma log_record_fields (commit author date commit_msg pre_commit : string) :
  exists d : dict,
    log_record commit author date commit_msg pre_commit = VDict d
    /\ d !! "commit" = Some (VStr commit)
    /\ d !! "author" = Some (VStr author)
    /\ d !! "date" = Some (VStr date)
    /\ d !! "commit_msg" = Some (VStr commit_msg)
    /\ d !! "pre_commit" = Some (VStr pre_commit).
Proof. eexists. split; [reflexivity|]. repeat split. Qed.

(** C3: [git log] prints K commits as four fields each (id, author,
    relative date, subject), joined by line feeds.  When the subject of the
    last commit is not empty, [log] returns K entries in the same order,
    the entry at [i] carrying the id of the commit at [i + 1] as
    [pre_commit] and the last one the empty text.  When the subject of the
    last commit is empty the output ends in a line feed, [splitlines] gives
    one line less, and [log] raises IndexError. *)
Theorem log_commits_and_parents g current_path history_count w tr cs :
  let p := run w tr (log_call g current_path history_count) in
  let tr' := app tr [Launch (log_call g current_path history_count)] in
  returncode p = 0 ->
  Forall (fun l => one_line l = true) (concat (commit_lines <$> cs)) ->
  stdout p = join (String LF "") (concat (commit_lines <$> cs)) ->
  ((forall c, last cs = Some c -> c_subject c <> "") ->
   exists entries,
     log g current_path history_count w tr =
       (Return (<["code" := VInt 0]> {["commits" := VList entries]}), tr')
     /\ length entries = length cs
     /\ forall i c, cs !! i = Some c ->
          exists d : dict,
            entries !! i = Some (VDict d)
            /\ d !! "commit" = Some (VStr (c_id c))
            /\ d !! "author" = Some (VStr (c_author c))
            /\ d !! "date" = Some (VStr (c_date c))
            /\ d !! "commit_msg" = Some (VStr (c_subject c))
            /\ d !! "pre_commit" =
                 Some (VStr (match cs !! S i with
                             | Some next => c_id next
                             | None => ""
                             end)))
  /\ (forall c, last cs = Some c -> c_subject c = "" ->
      log g current_path history_count w tr = (Raise IndexError, tr')).
Proof.
  intros p tr' Hrc Hone Hout. split.
  - intros Hlast.
    assert (splitlines (stdout p) = concat (commit_lines <$> cs)) as Hlines.
    { rewrite Hout. apply splitlines_join; [exact Hone|].
      intros Hempty. apply last_snoc_inv in Hempty as [ls Hls].
      destruct (decide (cs = [])) as [->|Hne]; [destruct ls; discriminate|].
      destruct (exists_last Hne) as (cs' & c & ->).
      rewrite commit_lines_snoc in Hls. apply app_inj_tail in Hls as [_ Hs].
      apply (Hlast c); [apply last_snoc | exact Hs]. }
    exists (log_entries cs). split; [|split].
    + unfold log. unfold_m. fold (log_call g current_path history_count).
      fold p. rewrite Hrc, Hlines. cbn [Z.eqb].
      pose proof (log_loop_commits cs [] [] _ (lines_bound cs)) as Hloop.
      cbn [app length] in Hloop. rewrite Hloop. reflexivity.
    + apply log_entries_length.
    + intros i c Hc. rewrite (log_entries_lookup cs i c Hc).
      destruct (log_record_fields (c_id c) (c_author c) (c_date c)
                  (c_subject c) (next_id cs i)) as (d & -> & Hfields).
      exists d. split; [reflexivity | exact Hfields].
  - intros c Hc Hempty. apply last_snoc_inv in Hc as [cs' ->].
    rewrite commit_lines_snoc, Hempty in Hout, Hone.
    apply Forall_app in Hone as [Hone _].
    assert (splitlines (stdout p) =
            (concat (commit_lines <$> cs')
               ++ [c_id c; c_author c; c_date c])%list) as Hlines
      by (rewrite Hout; apply splitlines_join_ended; exact Hone).
    unfold log. unfold_m. fold (log_call g current_path history_count).
    fold p. rewrite Hrc, Hlines. cbn [Z.eqb].
    rewrite (log_loop_incomplete 3) with (n := length cs');
      [reflexivity | lia | |].
    + rewrite length_app, commit_lines_length. cbn [length]. lia.
    + rewrite length_app, commit_lines_length. cbn [length]. lia.
Qed.

Lemma log_commits_and_parents_witness :
  (exists entries,
     log sample_git "repo" 10 (printing two_commits_output) [] =
       (Return (<["code" := VInt 0]> {["commits" := VList entries]}),
        [Launch (log_call sample_git "repo" 10)])
     /\ length entries = 2%nat
     /\ (exists d : dict,
           entries !! 0%nat = Some (VDict d)
           /\ d !! "commit" = Some (VStr "9f2c1e7")
           /\ d !! "pre_commit" = Some (VStr "41b07aa"))
     /\ (exists d : dict,
           entries !! 1%nat = Some (VDict d)
           /\ d !! "commit" = Some (VStr "41b07aa")
           /\ d !! "pre_commit" = Some (VStr "")))
  /\ log sample_git "repo" 10 (printing empty_subject_output) [] =
       (Raise IndexError, [Launch (log_call sample_git "repo" 10)]).
Proof.
  split.
  - destruct (proj1 (log_commits_and_parents sample_git "repo" 10
                       (printing two_commits_output) [] two_commits
                       eq_refl ltac:(repeat constructor) eq_refl))
      as (entries & Hlog & Hlen & Hentries).
    { intros c [= <-]. discriminate. }
    exists entries. split; [exact Hlog|]. split; [exact Hlen|]. split.
    + destruct (Hentries 0%nat _ eq_refl) as (d & Hd & Hc & _ & _ & _ & Hp).
      exists d. auto.
    + destruct (Hentries 1%nat _ eq_refl) as (d & Hd & Hc & _ & _ & _ & Hp).
      exists d. auto.
  - apply (proj2 (log_commits_and_parents sample_git "repo" 10
                    (printing empty_subject_output) [] empty_subject_commits
                    eq_refl ltac:(repeat constructor) eq_refl)
             {| c_id := "41b07aa"; c_author := "Grace";
                c_date := "3 days ago"; c_subject := "" |});
      reflexivity.
Defined.

(** ** [detailed_log] *)

(** With both counts in the footer the third slot is assigned and nothing
    is exchanged, whatever the other lines are. *)
Lemma detailed_log_parse_both_counts (line_array : list string) indent
    temp note result :
  (1 < length line_array)%nat ->
  indent = "" \/ indent = " " ->
  last line_array = Some (indent ++ both_counts_footer) ->
  detailed_log_parse line_array = Return (temp, note, result) ->
  temp = indent ++ both_counts_footer
  /\ note = [VStr "3"; VStr "5"; VStr "2"].
Proof.
  intros Hlen Hindent Hlast. unfold detailed_log_parse.
  apply Nat.ltb_lt in Hlen. rewrite Hlen.
  unfold at_index at 1. rewrite Nat.sub_1_r, <- last_lookup, Hlast.
  cbn [obind].
  replace (note_digits (split_ws None (indent ++ both_counts_footer))
             [VInt 0; VInt 0; VInt 0] 0)
    with (Return (A := list pyval * nat)
            ([VStr "3"; VStr "5"; VStr "2"], 3%nat))
    by (destruct Hindent as [-> | ->]; vm_compute; reflexivity).
  cbn [obind].
  destruct (detailed_log_loop _ _ _ _) as [[res len]|e|]; cbn [obind];
    [|discriminate|discriminate].
  cbn. intros [= <- <- <-]. auto.
Qed.

(** With deletions only, the exchange depends on the last value the loop
    gave to [length]: the number of components of the last path read. *)
Lemma detailed_log_parse_deletions_only (line_array : list string) indent
    result len :
  (1 < length line_array)%nat ->
  indent = "" \/ indent = " " ->
  last line_array = Some (indent ++ deletions_only_footer) ->
  detailed_log_loop line_array (seq 1 (length line_array / 2 - 1)) []
    (length line_array) = Return (result, len) ->
  detailed_log_parse line_array =
  Return (indent ++ deletions_only_footer,
          if (1 <? len)%nat then [VStr "3"; VInt 0; VStr "2"]
          else [VStr "3"; VStr "2"; VInt 0],
          result).
Proof.
  intros Hlen Hindent Hlast Hloop. unfold detailed_log_parse.
  apply Nat.ltb_lt in Hlen. rewrite Hlen.
  unfold at_index at 1. rewrite Nat.sub_1_r, <- last_lookup, Hlast.
  cbn [obind].
  replace (note_digits (split_ws None (indent ++ deletions_only_footer))
             [VInt 0; VInt 0; VInt 0] 0)
    with (Return (A := list pyval * nat)
            ([VStr "3"; VStr "2"; VInt 0], 2%nat))
    by (destruct Hindent as [-> | ->]; vm_compute; reflexivity).
  cbn [obind]. rewrite Hloop. cbn [obind].
  replace (contains "-" (indent ++ deletions_only_footer)) with true
    by (destruct Hindent as [-> | ->]; reflexivity).
  destruct len as [|[|len]]; reflexivity.
Qed.

Lemma detailed_response_counts code temp count insertions deletions result :
  detailed_response code temp count insertions deletions result !! "code"
    = Some (VInt code)
  /\ detailed_response code temp count insertions deletions result
       !! "modified_file_note" = Some (VStr temp)
  /\ detailed_response code temp count insertions deletions result
       !! "number_of_insertions" = Some insertions
  /\ detailed_response code temp count insertions deletions result
       !! "number_of_deletions" = Some deletions.
Proof. repeat split. Qed.

(** The deletions-only commit whose last file is in a directory: the
    counts are exchanged, insertions 0 and deletions 2. *)
Lemma detailed_log_deletions_only_nested_last :
  detailed_log sample_git "f29660a" "repo"
    (printing deletions_only_output_nested_last) [] =
  (Return (detailed_response 0 (" " ++ deletions_only_footer)
             (VStr "3") (VInt 0) (VStr "2")
             [modified_file "run.sh" "run.sh" "0" "0";
              modified_file "docs/a.txt" "a.txt" "0" "1";
              modified_file "docs/b.txt" "b.txt" "0" "1"]),
   [Launch (detailed_log_call sample_git "f29660a" "repo")]).
Proof. vm_compute. reflexivity. Qed.

(** C4, where the code departs from it: on a deletions-only commit whose
    last listed file is at the top of the tree, [detailed_log] succeeds and
    reports insertions 2 and deletions 0: the counts are not exchanged,
    though the third slot was never assigned and the footer holds a minus
    sign.  With or without the blank git puts before the footer. *)
Theorem detailed_log_deletions_only_not_swapped :
  forall indent, indent = "" \/ indent = " " ->
  detailed_log sample_git "f29660a" "repo"
    (printing (deletions_only_output indent)) [] =
  (Return (detailed_response 0 (indent ++ deletions_only_footer)
             (VStr "3") (VStr "2") (VInt 0)
             [modified_file "docs/a.txt" "a.txt" "0" "1";
              modified_file "docs/b.txt" "b.txt" "0" "1";
              modified_file "run.sh" "run.sh" "0" "0"]),
   [Launch (detailed_log_call sample_git "f29660a" "repo")])
  /\ contains "-" (indent ++ deletions_only_footer) = true.
Proof.
  intros indent [-> | ->]; split; vm_compute; reflexivity.
Qed.

Lemma detailed_log_deletions_only_not_swapped_witness :
  detailed_log sample_git "f29660a" "repo"
    (printing (deletions_only_output " ")) [] =
  (Return (detailed_response 0 (" " ++ deletions_only_footer)
             (VStr "3") (VStr "2") (VInt 0)
             [modified_file "docs/a.txt" "a.txt" "0" "1";
              modified_file "docs/b.txt" "b.txt" "0" "1";
              modified_file "run.sh" "run.sh" "0" "0"]),
   [Launch (detailed_log_call sample_git "f29660a" "repo")]).
Proof.
  exact (proj1 (detailed_log_deletions_only_not_swapped " "
                  (or_intror eq_refl))).
Defined.

(** ** [status] *)

Lemma status_to_renamed (y : ascii) (old new : string) :
  find_first " -> " (old ++ " -> " ++ new) = Some (String.length old) ->
  contains " -> " new = false ->
  status_to (String "R" (String y (String " " (old ++ " -> " ++ new)))) =
  strip_quotes new.
Proof.
  intros Hfind Hnew. unfold status_to. cbn [startswith drop].
  replace (String.prefix "R" _) with true by reflexivity.
  rewrite split_first_separator by (discriminate || exact Hfind).
  rewrite (split_no_separator _ _ _ Hnew). reflexivity.
Qed.

Lemma status_to_other (x y : ascii) (rest : string) :
  x <> "R"%char ->
  status_to (String x (String y rest)) = strip_quotes (drop 1 rest).
Proof.
  intros Hx. unfold status_to, startswith.
  replace (String.prefix "R" (String x (String y rest))) with false;
    [reflexivity|].
  symmetry. rewrite prefix_cons. destruct (ascii_dec _ x); congruence.
Qed.

(** A line of two characters or more gives one entry. *)
Lemma status_entry_wellformed (line : string) :
  (2 <= String.length line)%nat ->
  status_entry line = Return (status_entry_of line).
Proof.
  destruct line as [|x [|y rest]]; cbn [String.length]; try lia. intros _.
  unfold status_entry, status_entry_of, status_to, char_at, index, startswith.
  cbn [String.get obind default from_option id].
  rewrite prefix_cons.
  destruct (Ascii.eqb_spec x "R") as [->|Hx].
  - destruct (ascii_dec "R" "R"); [|congruence].
    replace (String.prefix "" (String y rest)) with true by reflexivity.
    pose proof (split_go_nonempty " -> " None 0
                  (drop 3 (String "R" (String y rest)))) as Hne.
    unfold split. rewrite (at_index_last _ "" Hne). reflexivity.
  - destruct (ascii_dec "R" x); [congruence|]. reflexivity.
Qed.

Lemma status_loop_wellformed (line_array : list string) :
  forall result,
    Forall (fun l => (2 <= String.length l)%nat) line_array ->
    status_loop line_array result =
    Return (result ++ (status_entry_of <$> line_array))%list.
Proof.
  induction line_array as [|line rest IH]; intros result Hwf.
  - cbn. rewrite app_nil_r. reflexivity.
  - inversion Hwf as [|? ? Hline Hrest]; subst.
    cbn [status_loop]. rewrite (status_entry_wellformed line Hline).
    cbn [obind]. rewrite (IH _ Hrest), <- app_assoc. reflexivity.
Qed.

Lemma status_record_fields (x y : ascii) (to1 from_path : string) :
  exists d : dict,
    status_record x y to1 from_path = VDict d
    /\ d !! "x" = Some (VStr (String x ""))
    /\ d !! "y" = Some (VStr (String y ""))
    /\ d !! "to" = Some (VStr to1)
    /\ d !! "from" = Some (VStr from_path).
Proof. eexists. split; [reflexivity|]. repeat split. Qed.

Lemma endswith_char_snoc (c : ascii) (s : string) :
  endswith_char c (s ++ String c "") = true.
Proof.
  induction s as [|d s IH].
  - change (Ascii.eqb c c = true). apply Ascii.eqb_refl.
  - rewrite append_cons. cbn [endswith_char].
    destruct (s ++ String c "") eqn:Hs; [destruct s; discriminate|].
    exact IH.
Qed.

Lemma drop_last_snoc (c : ascii) (s : string) :
  drop_last (s ++ String c "") = s.
Proof.
  induction s as [|d s IH]; [reflexivity|].
  rewrite append_cons. cbn [drop_last].
  destruct (s ++ String c "") eqn:Hs; [destruct s; discriminate|].
  rewrite IH. reflexivity.
Qed.

(** A name between double quotes loses them. *)
Lemma strip_quotes_quoted (name : string) :
  strip_quotes (quoted name) = name.
Proof.
  unfold strip_quotes, quoted, startswith.
  rewrite append_cons, prefix_cons.
  destruct (ascii_dec DQUOTE DQUOTE); [|congruence].
  replace (String.prefix "" (name ++ String DQUOTE "")) with true
    by (destruct (name ++ String DQUOTE ""); reflexivity).
  cbn [drop]. rewrite endswith_char_snoc, drop_last_snoc. reflexivity.
Qed.

(** A name without a quote at either end is kept. *)
Lemma strip_quotes_plain (name : string) :
  startswith (String DQUOTE "") name = false ->
  endswith_char DQUOTE name = false ->
  strip_quotes name = name.
Proof. unfold strip_quotes. intros -> ->. reflexivity. Qed.

(** C5, as amended: when [git status] succeeds and each of its N lines has
    the two state codes, [status] returns N entries, one per line in order,
    each with the two codes of its line.  A line whose first code is [R]
    and that holds one arrow gives, under [to], the text to the right of
    the arrow without the double quote at its start and the one at its end:
    a quoted name is returned without its quotes, a name without quotes as
    it is. *)
Theorem status_entries_and_renames g current_path w tr :
  let p := run w tr (status_call g current_path) in
  let line_array := splitlines (stdout p) in
  returncode p = 0 ->
  Forall (fun l => (2 <= String.length l)%nat) line_array ->
  exists entries,
    status g current_path w tr =
      (Return (<["code" := VInt 0]> {["files" := VList entries]}),
       app tr [Launch (status_call g current_path)])
    /\ length entries = length line_array
    /\ (forall i x y rest,
          line_array !! i = Some (String x (String y rest)) ->
          exists d : dict,
            entries !! i = Some (VDict d)
            /\ d !! "x" = Some (VStr (String x ""))
            /\ d !! "y" = Some (VStr (String y "")))
    /\ (forall i y old new,
          line_array !! i =
            Some (String "R" (String y (String " " (old ++ " -> " ++ new)))) ->
          find_first " -> " (old ++ " -> " ++ new) =
            Some (String.length old) ->
          contains " -> " new = false ->
          exists d : dict,
            entries !! i = Some (VDict d)
            /\ d !! "to" = Some (VStr (strip_quotes new))
            /\ (forall name, new = quoted name ->
                  d !! "to" = Some (VStr name))
            /\ (startswith (String DQUOTE "") new = false ->
                endswith_char DQUOTE new = false ->
                d !! "to" = Some (VStr new))).
Proof.
  intros p line_array Hrc Hwf. exists (status_entry_of <$> line_array).
  assert (forall i line, line_array !! i = Some line ->
            (status_entry_of <$> line_array) !! i =
            Some (status_entry_of line))
    as Hentry by (intros i line H; rewrite list_lookup_fmap, H; reflexivity).
  split; [|split; [|split]].
  - unfold status. unfold_m. fold (status_call g current_path). fold p.
    rewrite Hrc. cbn [Z.eqb]. fold line_array.
    rewrite (status_loop_wellformed _ [] Hwf). reflexivity.
  - apply length_fmap.
  - intros i x y rest Hline. rewrite (Hentry _ _ Hline).
    unfold status_entry_of.
    cbn [index String.get default from_option id].
    destruct (status_record_fields x y
                (status_to (String x (String y rest)))
                (drop 3 (String x (String y rest))))
      as (d & -> & Hx & Hy & _).
    exists d. auto.
  - intros i y old new Hline Hfind Hnew. rewrite (Hentry _ _ Hline).
    unfold status_entry_of. rewrite (status_to_renamed y old new Hfind Hnew).
    cbn [index String.get default from_option id].
    match goal with
    | |- context [status_record ?a ?b ?c ?e] =>
        destruct (status_record_fields a b c e) as (d & -> & _ & _ & Hto & _)
    end.
    exists d. split; [reflexivity|]. split; [exact Hto|]. split.
    + intros name ->. rewrite strip_quotes_quoted in Hto. exact Hto.
    + intros Hs He. rewrite (strip_quotes_plain new Hs He) in Hto. exact Hto.
Qed.

Lemma status_entries_and_renames_witness :
  exists entries,
    status sample_git "repo" (printing rename_and_edit_output) [] =
      (Return (<["code" := VInt 0]> {["files" := VList entries]}),
       [Launch (status_call sample_git "repo")])
    /\ length entries = 2%nat
    /\ (exists d : dict,
          entries !! 0%nat = Some (VDict d)
          /\ d !! "to" = Some (VStr "new name.txt"))
    /\ (exists d : dict,
          entries !! 1%nat = Some (VDict d)
          /\ d !! "x" = Some (VStr " ")
          /\ d !! "y" = Some (VStr "M")).
Proof.
  assert (returncode (run (printing rename_and_edit_output) []
                        (status_call sample_git "repo")) = 0) as Hrc
    by reflexivity.
  assert (Forall (fun l => (2 <= String.length l)%nat)
            (splitlines (stdout (run (printing rename_and_edit_output) []
                                   (status_call sample_git "repo")))))
    as Hwf by (vm_compute; repeat constructor).
  destruct (status_entries_and_renames sample_git "repo"
              (printing rename_and_edit_output) [] Hrc Hwf)
    as (entries & Hstatus & Hlen & Hcodes & Hrenamed).
  exists entries. split; [exact Hstatus|]. split; [exact Hlen|]. split.
  - destruct (Hrenamed 0%nat " "%char "old.txt" (quoted "new name.txt")
                eq_refl eq_refl eq_refl) as (d & Hd & _ & Hquoted & _).
    exists d. split; [exact Hd|]. apply (Hquoted "new name.txt").
    reflexivity.
  - destruct (Hcodes 1%nat " "%char "M"%char " README.md" eq_refl)
      as (d & Hd & Hx & Hy).
    exists d. auto.
Defined.

(** C5, as stated, fails: a line that holds an arrow and does not start
    with [R] keeps its whole text as path.  For the untracked file named
    [a -> b], which porcelain prints between quotes, the path returned is
    [a -> b] and not [b], the text to the right of the arrow without its
    quote. *)
Lemma status_arrow_outside_rename :
  untracked_arrow_line =
    "?? " ++ String DQUOTE "a" ++ " -> " ++ "b" ++ String DQUOTE ""
  /\ contains " -> " untracked_arrow_line = true
  /\ exists d : dict,
       status sample_git "repo" (printing untracked_arrow_line) [] =
         (Return (<["code" := VInt 0]> {["files" := VList [VDict d]]}),
          [Launch (status_call sample_git "repo")])
       /\ d !! "to" = Some (VStr "a -> b")
       /\ d !! "to" <> Some (VStr "b").
Proof.
  split; [reflexivity|]. split; [reflexivity|].
  destruct (status_record_fields "?" "?" "a -> b" (quoted "a -> b"))
    as (d & Hd & _ & _ & Hto & _).
  exists d. split; [|split; [exact Hto|]].
  - rewrite <- Hd. vm_compute. reflexivity.
  - rewrite Hto. discriminate.
Qed.

(** ** [config] without arguments *)

Lemma allowed_elim (k : string) :
  allowed k = true -> k = "user.name" \/ k = "user.email".
Proof.
  unfold allowed, ALLOWED_OPTIONS. intros H%bool_decide_eq_true.
  repeat (apply elem_of_cons in H as [H|H]; [auto|]).
  inversion H.
Qed.

(** The line of an allowed key does not start with a double quote. *)
Lemma allowed_line_not_quoted (key v : string) :
  allowed key = true ->
  startswith (String DQUOTE "") (key ++ "=" ++ v) = false.
Proof. intros [-> | ->]%allowed_elim; reflexivity. Qed.

Lemma continued_key_elim l pk k :
  continued_key l pk = Some k ->
  pk = Some k /\ allowed k = true /\ startswith (String DQUOTE "") l = true.
Proof.
  unfold continued_key. destruct pk as [k'|]; [|discriminate].
  destruct (startswith _ l) eqn:Hs, (allowed k') eqn:Ha; try discriminate.
  intros [= ->]. auto.
Qed.

Lemma continued_key_not_quoted l pk :
  startswith (String DQUOTE "") l = false -> continued_key l pk = None.
Proof.
  unfold continued_key. destruct pk as [k|]; [|reflexivity].
  intros ->. reflexivity.
Qed.

(** The loop never raises, and its dictionary holds allowed keys only. *)
Lemma config_parse_total (lines : list string) :
  forall options pk,
    parse_inv options pk ->
    exists options',
      config_parse lines options pk = Return options'
      /\ forall k, is_Some (options' !! k) -> allowed k = true.
Proof.
  induction lines as [|l rest IH]; intros options pk [Hdom Hpk].
  - exists options. split; [reflexivity | exact Hdom].
  - cbn [config_parse]. destruct (continued_key l pk) as [k|] eqn:Hk.
    + apply continued_key_elim in Hk as (-> & Ha & _).
      destruct (Hpk k eq_refl Ha) as [old Hold]. rewrite Hold.
      apply IH. split.
      * intros k' [x Hx].
        destruct (decide (k = k')) as [<-|Hne]; [exact Ha|].
        rewrite lookup_insert_ne in Hx by exact Hne. eauto.
      * intros k' [= <-] _. rewrite lookup_insert_eq. eauto.
    + destruct (contains "=" l) eqn:Hc.
      * destruct (split_once l Hc) as (key & v & -> & _).
        apply IH. destruct (allowed key) eqn:Ha; split.
        -- intros k' [x Hx].
           destruct (decide (key = k')) as [<-|Hne]; [exact Ha|].
           rewrite lookup_insert_ne in Hx by exact Hne. eauto.
        -- intros k' [= <-] _. rewrite lookup_insert_eq. eauto.
        -- exact Hdom.
        -- intros k' [= <-] Ha'. congruence.
      * apply IH. split; assumption.
Qed.

(** The loop reads the same from the lines attributed to allowed keys as
    from all the lines. *)
Lemma config_parse_attributed (lines : list string) :
  forall options pk pk',
    same_allowed_key pk pk' ->
    config_parse lines options pk =
    config_parse (attributed_lines lines pk) options pk'.
Proof.
  induction lines as [|l rest IH]; intros options pk pk' Hsame;
    [reflexivity|].
  cbn [config_parse attributed_lines].
  destruct (continued_key l pk) as [k|] eqn:Hk.
  - pose proof (continued_key_elim _ _ _ Hk) as (-> & Ha & _).
    destruct Hsame as [<- | Hno]; [|simpl in Hno; congruence].
    cbn [config_parse]. rewrite Hk.
    destruct (options !! k); [|reflexivity].
    apply IH. left. reflexivity.
  - destruct (contains "=" l) eqn:Hc.
    + destruct (split_once l Hc) as (key & v & Hs & Hl).
      unfold line_key. rewrite Hs. cbn [head default from_option id].
      destruct (allowed key) eqn:Ha.
      * cbn [config_parse].
        rewrite (continued_key_not_quoted l pk')
          by (rewrite Hl; apply allowed_line_not_quoted; exact Ha).
        rewrite Hc, Hs, Ha. apply IH. left. reflexivity.
      * apply IH. right. simpl. exact Ha.
    + apply IH. exact Hsame.
Qed.

(** C6, as amended: a successful [config] without arguments returns an
    options mapping whose keys are all in the allow-list, and two listings
    with the same lines attributed to allowed keys (the [key=value] lines
    of allowed keys and the quoted lines that continue them) give the same
    mapping. *)
Theorem config_options_from_allowed_lines top1 top2 w1 w2 tr1 tr2 :
  let p1 := run w1 tr1 (config_list_call top1) in
  let p2 := run w2 tr2 (config_list_call top2) in
  returncode p1 = 0 -> returncode p2 = 0 ->
  attributed_lines (config_lines (stdout p1)) None =
    attributed_lines (config_lines (stdout p2)) None ->
  exists options : gmap string string,
    config top1 [] w1 tr1 =
      (Return (options_response options),
       app tr1 [Launch (config_list_call top1)])
    /\ config top2 [] w2 tr2 =
      (Return (options_response options),
       app tr2 [Launch (config_list_call top2)])
    /\ forall k, is_Some (options !! k) -> k ∈ ALLOWED_OPTIONS.
Proof.
  intros p1 p2 Hrc1 Hrc2 Hsame.
  assert (parse_inv ∅ None) as Hinv.
  { split; [intros k [x Hx]; rewrite lookup_empty in Hx; discriminate
           | intros k Hk; discriminate]. }
  destruct (config_parse_total (config_lines (stdout p1)) ∅ None Hinv)
    as (options & Hparse & Hdom).
  exists options. split; [|split].
  - unfold config. cbn [length Nat.eqb negb]. unfold_m.
    fold (config_list_call top1). fold p1. rewrite Hrc1. cbn [Z.eqb negb].
    fold (config_lines (stdout p1)). rewrite Hparse. reflexivity.
  - unfold config. cbn [length Nat.eqb negb]. unfold_m.
    fold (config_list_call top2). fold p2. rewrite Hrc2. cbn [Z.eqb negb].
    fold (config_lines (stdout p2)).
    rewrite (config_parse_attributed _ ∅ None None) by (left; reflexivity).
    rewrite <- Hsame.
    rewrite <- (config_parse_attributed _ ∅ None None)
      by (left; reflexivity).
    rewrite Hparse. reflexivity.
  - intros k Hk. apply Hdom in Hk. unfold allowed in Hk.
    apply bool_decide_eq_true in Hk. exact Hk.
Qed.

Lemma config_options_from_allowed_lines_witness :
  exists options : gmap string string,
    config "/repo" [] (printing listing_name_only) [] =
      (Return (options_response options),
       [Launch (config_list_call "/repo")])
    /\ config "/repo" [] (printing listing_editor_first) [] =
      (Return (options_response options),
       [Launch (config_list_call "/repo")])
    /\ forall k, is_Some (options !! k) -> k ∈ ALLOWED_OPTIONS.
Proof.
  apply (config_options_from_allowed_lines "/repo" "/repo"
           (printing listing_name_only) (printing listing_editor_first)
           [] []); reflexivity.
Defined.

(** C6, as stated, fails: two listings that differ only in the line of a
    non-allowed key give different options, because that line ends the
    continuation of the allowed key before it. *)
Lemma config_nonallowed_line_changes_options :
  differ_only_in_nonallowed listing_name_only listing_name_and_editor
  /\ config "/repo" [] (printing listing_name_only) [] =
       (Return (options_response {["user.name" := "Ada" ++ quoted_tail]}),
        [Launch (config_list_call "/repo")])
  /\ config "/repo" [] (printing listing_name_and_editor) [] =
       (Return (options_response {["user.name" := "Ada"]}),
        [Launch (config_list_call "/repo")])
  /\ options_response {["user.name" := "Ada" ++ quoted_tail]}
     <> options_response {["user.name" := "Ada"]}.
Proof.
  split; [vm_compute; reflexivity|].
  split; [vm_compute; reflexivity|].
  split; [vm_compute; reflexivity|].
  intros H. apply (f_equal (fun d : dict => d !! "options")) in H.
  vm_compute in H. discriminate H.
Qed.

(** ** [show] *)




(** ** [branch] *)

Lemma branch_record_local c name up top :
  is_local (branch_record c false name up top) = true.
Proof. reflexivity. Qed.

Lemma branch_record_remote c name up top :
  is_local (branch_record c true name up top) = false.
Proof. reflexivity. Qed.

Lemma count_current_record (c : bool) name up top :
  count_current [branch_record c false name up top] =
  if c then 1%nat else 0%nat.
Proof. destruct c; reflexivity. Qed.

Lemma count_current_app l1 l2 :
  count_current (l1 ++ l2)%list = (count_current l1 + count_current l2)%nat.
Proof.
  unfold count_current. rewrite List.filter_app, length_app. reflexivity.
Qed.

Lemma count_current_remote (l : list pyval) :
  Forall (fun v => is_local v = false) l -> count_current l = 0%nat.
Proof.
  unfold count_current. induction 1 as [|v l Hv Hl IH]; [reflexivity|].
  cbn [List.filter]. replace (is_local_current v) with false; [exact IH|].
  destruct v; try reflexivity. cbn [is_local_current].
  rewrite Hv, andb_false_r. reflexivity.
Qed.

Lemma filter_local_app (hb rb : list pyval) :
  Forall (fun v => is_local v = true) hb ->
  Forall (fun v => is_local v = false) rb ->
  List.filter is_local (hb ++ rb)%list = hb.
Proof.
  intros Hh Hr. rewrite List.filter_app.
  replace (List.filter is_local rb) with (@nil pyval).
  - rewrite app_nil_r. induction Hh as [|v l Hv Hl IH]; [reflexivity|].
    cbn [List.filter]. rewrite Hv, IH. reflexivity.
  - induction Hr as [|v l Hv Hl IH]; [reflexivity|].
    cbn [List.filter]. rewrite Hv. exact IH.
Qed.

(** The loop over the local listing: one local entry per line, as many
    current ones as lines with a HEAD mark, and [current_branch] set as
    soon as there is one. *)
Lemma branch_heads_loop_spec (line_array : list string) :
  forall results current results' current',
    branch_heads_loop line_array results current =
      Return (results', current') ->
    exists new,
      results' = (results ++ new)%list
      /\ Forall (fun v => is_local v = true) new
      /\ count_current new = length (List.filter head_marked line_array)
      /\ (count_current new = 0%nat -> current' = current)
      /\ ((0 < count_current new)%nat -> is_Some current').
Proof.
  induction line_array as [|line rest IH];
    intros results current results' current' H.
  - injection H as <- <-. exists []. rewrite app_nil_r.
    repeat split; auto. cbn. lia.
  - cbn [branch_heads_loop] in H. cbn [List.filter].
    unfold head_marked at 1.
    destruct (split TAB None line) as [|name [|sha [|up [|h [|]]]]];
      try discriminate H.
    apply IH in H as (new & -> & Hlocal & Hcount & Hnone & Hsome).
    set (b := branch_record (negb (String.eqb (strip h) "")) false
                (VStr name) (if String.eqb up "" then VNone else VStr up)
                (VStr sha)) in *.
    exists (b :: new). rewrite <- app_assoc.
    split; [reflexivity|].
    split; [constructor; [apply branch_record_local | exact Hlocal]|].
    change (b :: new) with ([b] ++ new)%list. rewrite count_current_app.
    subst b. rewrite count_current_record.
    destruct (negb (String.eqb (strip h) "")); cbn [length Nat.add].
    + split; [lia|]. split; [lia|]. intros _.
      destruct (count_current new) eqn:Hn.
      * rewrite Hnone by reflexivity. eauto.
      * apply Hsome. lia.
    + split; [exact Hcount|]. split; assumption.
Qed.

Lemma branch_remotes_loop_spec (line_array : list string) :
  forall results results',
    branch_remotes_loop line_array results = Return results' ->
    exists new,
      results' = (results ++ new)%list
      /\ Forall (fun v => is_local v = false) new.
Proof.
  induction line_array as [|line rest IH]; intros results results' H.
  - injection H as <-. exists []. rewrite app_nil_r. auto.
  - cbn [branch_remotes_loop] in H.
    destruct (split TAB None line) as [|name [|sha [|]]]; try discriminate H.
    apply IH in H as (new & -> & Hremote).
    eexists (_ :: new). rewrite <- app_assoc. split; [reflexivity|].
    constructor; [apply branch_record_remote | exact Hremote].
Qed.

Lemma branch_heads_loop_ends (line_array : list string) :
  forall results current,
    branch_heads_loop line_array results current <> OutOfFuel.
Proof.
  induction line_array as [|line rest IH]; intros results current;
    cbn [branch_heads_loop]; [discriminate|].
  repeat (case_match; try discriminate); apply IH.
Qed.

Lemma branch_remotes_loop_ends (line_array : list string) :
  forall results, branch_remotes_loop line_array results <> OutOfFuel.
Proof.
  induction line_array as [|line rest IH]; intros results;
    cbn [branch_remotes_loop]; [discriminate|].
  repeat (case_match; try discriminate); apply IH.
Qed.

Lemma get_current_branch_ends g current_path w tr :
  (get_current_branch g current_path w tr).1 <> OutOfFuel.
Proof.
  unfold get_current_branch, get_current_branch_detached, last_item, at_index.
  unfold_m.
  repeat (case_match; cbn [fst]; try discriminate).
Qed.

(** What [branch_heads] hands back: a failure with a non-zero code, or the
    local entries with at least one current among them. *)
Lemma branch_heads_shape g current_path w tr :
  let p := run w tr (heads_call g current_path) in
  let tr1 := app tr [Launch (heads_call g current_path)] in
  exists d tr',
    branch_heads g current_path w tr = (Return d, tr')
    /\ ((exists c cmd msg, c <> 0 /\ d = failure c cmd msg)
        \/ (exists results current,
              d = heads_ok results current
              /\ Forall (fun v => is_local v = true) results
              /\ (1 <= count_current results)%nat
              /\ ((length (List.filter head_marked (splitlines (stdout p)))
                   <= 1)%nat -> count_current results = 1%nat)
              /\ (splitlines (stdout p) = [] ->
                  exists name,
                    (get_current_branch g current_path w tr1).1 = Return name
                    /\ results =
                         [branch_record true false name VNone VNone]))).
Proof.
  intros p tr1. unfold branch_heads. unfold_m.
  fold (heads_call g current_path). fold p. fold tr1.
  destruct (returncode p =? 0) eqn:Hrc.
  2: { eexists _, _. split; [reflexivity|]. left.
       apply Z.eqb_neq in Hrc. eauto. }
  apply Z.eqb_eq in Hrc. rewrite Hrc.
  pose proof (branch_heads_loop_ends (splitlines (stdout p)) [] None)
    as Hends.
  destruct (branch_heads_loop (splitlines (stdout p)) [] None)
    as [[results current]|e|] eqn:Hloop; [| |congruence].
  2: { eexists _, _. split; [reflexivity|]. left.
       exists (-1). eexists _, _. split; [lia | reflexivity]. }
  pose proof Hloop as Hspec.
  apply branch_heads_loop_spec in Hspec
    as (new & Hres & Hlocal & Hcount & Hnone & Hsome).
  cbn [app] in Hres. subst results.
  destruct current as [b|].
  - eexists _, _. split; [reflexivity|]. right. exists new, b.
    split; [reflexivity|]. split; [exact Hlocal|].
    assert (count_current new <> 0%nat) as Hpos
      by (intros Hz; specialize (Hnone Hz); discriminate).
    split; [lia|]. split; [lia|].
    intros Hempty. rewrite Hempty in Hcount. cbn in Hcount. congruence.
  - assert (count_current new = 0%nat) as Hzero.
    { destruct (count_current new) eqn:Hn; [reflexivity|].
      destruct Hsome as [b Hb]; [lia | discriminate]. }
    pose proof (get_current_branch_ends g current_path w tr1) as Hgc.
    destruct (get_current_branch g current_path w tr1)
      as [[name|e|] tr2] eqn:Hname;
      cbn [fst] in Hgc; [| |congruence].
    2: { eexists _, _. split; [reflexivity|]. left.
         exists (-1). eexists _, _. split; [lia | reflexivity]. }
    eexists _, _. split; [reflexivity|]. right.
    exists (new ++ [branch_record true false name VNone VNone])%list,
      (branch_record true false name VNone VNone).
    split; [reflexivity|].
    split; [apply Forall_app; split;
            [exact Hlocal | constructor; [reflexivity | constructor]]|].
    rewrite count_current_app, Hzero, count_current_record.
    split; [lia|]. split; [reflexivity|].
    intros Hempty. exists name. split; [reflexivity|].
    rewrite Hempty in Hloop. cbn in Hloop. injection Hloop as <-.
    reflexivity.
Qed.

Lemma branch_remotes_shape g current_path w tr :
  exists d tr',
    branch_remotes g current_path w tr = (Return d, tr')
    /\ ((exists c cmd msg, c <> 0 /\ d = failure c cmd msg)
        \/ (exists results,
              d = remotes_ok results
              /\ Forall (fun v => is_local v = false) results)).
Proof.
  unfold branch_remotes. unfold_m. fold (remotes_call g current_path).
  destruct (returncode _ =? 0) eqn:Hrc.
  2: { eexists _, _. split; [reflexivity|]. left.
       apply Z.eqb_neq in Hrc. eauto. }
  apply Z.eqb_eq in Hrc. rewrite Hrc.
  pose proof (branch_remotes_loop_ends
                (splitlines (stdout (run w tr (remotes_call g current_path))))
                []) as Hends.
  destruct (branch_remotes_loop _ []) as [results|e|] eqn:Hloop;
    [| |congruence].
  2: { eexists _, _. split; [reflexivity|]. left.
       exists (-1). eexists _, _. split; [lia | reflexivity]. }
  apply branch_remotes_loop_spec in Hloop as (new & -> & Hremote).
  eexists _, _. split; [reflexivity|]. right. exists new. auto.
Qed.

Lemma failure_code c cmd msg : failure c cmd msg !! "code" = Some (VInt c).
Proof. reflexivity. Qed.

Lemma heads_ok_code results current :
  heads_ok results current !! "code" = Some (VInt 0).
Proof. reflexivity. Qed.

Lemma heads_ok_branches results current :
  heads_ok results current !! "branches" = Some (VList results).
Proof. reflexivity. Qed.

Lemma heads_ok_current results current :
  heads_ok results current !! "current_branch" = Some current.
Proof. reflexivity. Qed.

Lemma remotes_ok_code results : remotes_ok results !! "code" = Some (VInt 0).
Proof. reflexivity. Qed.

Lemma remotes_ok_branches results :
  remotes_ok results !! "branches" = Some (VList results).
Proof. reflexivity. Qed.

Lemma branch_record_fields (c r : bool) (name up top : pyval) :
  exists e : dict,
    branch_record c r name up top = VDict e
    /\ e !! "is_current_branch" = Some (VBool c)
    /\ e !! "is_remote_branch" = Some (VBool r)
    /\ e !! "name" = Some name
    /\ e !! "upstream" = Some up
    /\ e !! "top_commit" = Some top
    /\ e !! "tag" = Some VNone.
Proof. eexists. split; [reflexivity|]. repeat split. Qed.

Lemma branch_remotes_loop_entries (line_array : list string) :
  forall results results',
    branch_remotes_loop line_array results = Return results' ->
    exists new,
      results' = (results ++ new)%list
      /\ Forall (fun v => is_local v = false /\ is_current v = false) new.
Proof.
  induction line_array as [|line rest IH]; intros results results' H.
  - injection H as <-. exists []. rewrite app_nil_r. auto.
  - cbn [branch_remotes_loop] in H.
    destruct (split TAB None line) as [|name [|sha [|]]]; try discriminate H.
    apply IH in H as (new & -> & Hremote).
    eexists (_ :: new). rewrite <- app_assoc. split; [reflexivity|].
    constructor; [split; reflexivity | exact Hremote].
Qed.

(** A successful listing of the remote branches holds remote entries only,
    none of them current. *)
Lemma branch_remotes_entries g current_path w tr d tr' :
  branch_remotes g current_path w tr = (Return d, tr') ->
  d !! "code" = Some (VInt 0) ->
  exists results,
    d = remotes_ok results
    /\ Forall (fun v => is_local v = false /\ is_current v = false) results.
Proof.
  unfold branch_remotes. unfold_m. fold (remotes_call g current_path).
  destruct (returncode _ =? 0) eqn:Hrc.
  2: { intros [= <- <-] Hcode. rewrite failure_code in Hcode.
       apply Z.eqb_neq in Hrc. congruence. }
  apply Z.eqb_eq in Hrc. rewrite Hrc.
  destruct (branch_remotes_loop _ []) as [results|e|] eqn:Hloop.
  - intros [= <- <-] _.
    apply branch_remotes_loop_entries in Hloop as (new & -> & Hnew).
    exists new. split; [reflexivity | exact Hnew].
  - intros [= <- <-] Hcode. rewrite failure_code in Hcode. discriminate.
  - discriminate.
Qed.

(** C8: the branch list of a successful [branch] holds exactly one local
    entry with [is_current_branch] true, on every local listing that marks
    at most one ref as HEAD, as the listings of git do.  When the local
    listing is empty, the first entry of the list is the one made from
    [get_current_branch], current, local and with [top_commit] None, and
    no other entry of the list is current. *)
Theorem branch_current_entry g current_path w tr d tr' :
  let p := run w tr (heads_call g current_path) in
  let tr1 := app tr [Launch (heads_call g current_path)] in
  branch g current_path w tr = (Return d, tr') ->
  d !! "code" = Some (VInt 0) ->
  (length (List.filter head_marked (splitlines (stdout p))) <= 1)%nat ->
  exists branches,
    d !! "branches" = Some (VList branches)
    /\ count_current branches = 1%nat
    /\ (splitlines (stdout p) = [] ->
        exists name (e : dict) rest,
          (get_current_branch g current_path w tr1).1 = Return name
          /\ branches = VDict e :: rest
          /\ e !! "is_current_branch" = Some (VBool true)
          /\ e !! "is_remote_branch" = Some (VBool false)
          /\ e !! "top_commit" = Some VNone
          /\ e !! "name" = Some name
          /\ Forall (fun v => is_current v = false) rest).
Proof.
  intros p tr1 Hbranch Hcode Hmarks. unfold branch in Hbranch.
  destruct (branch_heads_shape g current_path w tr)
    as (heads & tr2 & Hheads & Hshape).
  unfold_m_in Hbranch. rewrite Hheads in Hbranch. unfold dict_get in Hbranch.
  destruct Hshape as [(c & cmd & msg & Hc & ->)
                     | (hb & current & -> & Hlocal & Hone & Hmarked
                        & Hempty)].
  { rewrite failure_code in Hbranch. cbn [eq_int] in Hbranch.
    apply Z.eqb_neq in Hc. rewrite Hc in Hbranch. cbn [negb] in Hbranch.
    injection Hbranch as <- <-. rewrite failure_code in Hcode.
    apply Z.eqb_neq in Hc. congruence. }
  rewrite heads_ok_code in Hbranch. cbn [eq_int Z.eqb negb] in Hbranch.
  destruct (branch_remotes g current_path w tr2) as [[remotes|e|] tr3]
    eqn:Hremotes; try discriminate Hbranch.
  destruct (remotes !! "code") as [code|] eqn:Hrcode;
    [|discriminate Hbranch].
  cbn [obind] in Hbranch.
  destruct (negb (eq_int code 0)) eqn:Hzero.
  { injection Hbranch as <- <-. rewrite Hrcode in Hcode.
    injection Hcode as ->. discriminate Hzero. }
  assert (remotes !! "code" = Some (VInt 0)) as Hok.
  { destruct (branch_remotes_shape g current_path w tr2)
      as (r' & tr3' & Hr' & Hshape).
    rewrite Hremotes in Hr'. injection Hr' as <- <-.
    destruct Hshape as [(c & cmd & msg & Hc & ->) | (rb & -> & _)].
    - rewrite failure_code in Hrcode. injection Hrcode as <-.
      cbn [eq_int] in Hzero. apply negb_false_iff, Z.eqb_eq in Hzero.
      congruence.
    - reflexivity. }
  destruct (branch_remotes_entries _ _ _ _ _ _ Hremotes Hok)
    as (rb & -> & Hrb).
  unfold as_list in Hbranch.
  rewrite heads_ok_branches, remotes_ok_branches, heads_ok_current
    in Hbranch.
  injection Hbranch as <- <-.
  assert (Forall (fun v => is_local v = false) rb) as Hremote
    by (eapply Forall_impl; [exact Hrb | intros v [Hv _]; exact Hv]).
  exists (hb ++ rb)%list. split; [reflexivity|].
  rewrite count_current_app, (count_current_remote rb Hremote), Nat.add_0_r.
  split; [exact (Hmarked Hmarks)|].
  intros Hnone. destruct (Hempty Hnone) as (name & Hname & ->).
  destruct (branch_record_fields true false name VNone VNone)
    as (e & He & Hcur & Hrem & Hnm & _ & Htop & _).
  exists name, e, rb. split; [exact Hname|].
  split; [rewrite He; reflexivity|].
  repeat (split; [assumption|]).
  eapply Forall_impl; [exact Hrb | intros v [_ Hv]; exact Hv].
Qed.

Lemma branch_current_entry_witness :
  branch sample_git "repo" empty_repository [] =
    (Return (heads_ok [master_entry] master_entry),
     [Launch (heads_call sample_git "repo");
      Launch (symbolic_ref_call sample_git "repo");
      Launch (remotes_call sample_git "repo")])
  /\ exists branches (e : dict),
       heads_ok [master_entry] master_entry !! "branches" =
         Some (VList branches)
       /\ count_current branches = 1%nat
       /\ branches = [VDict e]
       /\ e !! "is_current_branch" = Some (VBool true)
       /\ e !! "top_commit" = Some VNone
       /\ e !! "name" = Some (VStr "master").
Proof.
  assert (branch sample_git "repo" empty_repository [] =
            (Return (heads_ok [master_entry] master_entry),
             [Launch (heads_call sample_git "repo");
              Launch (symbolic_ref_call sample_git "repo");
              Launch (remotes_call sample_git "repo")])) as Hbranch
    by (vm_compute; reflexivity).
  split; [exact Hbranch|].
  destruct (branch_current_entry sample_git "repo" empty_repository [] _ _
              Hbranch eq_refl)
    as (branches & Hb & Hone & Hempty); [vm_compute; lia|].
  destruct (Hempty eq_refl)
    as (name & e & rest & Hname & Hlist & Hcur & _ & Htop & Hnm & _).
  rewrite heads_ok_branches in Hb. injection Hb as <-.
  assert (rest = []) as ->
    by (apply (f_equal (@tail pyval)) in Hlist; symmetry; exact Hlist).
  vm_compute in Hname. injection Hname as <-.
  exists [master_entry], e. split; [apply heads_ok_branches|].
  split; [exact Hone | auto].
Defined.

(** The condition on the marks is needed by the code: on a listing that
    marked two refs, both entries would be current. *)
Lemma branch_two_marked_heads :
  branch sample_git "repo" two_marked_heads [] =
    (Return (heads_ok [main_entry; dev_entry] dev_entry),
     [Launch (heads_call sample_git "repo");
      Launch (remotes_call sample_git "repo")])
  /\ heads_ok [main_entry; dev_entry] dev_entry !! "code" = Some (VInt 0)
  /\ heads_ok [main_entry; dev_entry] dev_entry !! "branches" =
       Some (VList [main_entry; dev_entry])
  /\ count_current [main_entry; dev_entry] = 2%nat.
Proof.
  split; [vm_compute; reflexivity|]. repeat split.
Qed.

(** ** [config] with arguments *)

Section ConfigSet.

Variable top : string.
Variable w : World.

Lemma failure_inserts (c rc : Z) (cmd message : string) :
  <["message" := VStr message]>
    (<["command" := VStr cmd]>
       (<["code" := VInt rc]> ({["code" := VInt c]} : dict))) =
  failure rc cmd message.
Proof.
  unfold failure. rewrite insert_singleton_eq.
  apply map_eq. intros k.
  destruct (decide (k = "message")) as [->|Hm];
    [vm_compute; reflexivity|].
  destruct (decide (k = "command")) as [->|Hc];
    [vm_compute; reflexivity|].
  destruct (decide (k = "code")) as [->|Hk];
    [vm_compute; reflexivity|].
  rewrite !lookup_insert_ne by congruence.
  rewrite !lookup_singleton_ne by congruence. reflexivity.
Qed.

(** The loop over options of which the first ones succeed and the next
    one fails: it stops there, with the failure of that command. *)
Lemma config_set_loop_failure (done : list (string * string)) :
  forall kv rest tr output c,
    (forall i kv', done !! i = Some kv' ->
       returncode (run w (tr ++ config_add_launches top (take i done))%list
                     (config_add_call top kv')) = 0) ->
    returncode (run w (tr ++ config_add_launches top done)%list
                  (config_add_call top kv)) <> 0 ->
    config_set_loop top (done ++ kv :: rest)%list output
      {["code" := VInt c]} w tr =
    (let p := run w (tr ++ config_add_launches top done)%list
                (config_add_call top kv) in
     (Return (failure (returncode p)
                ("git config --add " ++ kv.1 ++ " " ++ kv.2)
                (strip (stderr p))),
      (tr ++ config_add_launches top (done ++ [kv]))%list)).
Proof.
  induction done as [|kv0 done IH]; intros kv rest tr output c Hdone Hfail.
  - destruct kv as [k v].
    cbn [app config_set_loop config_add_launches fmap list_fmap] in *.
    unfold_m. rewrite app_nil_r in Hfail.
    change (Popen ["git"; "config"; "--add"; k; v] top)
      with (config_add_call top (k, v)).
    apply Z.eqb_neq in Hfail. rewrite app_nil_r. rewrite Hfail. cbn [negb].
    rewrite failure_inserts. reflexivity.
  - destruct kv0 as [k0 v0]. cbn [app config_set_loop]. unfold_m.
    change (Popen ["git"; "config"; "--add"; k0; v0] top)
      with (config_add_call top (k0, v0)).
    pose proof (Hdone 0%nat (k0, v0) eq_refl) as H0.
    cbn [take config_add_launches fmap list_fmap] in H0.
    rewrite app_nil_r in H0. rewrite H0. cbn [Z.eqb negb].
    rewrite insert_singleton_eq.
    pose proof (IH kv rest
                  (tr ++ [Launch (config_add_call top (k0, v0))])%list
                  (output ++
                     [strip (stdout (run w tr
                                       (config_add_call top (k0, v0))))])%list
                  0) as IH'.
    unfold_m. unfold config_add_launches in *.
    rewrite <- !app_assoc in IH'. cbn [app fmap list_fmap] in *.
    apply IH'.
    + intros i kv' Hi. specialize (Hdone (S i) kv' Hi).
      cbn [take fmap list_fmap] in Hdone.
      rewrite <- app_assoc. exact Hdone.
    + exact Hfail.
Qed.

(** The loop over options that all succeed: each is set, in order. *)
Lemma config_set_loop_success (kvs : list (string * string)) :
  forall tr output c,
    (forall i kv', kvs !! i = Some kv' ->
       returncode (run w (tr ++ config_add_launches top (take i kvs))%list
                     (config_add_call top kv')) = 0) ->
    exists msg,
      config_set_loop top kvs output {["code" := VInt c]} w tr =
      (Return (<["message" := VStr msg]>
                 {["code" := VInt (match kvs with [] => c | _ => 0 end)]}),
       (tr ++ config_add_launches top kvs)%list).
Proof.
  induction kvs as [|[k0 v0] kvs IH]; intros tr output c Hall.
  - eexists. cbn [config_set_loop config_add_launches fmap list_fmap].
    unfold_m. rewrite app_nil_r. reflexivity.
  - cbn [config_set_loop]. unfold_m.
    change (Popen ["git"; "config"; "--add"; k0; v0] top)
      with (config_add_call top (k0, v0)).
    pose proof (Hall 0%nat (k0, v0) eq_refl) as H0.
    cbn [take config_add_launches fmap list_fmap] in H0.
    rewrite app_nil_r in H0. rewrite H0. cbn [Z.eqb negb].
    rewrite insert_singleton_eq.
    destruct (IH (tr ++ [Launch (config_add_call top (k0, v0))])%list
                (output ++
                   [strip (stdout (run w tr
                                     (config_add_call top (k0, v0))))])%list
                0) as [msg Hmsg].
    + intros i kv' Hi. specialize (Hall (S i) kv' Hi).
      cbn [take config_add_launches fmap list_fmap] in Hall.
      rewrite <- app_assoc. exact Hall.
    + exists msg. rewrite Hmsg. unfold config_add_launches.
      rewrite <- app_assoc. cbn [app fmap list_fmap].
      destruct kvs; reflexivity.
Qed.

(** C9: [config] with arguments sets the allowed keys one at a time, in
    order.  At the first [git config --add] that exits with a non-zero
    status it returns the failure, with that command and its stripped
    stderr: the trace ends with that launch, so no later key is tried and
    nothing already set is undone.  When every command succeeds, all the
    allowed keys have been set, in order. *)
Theorem config_set_first_failure kwargs tr :
  let kvs := List.filter (fun t => allowed t.1) kwargs in
  (forall done kv rest,
     kvs = (done ++ kv :: rest)%list ->
     (forall i kv', done !! i = Some kv' ->
        returncode (run w (tr ++ config_add_launches top (take i done))%list
                      (config_add_call top kv')) = 0) ->
     let p := run w (tr ++ config_add_launches top done)%list
                (config_add_call top kv) in
     returncode p <> 0 ->
     config top kwargs w tr =
       (Return (failure (returncode p)
                  ("git config --add " ++ kv.1 ++ " " ++ kv.2)
                  (strip (stderr p))),
        (tr ++ config_add_launches top (done ++ [kv]))%list))
  /\ (kwargs <> [] ->
      (forall i kv', kvs !! i = Some kv' ->
         returncode (run w (tr ++ config_add_launches top (take i kvs))%list
                       (config_add_call top kv')) = 0) ->
      exists msg code,
        config top kwargs w tr =
          (Return (<["message" := VStr msg]> {["code" := VInt code]}),
           (tr ++ config_add_launches top kvs)%list)).
Proof.
  intros kvs. split.
  - intros done kv rest Hkvs Hdone p Hfail. unfold config.
    assert (kwargs <> []) as Hne.
    { intros ->. simpl in kvs. subst kvs. destruct done; discriminate. }
    destruct kwargs as [|kw kwargs']; [congruence|].
    cbn [length Nat.eqb negb].
    fold kvs. rewrite Hkvs.
    apply config_set_loop_failure; assumption.
  - intros Hne Hall. unfold config.
    destruct kwargs as [|kw kwargs']; [congruence|].
    cbn [length Nat.eqb negb].
    fold kvs.
    destruct (config_set_loop_success kvs tr [] 1 Hall) as [msg Hmsg].
    eauto.
Qed.

End ConfigSet.

Lemma config_set_first_failure_witness :
  config "/repo" identity_kwargs (refusing "user.name") [] =
    (Return (failure 255 "git config --add user.name Ada"
               "error: could not lock config file"),
     [Launch (config_add_call "/repo" ("user.name", "Ada"))])
  /\ config "/repo" identity_kwargs (refusing "user.email") [] =
     (Return (failure 255 "git config --add user.email ada@example.org"
                "error: could not lock config file"),
      [Launch (config_add_call "/repo" ("user.name", "Ada"));
       Launch (config_add_call "/repo" ("user.email", "ada@example.org"))]).
Proof.
  split.
  - apply (proj1 (config_set_first_failure "/repo" (refusing "user.name")
                    identity_kwargs [])
             [] ("user.name", "Ada") [("user.email", "ada@example.org")]).
    + reflexivity.
    + intros i kv' Hi. destruct i; discriminate Hi.
    + vm_compute. discriminate.
  - apply (proj1 (config_set_first_failure "/repo" (refusing "user.email")
                    identity_kwargs [])
             [("user.name", "Ada")] ("user.email", "ada@example.org") []).
    + reflexivity.
    + intros i kv' Hi. destruct i as [|i].
      * injection Hi as <-. reflexivity.
      * destruct i; discriminate Hi.
    + vm_compute. discriminate.
Defined.

(** * Further properties *)

(** ** Words and whitespace *)

Lemma split_ws_go_token (m : option nat) (s : string) :
  split_ws_go m true s = take_word s :: split_ws_go m false (drop_word s).
Proof.
  induction s as [|c s IH]; [reflexivity|].
  cbn [split_ws_go take_word drop_word]. destruct (isspace c) eqn:Hc.
  - cbn [split_ws_go]. rewrite Hc. reflexivity.
  - rewrite IH. reflexivity.
Qed.

Lemma split_ws_go_start (m : option nat) (s : string) :
  is_word (take_word s) = true -> budget_left m = true ->
  split_ws_go m false s =
  take_word s :: split_ws_go (budget_pred m) false (drop_word s).
Proof.
  destruct s as [|c s]; [discriminate|].
  cbn [take_word drop_word split_ws_go]. destruct (isspace c); [discriminate|].
  intros _ ->. rewrite split_ws_go_token. reflexivity.
Qed.

Lemma split_ws_go_blank (m : option nat) (c : ascii) (s : string) :
  isspace c = true -> split_ws_go m false (String c s) = split_ws_go m false s.
Proof. intros Hc. cbn [split_ws_go]. rewrite Hc. reflexivity. Qed.

Lemma is_word_nonspace (w : string) :
  is_word w = true -> all_chars nonspace w = true.
Proof. destruct w; [discriminate | auto]. Qed.

Lemma take_word_app (w rest : string) (c : ascii) :
  all_chars nonspace w = true -> isspace c = true ->
  take_word (w ++ String c rest) = w.
Proof.
  intros Hw Hc. induction w as [|d w IH].
  - change ("" ++ String c rest) with (String c rest).
    cbn [take_word]. rewrite Hc. reflexivity.
  - cbn [all_chars] in Hw. apply andb_true_iff in Hw as [Hd Hw].
    rewrite append_cons. cbn [take_word].
    unfold nonspace in Hd. apply negb_true_iff in Hd. rewrite Hd, (IH Hw).
    reflexivity.
Qed.

Lemma drop_word_app (w rest : string) (c : ascii) :
  all_chars nonspace w = true -> isspace c = true ->
  drop_word (w ++ String c rest) = String c rest.
Proof.
  intros Hw Hc. induction w as [|d w IH].
  - change ("" ++ String c rest) with (String c rest).
    cbn [drop_word]. rewrite Hc. reflexivity.
  - cbn [all_chars] in Hw. apply andb_true_iff in Hw as [Hd Hw].
    rewrite append_cons. cbn [drop_word].
    unfold nonspace in Hd. apply negb_true_iff in Hd. rewrite Hd, (IH Hw).
    reflexivity.
Qed.

Lemma take_word_word (w : string) :
  all_chars nonspace w = true -> take_word w = w.
Proof.
  induction w as [|d w IH]; [reflexivity|]. cbn [all_chars take_word].
  intros Hw. apply andb_true_iff in Hw as [Hd Hw].
  unfold nonspace in Hd. apply negb_true_iff in Hd. rewrite Hd, (IH Hw).
  reflexivity.
Qed.

Lemma stat_line_shape (f : FileStat) :
  stat_line f =
  f_insertions f ++ String (chr 9) (f_deletions f ++ String (chr 9) (f_path f)).
Proof. reflexivity. Qed.

(** The pieces [split()] makes of a numstat line: the two counts, the
    first word of the path, and what the rest of the path gives. *)
Lemma split_ws_stat_line (f : FileStat) :
  stat_wellformed f ->
  split_ws None (stat_line f) =
  f_insertions f :: f_deletions f :: take_word (f_path f)
    :: split_ws_go None false (drop_word (f_path f)).
Proof.
  intros (Hi & Hd & Hp). unfold split_ws. rewrite stat_line_shape.
  rewrite split_ws_go_start; [|
    rewrite take_word_app by (auto using is_word_nonspace); exact Hi
    | reflexivity].
  rewrite take_word_app, drop_word_app by (auto using is_word_nonspace).
  rewrite split_ws_go_blank by reflexivity. cbn [budget_pred].
  rewrite split_ws_go_start; [|
    rewrite take_word_app by (auto using is_word_nonspace); exact Hd
    | reflexivity].
  rewrite take_word_app, drop_word_app by (auto using is_word_nonspace).
  rewrite split_ws_go_blank by reflexivity. cbn [budget_pred].
  rewrite split_ws_go_start by (exact Hp || reflexivity).
  reflexivity.
Qed.

(** ** [diff] *)

Lemma diff_loop_files (files : list FileStat) :
  forall result,
    Forall stat_wellformed files ->
    diff_loop (stat_line <$> files) result =
    Return (result ++
              ((fun f => diff_record (f_insertions f) (f_deletions f)
                           (take_word (f_path f))) <$> files))%list.
Proof.
  induction files as [|f files IH]; intros result Hwf.
  - cbn. rewrite app_nil_r. reflexivity.
  - inversion Hwf as [|? ? Hf Hfiles]; subst.
    rewrite fmap_cons. cbn [diff_loop]. rewrite (split_ws_stat_line f Hf).
    cbn [at_index lookup list_lookup obind].
    rewrite (IH _ Hfiles), fmap_cons, <- app_assoc. reflexivity.
Qed.

Lemma diff_record_fields (insertions deletions filename : string) :
  exists d : dict,
    diff_record insertions deletions filename = VDict d
    /\ d !! "insertions" = Some (VStr insertions)
    /\ d !! "deletions" = Some (VStr deletions)
    /\ d !! "filename" = Some (VStr filename).
Proof. eexists. split; [reflexivity|]. repeat split. Qed.

(** X1: [diff] returns one entry per numstat line, in order, with the two
    counts under [insertions] and [deletions] and, under [filename], the
    first word of the path: the whole path when it holds no blank, the path
    cut at its first blank otherwise. *)
Theorem diff_entries top_repo_path w tr files :
  let p := run w tr (diff_call top_repo_path) in
  returncode p = 0 ->
  splitlines (stdout p) = stat_line <$> files ->
  Forall stat_wellformed files ->
  exists entries,
    diff top_repo_path w tr =
      (Return (<["code" := VInt 0]> {["result" := VList entries]}),
       app tr [Launch (diff_call top_repo_path)])
    /\ length entries = length files
    /\ forall i f, files !! i = Some f ->
         exists d : dict,
           entries !! i = Some (VDict d)
           /\ d !! "insertions" = Some (VStr (f_insertions f))
           /\ d !! "deletions" = Some (VStr (f_deletions f))
           /\ d !! "filename" = Some (VStr (take_word (f_path f)))
           /\ (all_chars nonspace (f_path f) = true ->
               d !! "filename" = Some (VStr (f_path f)))
           /\ (forall name rest,
                 f_path f = name ++ " " ++ rest ->
                 all_chars nonspace name = true ->
                 d !! "filename" = Some (VStr name)).
Proof.
  intros p Hrc Hlines Hwf.
  exists ((fun f => diff_record (f_insertions f) (f_deletions f)
                      (take_word (f_path f))) <$> files).
  split; [|split].
  - unfold diff. unfold_m. fold (diff_call top_repo_path). fold p.
    rewrite Hrc, Hlines. cbn [Z.eqb].
    rewrite (diff_loop_files files [] Hwf). reflexivity.
  - rewrite length_fmap. reflexivity.
  - intros i f Hf. rewrite list_lookup_fmap, Hf. cbn [fmap option_fmap option_map].
    destruct (diff_record_fields (f_insertions f) (f_deletions f)
                (take_word (f_path f))) as (d & -> & Hi & Hd & Hname).
    exists d. split; [reflexivity|].
    split; [exact Hi|]. split; [exact Hd|]. split; [exact Hname|]. split.
    + intros Hword. rewrite (take_word_word _ Hword) in Hname. exact Hname.
    + intros name rest Hpath Hword. rewrite Hname. do 2 f_equal.
      rewrite Hpath.
      change (name ++ " " ++ rest) with (name ++ String " " rest).
      apply take_word_app; [exact Hword | reflexivity].
Qed.

Lemma diff_entries_witness :
  exists entries,
    diff "/repo" (printing sample_numstat) [] =
      (Return (<["code" := VInt 0]> {["result" := VList entries]}),
       [Launch (diff_call "/repo")])
    /\ (exists d : dict,
          entries !! 0%nat = Some (VDict d)
          /\ d !! "insertions" = Some (VStr "3")
          /\ d !! "deletions" = Some (VStr "1")
          /\ d !! "filename" = Some (VStr "src/a.py"))
    /\ (exists d : dict,
          entries !! 1%nat = Some (VDict d)
          /\ d !! "filename" = Some (VStr "my")).
Proof.
  destruct (diff_entries "/repo" (printing sample_numstat) [] sample_files)
    as (entries & Hdiff & _ & Hat).
  - reflexivity.
  - vm_compute; reflexivity.
  - repeat constructor.
  - exists entries. split; [exact Hdiff|]. split.
    + destruct (Hat 0%nat _ eq_refl) as (d & Hd & Hi & Hdel & Hname & _).
      exists d. auto.
    + destruct (Hat 1%nat _ eq_refl) as (d & Hd & _ & _ & _ & _ & Hcut).
      exists d. split; [exact Hd|].
      apply (Hcut "my" "file.txt"); reflexivity.
Defined.

(** ** [detailed_log]: the list of files *)

Lemma split_ws_go_rest (s : string) :
  is_word (take_word s) = true -> split_ws_go (Some 0%nat) false s = [s].
Proof.
  destruct s as [|c s]; [discriminate|].
  cbn [take_word split_ws_go budget_left].
  destruct (isspace c); [discriminate | reflexivity].
Qed.

(** With [maxsplit=2] a numstat line gives the two counts and the path,
    whole. *)
Lemma split_ws_max_stat_line (f : FileStat) :
  stat_wellformed f ->
  split_ws (Some 2%nat) (stat_line f) =
  [f_insertions f; f_deletions f; f_path f].
Proof.
  intros (Hi & Hd & Hp). unfold split_ws. rewrite stat_line_shape.
  rewrite split_ws_go_start; [|
    rewrite take_word_app by (auto using is_word_nonspace); exact Hi
    | reflexivity].
  rewrite take_word_app, drop_word_app by (auto using is_word_nonspace).
  rewrite split_ws_go_blank by reflexivity. cbn [budget_pred Nat.pred].
  rewrite split_ws_go_start; [|
    rewrite take_word_app by (auto using is_word_nonspace); exact Hd
    | reflexivity].
  rewrite take_word_app, drop_word_app by (auto using is_word_nonspace).
  rewrite split_ws_go_blank by reflexivity. cbn [budget_pred Nat.pred].
  rewrite (split_ws_go_rest _ Hp). reflexivity.
Qed.

(** One piece list for a one-character separator: the pieces of the text
    before a separator, then the pieces of the text after it. *)
Lemma split_char_app (c : ascii) (a b : string) :
  split (String c "") None (a ++ String c b) =
  (split (String c "") None a ++ split (String c "") None b)%list.
Proof.
  unfold split. induction a as [|d a IH].
  - change ("" ++ String c b) with (String c b).
    cbn [split_go budget_left andb]. rewrite prefix_cons.
    destruct (ascii_dec c c); [|congruence].
    replace (String.prefix "" b) with true by (destruct b; reflexivity).
    reflexivity.
  - rewrite append_cons. cbn [split_go budget_left andb].
    rewrite !prefix_cons. destruct (ascii_dec c d) as [->|Hne].
    + replace (String.prefix "" (a ++ String d b)) with true
        by (destruct (a ++ String d b); reflexivity).
      replace (String.prefix "" a) with true by (destruct a; reflexivity).
      cbn [budget_pred String.length Nat.pred]. rewrite IH. reflexivity.
    + rewrite IH.
      pose proof (split_go_nonempty (String c "") None 0 a) as Hne'.
      destruct (split_go (String c "") None 0 a); [congruence|].
      reflexivity.
Qed.

Lemma basename_in_directory (dir name : string) :
  contains "/" name = false -> basename (dir ++ "/" ++ name) = name.
Proof.
  intros Hname. unfold basename.
  change (dir ++ "/" ++ name) with (dir ++ String "/" name).
  rewrite split_char_app, (split_no_separator _ _ _ Hname), last_snoc.
  reflexivity.
Qed.

Lemma note_digits_length (words : list string) :
  forall note count note' count',
    note_digits words note count = Return (note', count') ->
    length note' = length note.
Proof.
  induction words as [|word words IH]; intros note count note' count' H.
  - injection H as <- <-. reflexivity.
  - cbn [note_digits] in H. destruct (isdigit word).
    + destruct (count <? length note)%nat; [|discriminate].
      apply IH in H. rewrite H. apply length_insert.
    + apply IH in H. exact H.
Qed.

(** The loop over the numstat lines: one entry per file, the path whole
    and its last component as name. *)
Lemma detailed_log_loop_files (line_array : list string)
    (files : list FileStat) :
  forall k result len,
    (forall j f, files !! j = Some f ->
       line_array !! (S k + j)%nat = Some (stat_line f)) ->
    Forall stat_wellformed files ->
    exists len',
      detailed_log_loop line_array (seq (S k) (length files)) result len =
      Return ((result ++ (modified_file_of <$> files))%list, len').
Proof.
  induction files as [|f files IH]; intros k result len Hlines Hwf.
  - exists len. cbn. rewrite app_nil_r. reflexivity.
  - inversion Hwf as [|? ? Hf Hfiles]; subst.
    cbn [length seq detailed_log_loop].
    pose proof (Hlines 0%nat f eq_refl) as H0.
    rewrite Nat.add_0_r in H0. unfold at_index at 1. rewrite H0.
    cbn [obind]. rewrite (split_ws_max_stat_line f Hf).
    cbn [at_index lookup list_lookup obind].
    rewrite (at_index_last (split "/" None (f_path f)) ""
               (split_go_nonempty "/" None 0 (f_path f))).
    cbn [obind].
    destruct (IH (S k)
                (result ++ [modified_file_of f])%list
                (length (split "/" None (f_path f)))) as [len' Hloop].
    + intros j f' Hj. specialize (Hlines (S j) f' Hj).
      rewrite <- Hlines. f_equal. lia.
    + exact Hfiles.
    + exists len'. unfold modified_file_of at 1, basename at 1 in Hloop.
      rewrite Hloop, fmap_cons, <- app_assoc. reflexivity.
Qed.

Lemma modified_file_fields (path name insertion deletion : string) :
  exists e : dict,
    modified_file path name insertion deletion = VDict e
    /\ e !! "modified_file_path" = Some (VStr path)
    /\ e !! "modified_file_name" = Some (VStr name)
    /\ e !! "insertion" = Some (VStr insertion)
    /\ e !! "deletion" = Some (VStr deletion).
Proof. eexists. split; [reflexivity|]. repeat split. Qed.

Lemma detailed_response_files code temp count insertions deletions result :
  detailed_response code temp count insertions deletions result !! "code"
    = Some (VInt code)
  /\ detailed_response code temp count insertions deletions result
       !! "modified_file_note" = Some (VStr temp)
  /\ detailed_response code temp count insertions deletions result
       !! "modified_files" = Some (VList result).
Proof. repeat split. Qed.

(** The digits of the footer fit the three slots of [note] when the
    footer holds at most three numbers. *)
Lemma note_digits_returns (words : list string) :
  forall note count,
    (count + length (List.filter isdigit words) <= length note)%nat ->
    exists note' count',
      note_digits words note count = Return (note', count').
Proof.
  induction words as [|word words IH]; intros note count Hfit.
  - eexists _, _. reflexivity.
  - cbn [note_digits List.filter] in *. destruct (isdigit word).
    + cbn [length] in Hfit.
      replace (count <? length note)%nat with true
        by (symmetry; apply Nat.ltb_lt; lia).
      apply IH. rewrite length_insert. lia.
    + apply IH. exact Hfit.
Qed.

Lemma basename_plain (path : string) :
  contains "/" path = false -> basename path = path.
Proof.
  intros H. unfold basename. rewrite (split_no_separator _ _ _ H).
  reflexivity.
Qed.

(** X2: on output made of a header, one numstat line per file, as many
    stat lines and a footer with at most three numbers, [detailed_log]
    returns code 0, the footer as note and one entry per file, in order:
    each with its counts, its path whole (blanks included) and, as name,
    the last component of the path. *)
Theorem detailed_log_files g selected_hash current_path w tr header files
    stats footer :
  let p := run w tr (detailed_log_call g selected_hash current_path) in
  returncode p = 0 ->
  splitlines (stdout p) =
    (header :: (stat_line <$> files) ++ stats ++ [footer])%list ->
  length stats = length files ->
  Forall stat_wellformed files ->
  (length (List.filter isdigit (split_ws None footer)) <= 3)%nat ->
  exists (d : dict) entries,
    detailed_log g selected_hash current_path w tr =
      (Return d,
       app tr [Launch (detailed_log_call g selected_hash current_path)])
    /\ d !! "code" = Some (VInt 0)
    /\ d !! "modified_file_note" = Some (VStr footer)
    /\ d !! "modified_files" = Some (VList entries)
    /\ length entries = length files
    /\ forall i f, files !! i = Some f ->
         exists e : dict,
           entries !! i = Some (VDict e)
           /\ e !! "modified_file_path" = Some (VStr (f_path f))
           /\ e !! "insertion" = Some (VStr (f_insertions f))
           /\ e !! "deletion" = Some (VStr (f_deletions f))
           /\ (forall dir name,
                 f_path f = dir ++ "/" ++ name ->
                 contains "/" name = false ->
                 e !! "modified_file_name" = Some (VStr name))
           /\ (contains "/" (f_path f) = false ->
               e !! "modified_file_name" = Some (VStr (f_path f))).
Proof.
  intros p Hrc Hlines Hstats Hwf Hfooter.
  destruct (note_digits_returns (split_ws None footer)
              [VInt 0; VInt 0; VInt 0] 0 Hfooter) as (note & count & Hnote).
  set (line_array := (header :: (stat_line <$> files) ++ stats ++ [footer])%list)
    in *.
  assert (length line_array = ((length files + 1) * 2)%nat) as Hlen.
  { subst line_array. cbn [length]. rewrite !length_app, length_fmap, Hstats.
    cbn [length]. lia. }
  assert (last line_array = Some footer) as Hlast.
  { subst line_array.
    change (header :: (stat_line <$> files) ++ stats ++ [footer])%list
      with ((header :: (stat_line <$> files)) ++ stats ++ [footer])%list.
    rewrite !app_assoc. apply last_snoc. }
  destruct (detailed_log_loop_files line_array files 0 [] (length line_array))
    as [len' Hloop]; [|exact Hwf|].
  { intros j f Hf. subst line_array.
    change (1 + j)%nat with (S j).
    change ((header :: (stat_line <$> files) ++ stats ++ [footer])%list
              !! S j)
      with (((stat_line <$> files) ++ stats ++ [footer])%list !! j).
    rewrite lookup_app_l
      by (rewrite length_fmap; apply lookup_lt_Some in Hf; exact Hf).
    rewrite list_lookup_fmap, Hf. reflexivity. }
  pose proof (note_digits_length _ _ _ _ _ Hnote) as Hnote_len.
  destruct note as [|n0 [|n1 [|n2 [|]]]]; try discriminate Hnote_len.
  assert (exists note',
            detailed_log_parse line_array =
              Return (footer, note', modified_file_of <$> files)
            /\ length note' = 3%nat) as (note' & Hparse & Hlen').
  { unfold detailed_log_parse.
    replace (1 <? length line_array)%nat with true
      by (symmetry; apply Nat.ltb_lt; lia).
    unfold at_index at 1. rewrite Nat.sub_1_r, <- last_lookup, Hlast.
    cbn [obind]. rewrite Hnote. cbn [obind].
    replace (length line_array / 2 - 1)%nat with (length files)
      by (rewrite Hlen, Nat.div_mul by lia; lia).
    rewrite Hloop. cbn [obind app at_index lookup list_lookup].
    destruct (eq_int n2 0 && (1 <? len')%nat && contains "-" footer);
      cbn [obind at_index lookup list_lookup]; eexists; split;
      reflexivity. }
  destruct note' as [|m0 [|m1 [|m2 [|]]]]; try discriminate Hlen'.
  destruct (detailed_response_files 0 footer m0 m1 m2
              (modified_file_of <$> files)) as (Hcode & Hnote' & Hfiles).
  exists (detailed_response 0 footer m0 m1 m2 (modified_file_of <$> files)),
    (modified_file_of <$> files).
  split; [|split; [exact Hcode|split; [exact Hnote'|split; [exact Hfiles|]]]].
  { unfold detailed_log. unfold_m.
    fold (detailed_log_call g selected_hash current_path). fold p.
    rewrite Hrc, Hlines. fold line_array. rewrite Hparse. reflexivity. }
  split; [apply length_fmap|].
  intros i f Hf. rewrite list_lookup_fmap, Hf.
  cbn [fmap option_fmap option_map]. unfold modified_file_of.
  destruct (modified_file_fields (f_path f) (basename (f_path f))
              (f_insertions f) (f_deletions f))
    as (e & -> & Hpath & Hname & Hins & Hdel).
  exists e. split; [reflexivity|].
  split; [exact Hpath|]. split; [exact Hins|]. split; [exact Hdel|]. split.
  - intros dir name Hp Hn. rewrite Hname, Hp.
    rewrite (basename_in_directory dir name Hn). reflexivity.
  - intros Hplain. rewrite Hname, (basename_plain _ Hplain). reflexivity.
Qed.

Lemma detailed_log_files_witness :
  exists (d : dict) entries,
    detailed_log sample_git "4c1d2aa" "repo"
      (printing sample_detailed_output) [] =
      (Return d, [Launch (detailed_log_call sample_git "4c1d2aa" "repo")])
    /\ d !! "modified_file_note" = Some (VStr sample_footer)
    /\ d !! "modified_files" = Some (VList entries)
    /\ length entries = 2%nat
    /\ (exists e : dict,
          entries !! 0%nat = Some (VDict e)
          /\ e !! "modified_file_path" = Some (VStr "src/a.py")
          /\ e !! "modified_file_name" = Some (VStr "a.py"))
    /\ (exists e : dict,
          entries !! 1%nat = Some (VDict e)
          /\ e !! "modified_file_path" = Some (VStr "my file.txt")
          /\ e !! "modified_file_name" = Some (VStr "my file.txt")).
Proof.
  destruct (detailed_log_files sample_git "4c1d2aa" "repo"
              (printing sample_detailed_output) [] "4c1d2aa Tidy up"
              sample_files sample_stats sample_footer)
    as (d & entries & Hlog & _ & Hnote & Hfiles & Hlen & Hat).
  - reflexivity.
  - vm_compute; reflexivity.
  - reflexivity.
  - repeat constructor.
  - vm_compute. lia.
  - exists d, entries. split; [exact Hlog|]. split; [exact Hnote|].
    split; [exact Hfiles|]. split; [exact Hlen|]. split.
    + destruct (Hat 0%nat _ eq_refl) as (e & He & Hpath & _ & _ & Hdir & _).
      exists e. split; [exact He|]. split; [exact Hpath|].
      apply (Hdir "src" "a.py"); reflexivity.
    + destruct (Hat 1%nat _ eq_refl) as (e & He & Hpath & _ & _ & _ & Hpl).
      exists e. split; [exact He|]. split; [exact Hpath|].
      apply Hpl. reflexivity.
Defined.

(** ** Branch references *)

(** X3: [_get_branch_name] gives back the name put after [refs/heads/] or
    [refs/remotes/], provided the name does not hold that prefix again, and
    raises ValueError for a reference under neither. *)
Theorem get_branch_name_round_trip :
  (forall name, contains "refs/heads/" name = false ->
     get_branch_name ("refs/heads/" ++ name) = Return name)
  /\ (forall name, contains "refs/remotes/" name = false ->
        get_branch_name ("refs/remotes/" ++ name) = Return name)
  /\ (forall reference,
        startswith "refs/heads/" reference = false ->
        startswith "refs/remotes/" reference = false ->
        get_branch_name reference =
          Raise (ValueError "Reference [{}] is not a valid branch.")).
Proof.
  split; [|split].
  - intros name Hname. unfold get_branch_name, startswith.
    replace (String.prefix "refs/heads/" ("refs/heads/" ++ name)) with true
      by (symmetry; apply prefix_spec; eauto).
    change ("refs/heads/" ++ name) with ("" ++ "refs/heads/" ++ name).
    rewrite split_first_separator
      by (discriminate || exact (find_first_prefix "refs/heads/" name)).
    rewrite (split_no_separator _ _ _ Hname). reflexivity.
  - intros name Hname. unfold get_branch_name, startswith.
    replace (String.prefix "refs/heads/" ("refs/remotes/" ++ name))
      with false by reflexivity.
    replace (String.prefix "refs/remotes/" ("refs/remotes/" ++ name))
      with true by (symmetry; apply prefix_spec; eauto).
    change ("refs/remotes/" ++ name) with ("" ++ "refs/remotes/" ++ name).
    rewrite split_first_separator
      by (discriminate || exact (find_first_prefix "refs/remotes/" name)).
    rewrite (split_no_separator _ _ _ Hname). reflexivity.
  - intros reference Hheads Hremotes. unfold get_branch_name.
    rewrite Hheads, Hremotes. reflexivity.
Qed.

Lemma get_branch_name_round_trip_witness :
  get_branch_name "refs/heads/main" = Return "main"
  /\ get_branch_name "refs/remotes/origin/main" = Return "origin/main"
  /\ get_branch_name "refs/tags/v1" =
       Raise (ValueError "Reference [{}] is not a valid branch.").
Proof.
  split; [|split].
  - apply (proj1 get_branch_name_round_trip "main"). reflexivity.
  - apply (proj1 (proj2 get_branch_name_round_trip) "origin/main").
    reflexivity.
  - apply (proj2 (proj2 get_branch_name_round_trip) "refs/tags/v1");
      reflexivity.
Defined.

Lemma rstrip_chars_keep (set lit rest : string) :
  all_chars (fun c => negb (mem_char c set)) lit = true ->
  rstrip_chars set (lit ++ rest) = lit ++ rstrip_chars set rest.
Proof.
  induction lit as [|c lit IH]; intros Hlit; [reflexivity|].
  cbn [all_chars] in Hlit. apply andb_true_iff in Hlit as [Hc Hlit].
  apply negb_true_iff in Hc.
  rewrite !append_cons. cbn [rstrip_chars]. rewrite (IH Hlit), Hc.
  destruct (lit ++ rstrip_chars set rest); reflexivity.
Qed.

(** Stripping line feeds leaves a leading ref prefix in place. *)
Lemma strip_keeps_prefix (lit rest : string) (c : ascii) :
  all_chars (fun c => negb (mem_char c (String LF ""))) (String c lit) = true ->
  strip_chars (String LF "") (String c lit ++ rest) =
  String c lit ++ rstrip_chars (String LF "") rest.
Proof.
  intros Hlit. unfold strip_chars.
  pose proof Hlit as Hc. cbn [all_chars] in Hc.
  apply andb_true_iff in Hc as [Hc _]. apply negb_true_iff in Hc.
  rewrite append_cons. cbn [lstrip_chars]. rewrite Hc.
  rewrite <- append_cons. apply rstrip_chars_keep. exact Hlit.
Qed.

Lemma rstrip_chars_line_feed (path : string) :
  rstrip_chars (String LF "") (path ++ String LF "") =
  rstrip_chars (String LF "") path.
Proof.
  induction path as [|c path IH]; [reflexivity|].
  rewrite append_cons. cbn [rstrip_chars]. rewrite IH. reflexivity.
Qed.

Lemma rstrip_chars_unchanged (path : string) :
  path <> "" -> endswith_char LF path = false ->
  rstrip_chars (String LF "") path = path.
Proof.
  induction path as [|c path IH]; intros Hne Hend; [congruence|].
  destruct path as [|d path].
  - cbn [endswith_char] in Hend. cbn [rstrip_chars mem_char].
    rewrite Ascii.eqb_sym, Hend. reflexivity.
  - cbn [rstrip_chars] in *. rewrite IH by (discriminate || exact Hend).
    reflexivity.
Qed.




(** ** [show_top_level] *)

(** X5: [show_top_level] returns the path git prints, without the line
    feed that ends it and otherwise unchanged (blanks at its ends are
    kept); a failure is returned with its code, command and stderr. *)
Theorem show_top_level_path g current_path w tr :
  let p := run w tr (toplevel_call g current_path) in
  let tr' := app tr [Launch (toplevel_call g current_path)] in
  (forall path,
     returncode p = 0 -> stdout p = path ++ String LF "" ->
     path <> "" -> startswith (String LF "") path = false ->
     endswith_char LF path = false ->
     show_top_level g current_path w tr =
       (Return (<["code" := VInt 0]> {["top_repo_path" := VStr path]}), tr'))
  /\ (returncode p <> 0 ->
      show_top_level g current_path w tr =
        (Return (failure (returncode p) "git rev-parse --show-toplevel"
                   (stderr p)), tr')).
Proof.
  intros p tr'. unfold show_top_level. unfold_m.
  fold (toplevel_call g current_path). fold p. fold tr'. split.
  - intros path Hrc Hout Hne Hstart Hend. rewrite Hrc, Hout. cbn [Z.eqb].
    unfold strip_chars.
    destruct path as [|c path]; [congruence|].
    rewrite append_cons. cbn [lstrip_chars mem_char].
    unfold startswith in Hstart. rewrite prefix_cons in Hstart.
    destruct (ascii_dec LF c) as [<-|Hc].
    + destruct path; discriminate Hstart.
    + replace (Ascii.eqb c LF) with false
        by (symmetry; apply Ascii.eqb_neq; congruence).
      cbn [orb]. rewrite <- append_cons, rstrip_chars_line_feed.
      rewrite rstrip_chars_unchanged by assumption. reflexivity.
  - intros Hrc. apply Z.eqb_neq in Hrc. rewrite Hrc. reflexivity.
Qed.

Lemma show_top_level_path_witness :
  show_top_level sample_git "repo/docs"
    (printing ("/srv/repo" ++ String LF "")) [] =
  (Return (<["code" := VInt 0]> {["top_repo_path" := VStr "/srv/repo"]}),
   [Launch (toplevel_call sample_git "repo/docs")]).
Proof.
  apply (proj1 (show_top_level_path sample_git "repo/docs"
                  (printing ("/srv/repo" ++ String LF "")) [])
           "/srv/repo"); try reflexivity.
  discriminate.
Defined.

(** ** [get_upstream_branch] and [_get_tag] *)

(** X6: [get_upstream_branch] returns the stripped output when
    [rev-parse] succeeds, None when it fails saying that no upstream is
    configured or that the revision is unknown, and raises an exception
    carrying the raw diagnostic for any other failure. *)
Theorem get_upstream_branch_outcomes g current_path branch_name w tr :
  let p := run w tr (upstream_call g current_path branch_name) in
  let tr' := app tr [Launch (upstream_call g current_path branch_name)] in
  (returncode p = 0 ->
   get_upstream_branch g current_path branch_name w tr =
     (Return (VStr (strip (stdout p))), tr'))
  /\ (returncode p <> 0 -> no_upstream (stderr p) ->
      get_upstream_branch g current_path branch_name w tr =
        (Return VNone, tr'))
  /\ (returncode p <> 0 -> ~ no_upstream (stderr p) ->
      get_upstream_branch g current_path branch_name w tr =
        (Raise (upstream_failure branch_name (stderr p)), tr')).
Proof.
  intros p tr'. unfold get_upstream_branch. unfold_m.
  fold (upstream_call g current_path branch_name). fold p. fold tr'.
  split; [intros ->; reflexivity|].
  destruct (contains "fatal: no upstream configured for branch"
              (lower (stderr p))) eqn:H1.
  { apply contains_spec in H1 as (pre & post & H1). split.
    - intros Hrc _. apply Z.eqb_neq in Hrc. rewrite Hrc. reflexivity.
    - intros _ Hno. destruct Hno.
      exists "fatal: no upstream configured for branch", pre, post.
      split; [left; reflexivity | exact H1]. }
  destruct (contains "unknown revision or path not in the working tree"
              (lower (stderr p))) eqn:H2.
  { apply contains_spec in H2 as (pre & post & H2). split.
    - intros Hrc _. apply Z.eqb_neq in Hrc. rewrite Hrc. reflexivity.
    - intros _ Hno. destruct Hno.
      exists "unknown revision or path not in the working tree", pre, post.
      split; [right; left; reflexivity | exact H2]. }
  split.
  - intros _ (msg & pre & post & Hin & Hmsg).
    assert (contains msg (lower (stderr p)) = true) as Hc
      by (apply contains_spec; eauto).
    destruct Hin as [<- | [<- | []]]; congruence.
  - intros Hrc _. apply Z.eqb_neq in Hrc. rewrite Hrc. reflexivity.
Qed.

Lemma get_upstream_branch_outcomes_witness :
  get_upstream_branch sample_git "repo" "main"
    (printing ("origin/main" ++ String LF "")) [] =
  (Return (VStr "origin/main"),
   [Launch (upstream_call sample_git "repo" "main")]).
Proof.
  apply (proj1 (get_upstream_branch_outcomes sample_git "repo" "main"
                  (printing ("origin/main" ++ String LF "")) [])).
  reflexivity.
Defined.

Lemma lower_char_not_capital (c : ascii) : is_capital (lower_char c) = false.
Proof. destruct c as [[] [] [] [] [] [] [] []]; reflexivity. Qed.

Lemma lower_no_capital (s : string) : no_capital (lower s) = true.
Proof.
  unfold no_capital. induction s as [|c s IH]; [reflexivity|].
  cbn [lower all_chars]. rewrite lower_char_not_capital, IH. reflexivity.
Qed.

Lemma all_chars_app (P : ascii -> bool) (a b : string) :
  all_chars P (a ++ b) = all_chars P a && all_chars P b.
Proof.
  induction a as [|c a IH]; [reflexivity|].
  rewrite append_cons. cbn [all_chars]. rewrite IH, andb_assoc. reflexivity.
Qed.

Lemma append_associative (a b c : string) : (a ++ b) ++ c = a ++ b ++ c.
Proof.
  induction a as [|d a IH]; [reflexivity|].
  rewrite !append_cons, IH. reflexivity.
Qed.

Lemma lower_app (a b : string) : lower (a ++ b) = lower a ++ lower b.
Proof.
  induction a as [|c a IH]; [reflexivity|].
  rewrite append_cons. cbn [lower]. rewrite IH. reflexivity.
Qed.

(** A text with a capital letter is never part of a lowered text. *)
Lemma capital_not_in_lower (sub s : string) :
  no_capital sub = false -> contains sub (lower s) = false.
Proof.
  intros Hsub. destruct (contains sub (lower s)) eqn:Hc; [|reflexivity].
  apply contains_spec in Hc as (pre & post & Hc).
  pose proof (lower_no_capital s) as Hlow. rewrite Hc in Hlow.
  unfold no_capital in *. rewrite !all_chars_app in Hlow.
  apply andb_true_iff in Hlow as [_ Hlow].
  apply andb_true_iff in Hlow as [Hlow _]. congruence.
Qed.

(** X7: [_get_tag] takes the diagnostic that no tag can describe the
    commit for None when the commit is named without capital letters (the
    name is compared as given with the lowered diagnostic); for a name
    with a capital letter A-Z that diagnostic is never recognised, and
    unless the diagnostic says that no names were found an exception is
    raised. *)
Theorem get_tag_capital_letters g current_path commit_sha w tr :
  let p := run w tr (describe_call g current_path commit_sha) in
  let tr' := app tr [Launch (describe_call g current_path commit_sha)] in
  (forall tail,
     returncode p <> 0 -> lower commit_sha = commit_sha ->
     stderr p = "fatal: No tags can describe '" ++ commit_sha ++ "'." ++ tail ->
     get_tag g current_path commit_sha w tr = (Return VNone, tr'))
  /\ (returncode p <> 0 -> no_capital commit_sha = false ->
      contains "fatal: no names found" (lower (stderr p)) = false ->
      get_tag g current_path commit_sha w tr =
        (Raise (describe_failure commit_sha (stderr p)), tr')).
Proof.
  intros p tr'. unfold get_tag. unfold_m.
  fold (describe_call g current_path commit_sha). fold p. fold tr'. split.
  - intros tail Hrc Hlow Herr. apply Z.eqb_neq in Hrc. rewrite Hrc.
    replace (contains _ (lower (stderr p))) with true; [reflexivity|].
    symmetry. apply contains_spec. exists "", (lower tail).
    rewrite Herr, !lower_app, Hlow.
    change ("" ++ ?x) with x. rewrite !append_associative. reflexivity.
  - intros Hrc Hcap Hnames. apply Z.eqb_neq in Hrc. rewrite Hrc, Hnames.
    rewrite capital_not_in_lower; [reflexivity|].
    unfold no_capital in *. rewrite !all_chars_app, Hcap.
    rewrite andb_false_r. reflexivity.
Qed.

Lemma get_tag_capital_letters_witness :
  get_tag sample_git "repo" "abc123" (failing 128 no_tags_error) [] =
  (Return VNone, [Launch (describe_call sample_git "repo" "abc123")]).
Proof.
  apply (proj1 (get_tag_capital_letters sample_git "repo" "abc123"
                  (failing 128 no_tags_error) [])
           (String LF "")).
  - discriminate.
  - reflexivity.
  - reflexivity.
Defined.

(** ** [get_current_branch] *)

Lemma contains_char_app (c : ascii) (a b : string) :
  contains (String c "") (a ++ b) =
  contains (String c "") a || contains (String c "") b.
Proof.
  induction a as [|d a IH].
  - change ("" ++ b) with b. rewrite contains_nil. reflexivity.
  - rewrite append_cons, !contains_cons, IH, !prefix_cons.
    destruct (ascii_dec c d); [|reflexivity].
    replace (String.prefix "" (a ++ b)) with true
      by (destruct (a ++ b); reflexivity).
    replace (String.prefix "" a) with true by (destruct a; reflexivity).
    reflexivity.
Qed.

Lemma rstrip_word_line (name : string) :
  all_chars nonspace name = true -> rstrip (name ++ String LF "") = name.
Proof.
  induction name as [|c name IH]; intros Hname; [reflexivity|].
  cbn [all_chars] in Hname. apply andb_true_iff in Hname as [Hc Hname].
  unfold nonspace in Hc. apply negb_true_iff in Hc.
  rewrite append_cons. cbn [rstrip]. rewrite (IH Hname), Hc.
  destruct name; reflexivity.
Qed.

Lemma strip_word_line (name : string) :
  is_word name = true -> strip (name ++ String LF "") = name.
Proof.
  intros Hname. unfold strip. destruct name as [|c name]; [discriminate|].
  pose proof (is_word_nonspace _ Hname) as Hall.
  pose proof Hall as Hc. cbn [all_chars] in Hc.
  apply andb_true_iff in Hc as [Hc _].
  unfold nonspace in Hc. apply negb_true_iff in Hc.
  rewrite append_cons. cbn [lstrip]. rewrite Hc.
  rewrite <- append_cons. apply rstrip_word_line. exact Hall.
Qed.

Lemma last_item_snoc {A} (l : list A) (x : A) :
  last_item (l ++ [x])%list = Return x.
Proof.
  unfold last_item. destruct (l ++ [x])%list as [|y l'] eqn:Hl.
  - destruct l; discriminate Hl.
  - rewrite <- Hl. unfold at_index.
    rewrite Nat.sub_1_r, <- last_lookup, last_snoc. reflexivity.
Qed.

(** X8: on an attached HEAD [get_current_branch] returns the last
    component of the symbolic ref: the branch name when it holds no slash,
    and only what follows the last slash otherwise ([feature/login] is
    reported as [login]). *)
Theorem get_current_branch_last_component g current_path w tr dir name :
  let p := run w tr (symbolic_ref_call g current_path) in
  returncode p = 0 ->
  stdout p = dir ++ "/" ++ name ++ String LF "" ->
  contains "/" name = false ->
  is_word name = true ->
  get_current_branch g current_path w tr =
    (Return (VStr name), app tr [Launch (symbolic_ref_call g current_path)]).
Proof.
  intros p Hrc Hout Hslash Hword. unfold get_current_branch. unfold_m.
  fold (symbolic_ref_call g current_path). fold p.
  rewrite Hrc, Hout. cbn [Z.eqb].
  change (dir ++ "/" ++ name ++ String LF "")
    with (dir ++ String "/" (name ++ String LF "")).
  rewrite split_char_app.
  rewrite (split_no_separator "/" None (name ++ String LF ""))
    by (rewrite contains_char_app, Hslash; reflexivity).
  rewrite last_item_snoc. unfold_m.
  rewrite (strip_word_line name Hword). reflexivity.
Qed.

Lemma get_current_branch_last_component_witness :
  get_current_branch sample_git "repo"
    (printing ("refs/heads/feature/login" ++ String LF "")) [] =
  (Return (VStr "login"), [Launch (symbolic_ref_call sample_git "repo")]).
Proof.
  apply (get_current_branch_last_component sample_git "repo"
           (printing ("refs/heads/feature/login" ++ String LF "")) []
           "refs/heads/feature" "login"); reflexivity.
Defined.

Lemma find_starred_none (lines : list string) :
  Forall (fun l => starred l = false) lines ->
  List.find (startswith "*") (strip <$> lines) = None.
Proof.
  induction 1 as [|l lines Hl Hlines IH]; [reflexivity|].
  rewrite fmap_cons. cbn [List.find]. unfold starred in Hl. rewrite Hl.
  exact IH.
Qed.

Lemma find_starred_first (before after : list string) (l : string) :
  Forall (fun l => starred l = false) before ->
  starred l = true ->
  List.find (startswith "*") (strip <$> (before ++ l :: after)%list) =
  Some (strip l).
Proof.
  intros Hbefore Hl. induction Hbefore as [|b before Hb Hbefore IH].
  - cbn [app]. rewrite fmap_cons. cbn [List.find].
    unfold starred in Hl. rewrite Hl. reflexivity.
  - cbn [app]. rewrite fmap_cons. cbn [List.find].
    unfold starred in Hb. rewrite Hb. exact IH.
Qed.

(** X9: when [symbolic-ref] fails, [get_current_branch] falls back on
    [git branch -a] only if the diagnostic says that HEAD is not a symbolic
    ref: the first starred line, without its star and blanks, is the name,
    and None is returned when no line is starred; any other failure raises
    an exception carrying the diagnostic and [git branch -a] is not run. *)
Theorem get_current_branch_detached_fallback g current_path w tr :
  let p := run w tr (symbolic_ref_call g current_path) in
  let tr1 := app tr [Launch (symbolic_ref_call g current_path)] in
  let p2 := run w tr1 (branch_all_call g current_path) in
  let tr2 := app tr1 [Launch (branch_all_call g current_path)] in
  returncode p <> 0 ->
  (contains "not a symbolic ref" (lower (stderr p)) = false ->
   get_current_branch g current_path w tr =
     (Raise (symbolic_ref_failure (stderr p)), tr1))
  /\ (contains "not a symbolic ref" (lower (stderr p)) = true ->
      returncode p2 = 0 ->
      (Forall (fun l => starred l = false) (splitlines (stdout p2)) ->
       get_current_branch g current_path w tr = (Return VNone, tr2))
      /\ (forall before l after,
            splitlines (stdout p2) = (before ++ l :: after)%list ->
            Forall (fun l => starred l = false) before ->
            starred l = true ->
            get_current_branch g current_path w tr =
              (Return (VStr (lstrip_chars "* " (strip l))), tr2))).
Proof.
  intros p tr1 p2 tr2 Hrc. apply Z.eqb_neq in Hrc.
  subst p tr1 p2 tr2. unfold symbolic_ref_call, branch_all_call in *.
  unfold get_current_branch, get_current_branch_detached. unfold_m.
  rewrite Hrc. split.
  - intros ->. reflexivity.
  - intros -> Hrc2. rewrite Hrc2. cbn [Z.eqb]. split.
    + intros Hnone. rewrite (find_starred_none _ Hnone). reflexivity.
    + intros before l after Hlines Hbefore Hl.
      rewrite Hlines, (find_starred_first before after l Hbefore Hl).
      reflexivity.
Qed.

Lemma get_current_branch_detached_fallback_witness :
  get_current_branch sample_git "repo"
    (scripted [fails 128 not_symbolic_error; prints detached_listing]) [] =
  (Return (VStr "(HEAD detached at 41b07aa)"),
   [Launch (symbolic_ref_call sample_git "repo");
    Launch (branch_all_call sample_git "repo")]).
Proof.
  refine (proj2 (proj2 (get_current_branch_detached_fallback sample_git
                          "repo"
                          (scripted [fails 128 not_symbolic_error;
                                     prints detached_listing]) [] _)
                   _ _)
            [] "* (HEAD detached at 41b07aa)" ["  main"] _ _ _).
  - discriminate.
  - reflexivity.
  - reflexivity.
  - vm_compute; reflexivity.
  - constructor.
  - reflexivity.
Defined.

(** ** The credential channel *)

Ltac split_expect :=
  repeat match goal with
    | |- context [expect_loop ?a ?b ?c ?d] =>
        destruct (expect_loop a b c d) as [[?|?|] ?]
    | |- context [Nat.eqb ?a ?b] => destruct (Nat.eqb a b)
    | |- context [match ?e with HTTPError _ _ => _ | _ => _ end] =>
        destruct e
    end.

(** X10: whatever the child does, [communicate] writes nothing but
    answers: after the spawn the lines sent are none, the user name, the
    user name and then the password, or the password alone. *)
Theorem communicate_sends_only_answers self w tr :
  exists sends,
    (communicate self w tr).2 = app tr (Launch (spawn_of self) :: sends)
    /\ (sends = []
        \/ sends = [Sendline (username self)]
        \/ sends = [Sendline (username self); Sendline (password self)]
        \/ sends = [Sendline (password self)]).
Proof.
  unfold communicate, communicate_try, pbind, expect, sendline, get_before,
    pret.
  fold (spawn_of self). cbn [pending buffer unread before].
  split_expect; cbn [snd pending buffer unread before];
    split_expect; cbn [snd];
    rewrite <- ?app_assoc; cbn [app]; eexists; (split; [reflexivity|]);
    auto.
Qed.

Lemma find_first_absent (lit s : string) :
  contains lit s = false -> find_first lit s = None.
Proof.
  induction s as [|c s IH]; [rewrite contains_nil | rewrite contains_cons];
    intros H; apply orb_false_elim in H as [Hp Hs];
    rewrite find_first_unfold, Hp; [reflexivity|].
  rewrite (IH Hs). reflexivity.
Qed.

Lemma re_search_absent (before_any after_any buffer : string) :
  contains before_any buffer = false ->
  re_search before_any after_any buffer = None.
Proof.
  intros H. unfold re_search. rewrite (find_first_absent _ _ H). reflexivity.
Qed.

(** In the password prompt the user name pattern can only match further
    on. *)
Lemma re_search_username_later (host : string) :
  match re_search "Username for " ": " (password_text host) with
  | Some (start, _) => start <> 0%nat
  | None => True
  end.
Proof.
  unfold re_search, password_text.
  rewrite find_first_unfold.
  change (String.prefix "Username for " ("Password for " ++ host ++ ": "))
    with false.
  cbv beta iota.
  change ("Password for " ++ host ++ ": ")
    with (String "P" ("assword for " ++ host ++ ": ")).
  cbv beta iota.
  destruct (find_first "Username for " ("assword for " ++ host ++ ": "))
    as [n|]; cbn [fmap option_fmap option_map mbind option_bind];
    [|exact I].
  match goal with
  | |- context [find_last ?a ?b] => destruct (find_last a b)
  end; cbn [mbind option_bind]; [discriminate | exact I].
Qed.

Lemma search_password_only (host : string) :
  search_from 0 [username_prompt; password_prompt] (password_text host) None
  = Some (1%nat, 0%nat, (13 + String.length host + 1)%nat).
Proof.
  cbn [search_from username_prompt password_prompt].
  rewrite re_search_password.
  pose proof (re_search_username_later host) as H.
  destruct (re_search "Username for " ": " (password_text host))
    as [[start stop]|]; [|reflexivity].
  destruct start as [|start]; [contradiction|]. reflexivity.
Qed.

Lemma expect_password_first (host : string) (rest : list event) :
  expect_loop [username_prompt; password_prompt]
    (Emit (password_text host) :: rest) "" 0 =
  (Return 1%nat,
   {| pending := rest; buffer := " "; before := ""; unread := 0 |}).
Proof.
  cbn [expect_loop].
  replace (search_from 0 [username_prompt; password_prompt] "" None)
    with (@None (nat * nat * nat)) by reflexivity.
  change ("" ++ password_text host) with (password_text host).
  rewrite (expect_loop_found _ _ _ _ _ _ _ (search_password_only host)).
  rewrite substring_none. unfold password_text.
  change (drop (13 + String.length host + 1)
            ("Password for " ++ host ++ ": "))
    with (drop (String.length host + 1) (host ++ ": ")).
  rewrite drop_append. reflexivity.
Qed.

(** X11: a child that asks for the password only (the user name being in
    the remote's URL) is sent the password and nothing else; the user name
    is never written, and the exit status returned is that of the child,
    whatever it is. *)
Theorem communicate_password_only self host tail status at_eof w tr :
  spawn w tr (spawn_of self) = password_only_child host tail status at_eof ->
  communicate self w tr =
  (Return (" " ++ tail, Some status),
   app tr [Launch (spawn_of self); Sendline (password self)]).
Proof.
  unfold spawn_of. intros Hchild. unfold communicate. rewrite Hchild.
  unfold communicate_try, pbind, expect, sendline, get_before, pret.
  cbn [password_only_child script exit_status pending buffer unread before].
  rewrite expect_password_first.
  cbn [Nat.eqb pending buffer unread before].
  rewrite expect_end_of_stream.
  rewrite <- app_assoc. reflexivity.
Qed.

Lemma communicate_password_only_witness :
  communicate sample_wrapper
    (spawning (password_only_child "https://ada@example.org"
                 "fatal: Authentication failed" 128 None))
    [] =
  (Return (" fatal: Authentication failed", Some 128),
   [Launch (spawn_of sample_wrapper); Sendline "s3cret"]).
Proof.
  apply (communicate_password_only sample_wrapper "https://ada@example.org"
           "fatal: Authentication failed" 128 None
           (spawning
              (password_only_child "https://ada@example.org"
                 "fatal: Authentication failed" 128 None))
           []).
  reflexivity.
Defined.

Lemma expect_silent (text : string) :
  contains "Username for " text = false ->
  contains "Password for " text = false ->
  expect_loop [username_prompt; password_prompt] [Emit text] "" 0 =
  (Raise PexpectEOF,
   {| pending := []; buffer := ""; before := text; unread := 0 |}).
Proof.
  intros Hu Hp. cbn [expect_loop].
  replace (search_from 0 [username_prompt; password_prompt] "" None)
    with (@None (nat * nat * nat)) by reflexivity.
  change ("" ++ text) with text.
  cbn [search_from username_prompt password_prompt].
  rewrite (re_search_absent _ _ _ Hu), (re_search_absent _ _ _ Hp).
  reflexivity.
Qed.

(** X12: when the child ends without a prompt (the text it printed holds
    neither [Username for ] nor [Password for ]) nothing is written to it:
    a [clone] with credentials reports the exit status pexpect knows at end
    of stream, which may be None, and unless that status is 0 the stripped
    text as message. *)
Theorem clone_without_prompt g current_path repo_url a text status at_eof
    w tr :
  spawn w tr (clone_spawn g w current_path repo_url) =
    silent_child text status at_eof ->
  contains "Username for " text = false ->
  contains "Password for " text = false ->
  clone g current_path repo_url (Some a) w tr =
  (Return (if negb (eq_int (opt_int at_eof) 0)
           then <["message" := VStr (strip text)]>
                  {["code" := opt_int at_eof]}
           else {["code" := opt_int at_eof]}),
   app tr [Launch (clone_spawn g w current_path repo_url)]).
Proof.
  unfold clone_spawn. intros Hchild Hu Hp.
  unfold clone. unfold_m. unfold communicate.
  cbn [command cwd env_terminal_prompt username password].
  rewrite Hchild.
  unfold communicate_try, pbind, expect, sendline, get_before, pret.
  cbn [silent_child script exit_status exitstatus_at_eof pending buffer
       unread before].
  rewrite (expect_silent text Hu Hp).
  cbn [before].
  destruct (negb (eq_int (opt_int at_eof) 0)); reflexivity.
Qed.

Lemma clone_without_prompt_witness :
  clone sample_git "work" "https://example.org/r.git"
    (Some sample_credentials)
    (spawning (silent_child ("fatal: repository not found" ++ String LF "")
                 128 None)) [] =
  (Return (<["message" := VStr "fatal: repository not found"]>
             {["code" := VNone]}),
   [Launch (Spawn "git clone https://example.org/r.git -q" "/srv/work"
              "1")]).
Proof.
  apply (clone_without_prompt sample_git "work" "https://example.org/r.git"
           sample_credentials
           ("fatal: repository not found" ++ String LF "") 128 None
           (spawning
              (silent_child ("fatal: repository not found" ++ String LF "")
                 128 None)) []); reflexivity.
Defined.

(** X13: [pull] and [push] with credentials answer the prompts as [clone]
    does: the user name and then the password are sent to the command
    spawned in the directory, and the child's exit status 0 is the code. *)
Theorem pull_push_answer_prompts g remote branch curr_fb_path u p host tail
    at_eof w tr :
  (spawn w tr (pull_spawn g curr_fb_path) = prompting_child host tail at_eof
   -> pull g curr_fb_path
        (Some {| auth_username := u; auth_password := p |}) w tr =
      (Return {["code" := VInt 0]},
       app tr [Launch (pull_spawn g curr_fb_path); Sendline u; Sendline p]))
  /\
  (spawn w tr (push_spawn g remote branch curr_fb_path) =
     prompting_child host tail at_eof
   -> push g remote branch curr_fb_path
        (Some {| auth_username := u; auth_password := p |}) w tr =
      (Return {["code" := VInt 0]},
       app tr [Launch (push_spawn g remote branch curr_fb_path);
               Sendline u; Sendline p])).
Proof.
  split; intros Hchild.
  - unfold pull. unfold_m.
    erewrite communicate_prompts by exact Hchild. reflexivity.
  - unfold push. unfold_m.
    erewrite communicate_prompts by exact Hchild. reflexivity.
Qed.

Lemma pull_push_answer_prompts_witness :
  pull sample_git "repo" (Some sample_credentials) prompting_world [] =
    (Return {["code" := VInt 0]},
     [Launch (pull_spawn sample_git "repo");
      Sendline "ada"; Sendline "s3cret"])
  /\ push sample_git "origin" "main" "repo" (Some sample_credentials)
       prompting_world [] =
     (Return {["code" := VInt 0]},
      [Launch (push_spawn sample_git "origin" "main" "repo");
       Sendline "ada"; Sendline "s3cret"]).
Proof.
  split.
  - apply (proj1 (pull_push_answer_prompts sample_git "origin" "main" "repo"
                    "ada" "s3cret" "x" "" (Some 0) prompting_world [])).
    reflexivity.
  - apply (proj2 (pull_push_answer_prompts sample_git "origin" "main" "repo"
                    "ada" "s3cret" "x" "" (Some 0) prompting_world [])).
    reflexivity.
Defined.

(** ** [config] *)

Lemma parse_inv_start : parse_inv ∅ None.
Proof.
  split; [intros k [x Hx]; rewrite lookup_empty in Hx; discriminate
         | intros k Hk; discriminate].
Qed.

Lemma parse_inv_set options pk key v :
  parse_inv options pk ->
  parse_inv (if allowed key then <[key := v]> options else options)
    (Some key).
Proof.
  intros [Hdom Hpk]. destruct (allowed key) eqn:Ha; split.
  - intros k' [x Hx].
    destruct (decide (key = k')) as [<-|Hne]; [exact Ha|].
    rewrite lookup_insert_ne in Hx by exact Hne. eauto.
  - intros k' [= <-] _. rewrite lookup_insert_eq. eauto.
  - exact Hdom.
  - intros k' [= <-] Ha'. congruence.
Qed.

Lemma parse_inv_continue options k old l :
  parse_inv options (Some k) -> allowed k = true ->
  parse_inv (<[k := old ++ l]> options) (Some k).
Proof.
  intros [Hdom Hpk] Ha. split.
  - intros k' [x Hx].
    destruct (decide (k = k')) as [<-|Hne]; [exact Ha|].
    rewrite lookup_insert_ne in Hx by exact Hne. eauto.
  - intros k' [= <-] _. rewrite lookup_insert_eq. eauto.
Qed.

(** The loop over the first lines leaves a sound state, from which it
    goes on. *)
Lemma config_parse_app (lines rest : list string) :
  forall options pk,
    parse_inv options pk ->
    exists options' pk',
      parse_inv options' pk'
      /\ config_parse (lines ++ rest) options pk =
         config_parse rest options' pk'.
Proof.
  induction lines as [|l lines IH]; intros options pk Hinv.
  - exists options, pk. split; [exact Hinv | reflexivity].
  - cbn [app config_parse]. destruct (continued_key l pk) as [k|] eqn:Hk.
    + apply continued_key_elim in Hk as (-> & Ha & _).
      destruct (proj2 Hinv k eq_refl Ha) as [old Hold]. rewrite Hold.
      apply IH. apply parse_inv_continue; assumption.
    + destruct (contains "=" l) eqn:Hc.
      * destruct (split_once l Hc) as (key & v & -> & _).
        apply IH. apply (parse_inv_set _ pk). exact Hinv.
      * apply IH. exact Hinv.
Qed.

(** A line [key=value] whose key holds no equals sign is split into the
    key and the value, whatever the value holds. *)
Lemma split_setting (key v : string) :
  contains "=" key = false ->
  split "=" (Some 1%nat) (key ++ "=" ++ v) = [key; v].
Proof.
  unfold split. induction key as [|c key IH]; intros Hc.
  - change ("" ++ "=" ++ v) with (String "=" v).
    cbn [split_go budget_left andb].
    replace (String.prefix "=" (String "=" v)) with true
      by (symmetry; apply prefix_spec; exists v; reflexivity).
    cbn [budget_pred String.length Nat.pred].
    rewrite split_go_no_budget. reflexivity.
  - rewrite contains_cons in Hc. apply orb_false_elim in Hc as [Hp Hc].
    rewrite append_cons. cbn [split_go budget_left andb].
    rewrite prefix_cons in Hp |- *.
    destruct (ascii_dec "=" c); [destruct key; discriminate Hp|].
    rewrite (IH Hc). reflexivity.
Qed.

Lemma allowed_key_plain (key : string) :
  allowed key = true -> contains "=" key = false.
Proof. intros [-> | ->]%allowed_elim; reflexivity. Qed.

Lemma setting_has_separator (key v : string) :
  contains "=" (key ++ "=" ++ v) = true.
Proof. apply contains_spec. exists key, v. reflexivity. Qed.

(** Lines that neither continue a value nor set [key] leave its value as
    it is. *)
Lemma config_parse_keeps (key v : string) (lines : list string) :
  forall options pk,
    parse_inv options pk ->
    options !! key = Some v ->
    Forall (fun l => startswith (String DQUOTE "") l = false
                     /\ line_key l <> key) lines ->
    exists options',
      config_parse lines options pk = Return options'
      /\ options' !! key = Some v.
Proof.
  induction lines as [|l lines IH]; intros options pk Hinv Hv Hall.
  - exists options. split; [reflexivity | exact Hv].
  - inversion Hall as [|? ? [Hq Hk] Hrest]; subst.
    cbn [config_parse]. rewrite (continued_key_not_quoted l pk Hq).
    destruct (contains "=" l) eqn:Hc.
    + destruct (split_once l Hc) as (key' & v' & Hs & _).
      unfold line_key in Hk. rewrite Hs in Hk |- *.
      cbn [head default from_option id] in Hk.
      apply IH; [apply (parse_inv_set _ pk); exact Hinv | | exact Hrest].
      destruct (allowed key'); [|exact Hv].
      rewrite lookup_insert_ne by exact Hk. exact Hv.
    + apply IH; assumption.
Qed.

(** X14: in the listing the last setting of an allowed key wins: when the
    line [key=v] is followed by no quoted line and by no other line for
    [key], the options returned give [v] for [key], whatever the lines
    before it say. *)
Theorem config_last_setting_wins top w tr key v before after :
  let p := run w tr (config_list_call top) in
  returncode p = 0 ->
  allowed key = true ->
  config_lines (stdout p) = app before ((key ++ "=" ++ v) :: after) ->
  Forall (fun l => startswith (String DQUOTE "") l = false
                   /\ line_key l <> key) after ->
  exists options : gmap string string,
    config top [] w tr =
      (Return (options_response options),
       app tr [Launch (config_list_call top)])
    /\ options !! key = Some v.
Proof.
  intros p Hrc Ha Hlines Hafter.
  destruct (config_parse_app before ((key ++ "=" ++ v) :: after) ∅ None
              parse_inv_start) as (o1 & pk1 & Hinv & Hbefore).
  destruct (config_parse_keeps key v after (<[key := v]> o1) (Some key))
    as (options & Hparse & Hv).
  { pose proof (parse_inv_set o1 pk1 key v Hinv) as H.
    rewrite Ha in H. exact H. }
  { apply lookup_insert_eq. }
  { exact Hafter. }
  exists options. split; [|exact Hv].
  unfold config. cbn [length Nat.eqb negb]. unfold_m.
  fold (config_list_call top). fold p. rewrite Hrc. cbn [Z.eqb negb].
  fold (config_lines (stdout p)). rewrite Hlines, Hbefore.
  cbn [config_parse].
  rewrite (continued_key_not_quoted _ pk1
             (allowed_line_not_quoted key v Ha)).
  rewrite setting_has_separator,
    (split_setting key v (allowed_key_plain key Ha)), Ha, Hparse.
  reflexivity.
Qed.

Lemma config_last_setting_wins_witness :
  exists options : gmap string string,
    config "/repo" [] (printing layered_listing) [] =
      (Return (options_response options),
       [Launch (config_list_call "/repo")])
    /\ options !! "user.name" = Some "Grace".
Proof.
  apply (config_last_setting_wins "/repo" (printing layered_listing) []
           "user.name" "Grace" ["user.name=Ada"; "core.editor=vim"]
           ["core.pager=less"]).
  - reflexivity.
  - reflexivity.
  - vm_compute; reflexivity.
  - constructor; [|constructor].
    split; [reflexivity | vm_compute; discriminate].
Defined.

Lemma filter_none_allowed (kwargs : list (string * string)) :
  Forall (fun t => allowed t.1 = false) kwargs ->
  List.filter (fun t => allowed t.1) kwargs = [].
Proof.
  induction 1 as [|t kwargs Ht _ IH]; [reflexivity|].
  cbn [List.filter]. rewrite Ht. exact IH.
Qed.

(** X15: [config] called with options none of which is in the allow-list
    runs no command and does not say so: it returns code 1 with an empty
    message. *)
Theorem config_only_other_keys top kwargs w tr :
  kwargs <> [] ->
  Forall (fun t => allowed t.1 = false) kwargs ->
  config top kwargs w tr =
  (Return (<["message" := VStr ""]> {["code" := VInt 1]}), tr).
Proof.
  intros Hne Hall. unfold config.
  destruct kwargs as [|kw kwargs]; [congruence|].
  cbn [length Nat.eqb negb].
  rewrite (filter_none_allowed _ Hall). reflexivity.
Qed.

Lemma config_only_other_keys_witness :
  config "/repo" [("core.editor", "vim")] (printing "") [] =
  (Return (<["message" := VStr ""]> {["code" := VInt 1]}), []).
Proof.
  apply (config_only_other_keys "/repo" [("core.editor", "vim")]
           (printing "") []).
  - discriminate.
  - repeat constructor.
Defined.

(** ** [log] and [status] on output they do not expect *)

(** X16: [log] reads the output four lines at a time.  When the number of
    lines is not a multiple of four (a last commit with an empty subject
    prints three) it raises IndexError instead of returning commits. *)
Theorem log_incomplete_record g current_path history_count w tr n r :
  let p := run w tr (log_call g current_path history_count) in
  returncode p = 0 ->
  length (splitlines (stdout p)) = (4 * n + r)%nat ->
  (0 < r < 4)%nat ->
  log g current_path history_count w tr =
  (Raise IndexError,
   app tr [Launch (log_call g current_path history_count)]).
Proof.
  intros p Hrc Hlen Hr. unfold log. unfold_m.
  fold (log_call g current_path history_count). fold p.
  rewrite Hrc. cbn [Z.eqb].
  rewrite (log_loop_incomplete r _ Hr n 0) by lia.
  reflexivity.
Qed.

Lemma log_incomplete_record_witness :
  log sample_git "repo" 10
    (printing (join (String LF "")
                 ["9f2c1e7"; "Ada"; "2 days ago"; "Fix typo";
                  "41b07aa"; "Grace"; "3 days ago"; ""])) [] =
  (Raise IndexError, [Launch (log_call sample_git "repo" 10)]).
Proof.
  apply (log_incomplete_record sample_git "repo" 10
           (printing (join (String LF "")
                        ["9f2c1e7"; "Ada"; "2 days ago"; "Fix typo";
                         "41b07aa"; "Grace"; "3 days ago"; ""])) []
           1%nat 3%nat).
  - reflexivity.
  - vm_compute; reflexivity.
  - lia.
Defined.

Lemma status_entry_short (line : string) :
  (String.length line < 2)%nat -> status_entry line = Raise IndexError.
Proof.
  destruct line as [|x [|y rest]]; cbn [String.length]; try lia; intros _.
  - reflexivity.
  - unfold status_entry, char_at, index.
    cbn [String.get obind].
    destruct (Ascii.eqb x "R"); cbn; reflexivity.
Qed.

Lemma status_loop_short (line_array : list string) :
  Exists (fun l => (String.length l < 2)%nat) line_array ->
  forall result, status_loop line_array result = Raise IndexError.
Proof.
  induction line_array as [|line rest IH]; intros Hex result;
    [inversion Hex|].
  cbn [status_loop].
  destruct (Nat.lt_ge_cases (String.length line) 2) as [Hshort|Hlong].
  - rewrite (status_entry_short line Hshort). reflexivity.
  - rewrite (status_entry_wellformed line Hlong). cbn [obind].
    apply IH. inversion Hex as [? ? Hl|? ? Hr]; subst; [lia | exact Hr].
Qed.

(** X17: every line of the porcelain listing must hold the two state
    codes: when some line has fewer than two characters (an empty line is
    enough) [status] raises IndexError, whatever the other lines are. *)
Theorem status_short_line g current_path w tr :
  let p := run w tr (status_call g current_path) in
  returncode p = 0 ->
  Exists (fun l => (String.length l < 2)%nat) (splitlines (stdout p)) ->
  status g current_path w tr =
  (Raise IndexError, app tr [Launch (status_call g current_path)]).
Proof.
  intros p Hrc Hex. unfold status. unfold_m.
  fold (status_call g current_path). fold p. rewrite Hrc. cbn [Z.eqb].
  rewrite (status_loop_short _ Hex). reflexivity.
Qed.

Lemma status_short_line_witness :
  status sample_git "repo"
    (printing (join (String LF "") [" M a.txt"; ""; "?? b.txt"])) [] =
  (Raise IndexError, [Launch (status_call sample_git "repo")]).
Proof.
  apply (status_short_line sample_git "repo"
           (printing (join (String LF "") [" M a.txt"; ""; "?? b.txt"]))
           []).
  - reflexivity.
  - apply Exists_cons_tl, Exists_cons_hd. simpl. lia.
Defined.

(** ** [branch] *)






Lemma branch_heads_loop_malformed (before after : list string)
    (line : string) :
  Forall (fun l => fields l = 4%nat) before ->
  fields line <> 4%nat ->
  forall results current,
    branch_heads_loop (before ++ line :: after) results current =
    Raise (unpack_error 4 (fields line)).
Proof.
  unfold fields. intros Hbefore Hline.
  induction Hbefore as [|l before Hl _ IH]; intros results current;
    cbn [app branch_heads_loop].
  - destruct (split TAB None line) as [|a [|b [|c [|d [|]]]]];
      cbn [length] in Hline; try reflexivity. congruence.
  - destruct (split TAB None l) as [|a [|b [|c [|d [|]]]]];
      cbn [length] in Hl; try discriminate Hl. apply IH.
Qed.

(** X19: a line of the local listing that does not hold exactly four
    fields between tabs ends [branch] with code -1, the command and the
    text of the failed unpacking; the remote branches are not listed. *)
Theorem branch_malformed_head_line g current_path w tr before line after :
  let p := run w tr (heads_call g current_path) in
  returncode p = 0 ->
  splitlines (stdout p) = app before (line :: after) ->
  Forall (fun l => fields l = 4%nat) before ->
  fields line <> 4%nat ->
  branch g current_path w tr =
  (Return (failure (-1) heads_command
             (if (fields line <? 4)%nat
              then "not enough values to unpack (expected 4, got "
                   ++ decimal (fields line) ++ ")"
              else "too many values to unpack (expected 4)")),
   app tr [Launch (heads_call g current_path)]).
Proof.
  intros p Hrc Hlines Hbefore Hline.
  unfold branch, branch_heads. unfold_m.
  fold (heads_call g current_path). fold p. rewrite Hrc. cbn [Z.eqb].
  rewrite Hlines,
    (branch_heads_loop_malformed before after line Hbefore Hline).
  reflexivity.
Qed.

Lemma branch_malformed_head_line_witness :
  branch sample_git "repo"
    (printing (join (String LF "")
                 [head_line "main" "9f2c1e7" "origin/main" "*";
                  "warning: ignoring broken ref"])) [] =
  (Return (failure (-1) heads_command
             "not enough values to unpack (expected 4, got 1)"),
   [Launch (heads_call sample_git "repo")]).
Proof.
  apply (branch_malformed_head_line sample_git "repo"
           (printing (join (String LF "")
                        [head_line "main" "9f2c1e7" "origin/main" "*";
                         "warning: ignoring broken ref"])) []
           [head_line "main" "9f2c1e7" "origin/main" "*"]
           "warning: ignoring broken ref" []).
  - reflexivity.
  - vm_compute; reflexivity.
  - repeat constructor.
  - vm_compute; discriminate.
Defined.

(** X20: when the listing of the local branches fails, [branch] hands the
    failure back as it is (exit status, command, standard error untouched)
    and does not go on to the remote branches. *)
Theorem branch_heads_failure g current_path w tr :
  let p := run w tr (heads_call g current_path) in
  returncode p <> 0 ->
  branch g current_path w tr =
  (Return (failure (returncode p) heads_command (stderr p)),
   app tr [Launch (heads_call g current_path)]).
Proof.
  intros p Hrc. apply Z.eqb_neq in Hrc.
  unfold branch, branch_heads. unfold_m.
  fold (heads_call g current_path). fold p. rewrite Hrc.
  unfold dict_get. 
  change (join " " _) with heads_command.
  rewrite failure_code. cbn [obind eq_int]. rewrite Hrc. reflexivity.
Qed.

Lemma branch_heads_failure_witness :
  branch sample_git "repo" (failing 128 "fatal: not a git repository") [] =
  (Return (failure 128 heads_command "fatal: not a git repository"),
   [Launch (heads_call sample_git "repo")]).
Proof.
  apply (branch_heads_failure sample_git "repo"
           (failing 128 "fatal: not a git repository") []).
  discriminate.
Defined.

(** ** [diff_content] *)

Lemma show_found filename ref top w tr :
  returncode (run w tr (show_call filename ref top)) = 0 ->
  show filename ref top w tr =
  (Return (stdout (run w tr (show_call filename ref top))),
   app tr [Launch (show_call filename ref top)]).
Proof.
  intros Hrc. unfold show. unfold_m. fold (show_call filename ref top).
  rewrite Hrc. reflexivity.
Qed.




(** X22: a special ref other than WORKING and INDEX is refused with an
    HTTP error that names it, once the previous content has been read: no
    second command is launched. *)
Theorem diff_content_unknown_special cm g filename prev_ref curr_ref top
    prev special w tr :
  let c1 := show_call filename prev top in
  prev_ref !! "git" = Some prev ->
  curr_ref !! "special" = Some special ->
  special <> "WORKING" -> special <> "INDEX" ->
  returncode (run w tr c1) = 0 ->
  diff_content cm g filename prev_ref curr_ref top w tr =
  (Raise (HTTPError 500
            ("Error while retrieving plaintext diff, unknown special ref '"
             ++ special ++ "'.")),
   app tr [Launch c1]).
Proof.
  intros c1 Hprev Hspecial Hw Hi Hrc.
  unfold diff_content, ref_get. rewrite Hprev, Hspecial.
  cbv beta iota delta [bind lift ret].
  rewrite (show_found filename prev top w tr Hrc).
  apply String.eqb_neq in Hw, Hi. rewrite Hw, Hi. reflexivity.
Qed.

Lemma diff_content_unknown_special_witness :
  diff_content empty_contents sample_git "notes.md" {["git" := "HEAD"]}
    {["special" := "STASH"]} "/srv/repo" (printing "# Notes") [] =
  (Raise (HTTPError 500
            "Error while retrieving plaintext diff, unknown special ref 'STASH'."),
   [Launch (show_call "notes.md" "HEAD" "/srv/repo")]).
Proof.
  apply (diff_content_unknown_special empty_contents sample_git "notes.md"
           {["git" := "HEAD"]} {["special" := "STASH"]} "/srv/repo" "HEAD"
           "STASH" (printing "# Notes") []);
    (reflexivity || discriminate).
Defined.

(** ** Failures that are not turned into a response *)

Lemma expect_waiting (text : string) :
  contains "Username for " text = false ->
  contains "Password for " text = false ->
  expect_loop [username_prompt; password_prompt] [Emit text; ReadLine] "" 0 =
  (Raise PexpectTIMEOUT,
   {| pending := [ReadLine]; buffer := text; before := text; unread := 0 |}).
Proof.
  intros Hu Hp. cbn [expect_loop].
  replace (search_from 0 [username_prompt; password_prompt] "" None)
    with (@None (nat * nat * nat)) by reflexivity.
  change ("" ++ text) with text.
  cbn [search_from username_prompt password_prompt].
  rewrite (re_search_absent _ _ _ Hu), (re_search_absent _ _ _ Hp).
  reflexivity.
Qed.

(** X23: only the end of the stream is handled in [communicate].  A child
    that waits for input without having shown one of the two prompts is
    sent nothing, and pexpect's TIMEOUT goes through [clone] to the
    caller. *)
Theorem clone_unprompted_wait_times_out g current_path repo_url a text w tr :
  spawn w tr (clone_spawn g w current_path repo_url) = waiting_child text ->
  contains "Username for " text = false ->
  contains "Password for " text = false ->
  clone g current_path repo_url (Some a) w tr =
  (Raise PexpectTIMEOUT,
   app tr [Launch (clone_spawn g w current_path repo_url)]).
Proof.
  unfold clone_spawn. intros Hchild Hu Hp.
  unfold clone. unfold_m. unfold communicate.
  cbn [command cwd env_terminal_prompt username password].
  rewrite Hchild.
  unfold communicate_try, pbind, expect, sendline, get_before, pret.
  cbn [waiting_child script pending buffer unread before].
  rewrite (expect_waiting text Hu Hp). reflexivity.
Qed.

Lemma clone_unprompted_wait_times_out_witness :
  clone sample_git "work" "git@example.org:r.git" (Some sample_credentials)
    (spawning (waiting_child host_key_question)) [] =
  (Raise PexpectTIMEOUT,
   [Launch (Spawn "git clone git@example.org:r.git -q" "/srv/work" "1")]).
Proof.
  apply (clone_unprompted_wait_times_out sample_git "work"
           "git@example.org:r.git" sample_credentials host_key_question
           (spawning (waiting_child host_key_question)) []); reflexivity.
Defined.

Lemma append_length (a b : string) :
  String.length (a ++ b) = (String.length a + String.length b)%nat.
Proof.
  induction a as [|c a IH]; [reflexivity|].
  rewrite append_cons. cbn [String.length]. rewrite IH. reflexivity.
Qed.

(** X24: when [git checkout -b] fails, [checkout_new_branch] returns the
    exit status and the diagnostic with a command text in which the option
    and the branch name are run together: it is never the command that was
    run. *)
Theorem checkout_new_branch_reported_command g branchname current_path w tr :
  let p := run w tr (new_branch_call g branchname current_path) in
  returncode p <> 0 ->
  checkout_new_branch g branchname current_path w tr =
    (Return (failure (returncode p) ("git checkout -b" ++ branchname)
               (stderr p)),
     app tr [Launch (new_branch_call g branchname current_path)])
  /\ "git checkout -b" ++ branchname
     <> join " " (argv_of (new_branch_call g branchname current_path)).
Proof.
  intros p Hrc. apply Z.eqb_neq in Hrc. split.
  - unfold checkout_new_branch. unfold_m.
    fold (new_branch_call g branchname current_path). fold p.
    rewrite Hrc. reflexivity.
  - intros H. apply (f_equal String.length) in H.
    cbn [new_branch_call argv_of join] in H.
    change ("git" ++ " " ++ "checkout" ++ " " ++ "-b" ++ " " ++ branchname)
      with ("git checkout -b " ++ branchname) in H.
    rewrite !append_length in H. cbn [String.length] in H. lia.
Qed.

Lemma checkout_new_branch_reported_command_witness :
  checkout_new_branch sample_git "dev" "repo"
    (failing 128 "fatal: A branch named 'dev' already exists.") [] =
    (Return (failure 128 "git checkout -bdev"
               "fatal: A branch named 'dev' already exists."),
     [Launch (new_branch_call sample_git "dev" "repo")])
  /\ "git checkout -bdev" <> "git checkout -b dev".
Proof.
  apply (checkout_new_branch_reported_command sample_git "dev" "repo"
           (failing 128 "fatal: A branch named 'dev' already exists.") []).
  discriminate.
Defined.
